(** * Exchange-box API: item ledger, user/friend service, controllers and
      the exchange lifecycle coordinator

    The services of the repository are embedded as functions over explicit
    stores: the [item] table behind the supabase client, the user repository
    behind TypeORM, and the cache-manager store held by each controller.
    An [async] method becomes a function returning a settled [promise]
    (resolved with a value or rejected with an exception) together with the
    store it leaves behind. *)

From stdpp Require Import gmap strings pretty list fin_maps.
From Stdlib Require Import ZArith.

Local Open Scope Z_scope.

(** ** Exceptions and settled promises *)

(** The exception classes thrown in the sources.  [PostgrestError] is the
    [error] member of a supabase response; [Error] is the plain JavaScript
    class; the others are the NestJS exception classes. *)
Inductive exn : Type :=
| Error (message : string)
| PostgrestError (message : string)
| NotFoundException (message : string)
| ConflictException (message : string)
| InternalServerErrorException (message : string)
| RpcException (message : string).

(** [error.message] *)
Definition message (e : exn) : string :=
  match e with
  | Error m | PostgrestError m | NotFoundException m | ConflictException m
  | InternalServerErrorException m | RpcException m => m
  end.

(** [err instanceof NotFoundException], [err instanceof ConflictException] *)
Definition instanceof_NotFoundException (e : exn) : bool :=
  match e with NotFoundException _ => true | _ => false end.

Definition instanceof_ConflictException (e : exn) : bool :=
  match e with ConflictException _ => true | _ => false end.

Inductive promise (A : Type) : Type :=
| resolved (a : A)
| rejected (e : exn).
Arguments resolved {A} a.
Arguments rejected {A} e.

(** [await p; k] *)
Definition await {A B} (p : promise A) (k : A → promise B) : promise B :=
  match p with
  | resolved a => k a
  | rejected e => rejected e
  end.

(** [try { body } catch (e) { handler }] around a settled body. *)
Definition try_catch {A} (body : promise A) (handler : exn → promise A) : promise A :=
  match body with
  | resolved a => resolved a
  | rejected e => handler e
  end.

Notation "'let*' x ':=' p 'in' k" := (await p (λ x, k))
  (at level 10, x name, p at level 100, k at level 200, only parsing).

Definition is_resolved {A} (p : promise A) : bool :=
  match p with resolved _ => true | rejected _ => false end.

(** JavaScript truthiness of a nullable number: [null], [undefined] and [0]
    are falsy. *)
Definition truthy (o : option Z) : bool :=
  match o with
  | Some n => negb (n =? 0)
  | None => false
  end.

(** [x != null] *)
Definition not_null {A} (o : option A) : bool :=
  match o with Some _ => true | None => false end.

(** ** The [item] table and the supabase queries used on it *)

Module item.
(** A row of the [item] table, with the columns the service reads or
    writes. *)
Record row : Type := Row {
  id : Z;
  created_at : Z;
  user_id : Z;
  friend_id : Z;
  length : Z;
  width : Z;
  height : Z;
  name : string;
  weight : Z;
  exchange_id : option Z
}.

(** [update({ exchange_id: e })] on one row *)
Definition set_exchange_id (e : option Z) (r : row) : row :=
  Row (id r) (created_at r) (user_id r) (friend_id r) (length r) (width r)
      (height r) (name r) (weight r) e.
End item.

(** The table, in storage order. *)
Abbreviation table := (list item.row).

Module supabase.
(** A supabase response [{ data, error }]. *)
Inductive response (A : Type) : Type :=
| Data (data : A)
| Failure (error : exn).
Arguments Data {A} data.
Arguments Failure {A} error.

(** [if (error) throw error; ... data ...] *)
Definition unwrap {A} (r : response A) : promise A :=
  match r with
  | Data d => resolved d
  | Failure e => rejected e
  end.

(** [.select().eq('user_id', v)] *)
Definition select_eq_user_id (v : Z) (t : table) : response table :=
  Data (filter (λ r, item.user_id r = v) t).

(** [.select().eq('friend_id', v)] *)
Definition select_eq_friend_id (v : Z) (t : table) : response table :=
  Data (filter (λ r, item.friend_id r = v) t).

(** [.select(...).eq('exchange_id', v)] *)
Definition select_eq_exchange_id (v : Z) (t : table) : response table :=
  Data (filter (λ r, item.exchange_id r = Some v) t).

(** [.select(...).in('id', ids)] *)
Definition select_in_id (ids : list Z) (t : table) : response table :=
  Data (filter (λ r, item.id r ∈ ids) t).

(** [.select(...).eq('id', v).single()]: exactly one row, an error
    otherwise. *)
Definition select_eq_id_single (v : Z) (t : table) : response item.row :=
  match filter (λ r, item.id r = v) t with
  | [r] => Data r
  | _ => Failure (PostgrestError
           "JSON object requested, multiple (or no) rows returned")
  end.

(** [.update({ exchange_id: e }).in('id', ids)]: the rows of the table
    after the statement.  Where the database lists an updated row in the
    result of a later select is not fixed by any query of the service
    (none has an [.order()]): what is said of a list of rows read after
    an update is said for every order of the rows. *)
Definition update_exchange_id_in (e : option Z) (ids : list Z) (t : table) : table :=
  (λ r, if decide (item.id r ∈ ids) then item.set_exchange_id e r else r) <$> t.

(** [.delete().match({ id: v })] *)
Definition delete_match_id (v : Z) (t : table) : table :=
  filter (λ r, item.id r ≠ v) t.

(** The key the database gives an inserted row. *)
Definition next_id (t : table) : Z :=
  1 + foldr Z.max 0 (item.id <$> t).
End supabase.

(** ** Data transfer objects

    The DTO classes live under [libs/dtos], whose files are not
    available; each is modelled by the arguments its constructor is called
    with and the members the services read. *)

Inductive ItemDto : Type := new_ItemDto (data : item.row).
Inductive ExchangeItemDto : Type := new_ExchangeItemDto (data : item.row).
Inductive ItemSizeDto : Type := new_ItemSizeDto (length width height id : Z).

Record CreateItemDto : Type := {
  ci_user_id : Z;
  ci_friend_id : Z;
  ci_heightInCm : Z;
  ci_lengthInCm : Z;
  ci_name : string;
  ci_weightInGrams : Z;
  ci_widthInCm : Z
}.

Record ToggleExchangeToItemDto : Type := {
  exchange_id : Z;
  item_ids : list Z
}.

(** ** ItemService *)

Module ItemService.
(** The TCP client to the user service, as far as [createItem] uses it:
    the reply to the [checkIfFriends] message. *)
Record userClient : Type := {
  send_checkIfFriends : Z → Z → promise bool
}.

Definition createItem (client : userClient) (now : Z)
    (createItemDto : CreateItemDto) (t : table) : promise ItemDto * table :=
  match send_checkIfFriends client (ci_user_id createItemDto)
                                   (ci_friend_id createItemDto) with
  | rejected error => (rejected error, t)
  | resolved response =>
      if negb response then
        (rejected (Error
           "Cannot create item: The specified users are not friends."), t)
      else
        let data :=
          item.Row (supabase.next_id t) now
            (ci_user_id createItemDto) (ci_friend_id createItemDto)
            (ci_lengthInCm createItemDto) (ci_widthInCm createItemDto)
            (ci_heightInCm createItemDto) (ci_name createItemDto)
            (ci_weightInGrams createItemDto) None in
        (resolved (new_ItemDto data), t ++ [data])
  end.

Definition getAllItems (t : table) : promise (list ItemDto) :=
  resolved (new_ItemDto <$> t).

Definition getUserItems (user_id : Z) (forgoten : bool) (t : table)
    : promise (list ItemDto) :=
  let* data := supabase.unwrap
           (if forgoten then supabase.select_eq_user_id user_id t
            else supabase.select_eq_friend_id user_id t) in
  resolved (new_ItemDto <$> data).

(** The body of [deleteItem]'s [try] block. *)
Definition deleteItem_try (item_id : Z) (t : table) : promise bool * table :=
  match supabase.select_eq_id_single item_id t with
  | supabase.Failure fetchError => (rejected fetchError, t)
  | supabase.Data itemData =>
      if truthy (item.exchange_id itemData) then
        (rejected (Error "Item is in exchange and cannot be deleted."), t)
      else
        (resolved true, supabase.delete_match_id item_id t)
  end.

(** [catch (e) { console.error(...); return false; }] *)
Definition deleteItem (item_id : Z) (t : table) : promise bool * table :=
  let '(p, t') := deleteItem_try item_id t in
  (try_catch p (λ _, resolved false), t').

(** The body of [retrieveItemSizesAndCheckExchange]'s [try] block. *)
Definition retrieveItemSizesAndCheckExchange_try (ids : list Z)
    (udpate : bool) (t : table) : promise (list ItemSizeDto) :=
  let* data := supabase.unwrap (supabase.select_in_id ids t) in
  if negb udpate && existsb (λ r, not_null (item.exchange_id r)) data then
    rejected (Error "One or more items are already in an exchange")
  else
    resolved ((λ r, new_ItemSizeDto (item.length r) (item.width r)
                      (item.height r) (item.id r)) <$> data).

(** [catch (err) { ...; throw new Error('Failed to fetch item sizes'); }] *)
Definition retrieveItemSizesAndCheckExchange (ids : list Z) (udpate : bool)
    (t : table) : promise (list ItemSizeDto) :=
  try_catch (retrieveItemSizesAndCheckExchange_try ids udpate t)
    (λ _, rejected (Error "Failed to fetch item sizes")).

Definition addExchangeIdToItem (addExchangeIdToItem : ToggleExchangeToItemDto)
    (t : table) : promise (list ExchangeItemDto) * table :=
  let t' := supabase.update_exchange_id_in
              (Some (exchange_id addExchangeIdToItem))
              (item_ids addExchangeIdToItem) t in
  (let* data := supabase.unwrap (supabase.select_in_id (item_ids addExchangeIdToItem) t') in
   resolved (new_ExchangeItemDto <$> data),
   t').

Definition deleteExchangeFromItems
    (removeExchangeIdToItemDto : ToggleExchangeToItemDto) (t : table)
    : promise bool * table :=
  (resolved true,
   supabase.update_exchange_id_in None (item_ids removeExchangeIdToItemDto) t).

Definition getItemsForOrIdsExchange (id : Z) (returnIdsOnly : bool)
    (t : table) : promise (list ItemDto + list Z) :=
  let* data := supabase.unwrap (supabase.select_eq_exchange_id id t) in
  if returnIdsOnly then resolved (inr (item.id <$> data))
  else resolved (inl (new_ItemDto <$> data)).
End ItemService.

(** ** cache-manager

    The store behind [CACHE_MANAGER]: [get] returns the value stored under
    a key while its time to live has not run out, [set] stores a value with
    a time to live in milliseconds, [del] removes a key. *)

Module CacheManager.
Record entry (V : Type) : Type := Entry {
  value : V;
  stored_at : Z;
  ttl : Z
}.
Arguments Entry {V} value stored_at ttl.
Arguments value {V} e.
Arguments stored_at {V} e.
Arguments ttl {V} e.

Definition fresh {V} (now : Z) (e : entry V) : bool :=
  now - stored_at e <=? ttl e.

Definition get {V} (now : Z) (key : string) (c : gmap string (entry V))
    : option V :=
  match c !! key with
  | Some e => if fresh now e then Some (value e) else None
  | None => None
  end.

Definition set {V} (now : Z) (key : string) (v : V) (ttl : Z)
    (c : gmap string (entry V)) : gmap string (entry V) :=
  <[key := Entry v now ttl]> c.

Definition del {V} (key : string) (c : gmap string (entry V))
    : gmap string (entry V) :=
  delete key c.
End CacheManager.

Abbreviation Cache V := (gmap string (CacheManager.entry V)).

(** [`prefix${id}`] *)
Definition template (prefix : string) (id : Z) : string :=
  (prefix +:+ pretty id)%string.

(** ** ItemController, as in [apps/item/src/item.controller.ts]

    Handlers run over the controller's cache and the item table.  Only the
    handlers whose service method is part of [ItemService] above are
    embedded. *)

Module ItemController.
(** [catch (error) { throw new RpcException(error.message); }] *)
Definition rethrow {A} (p : promise A) : promise A :=
  try_catch p (λ error, rejected (RpcException (message error))).

Definition createItem (client : ItemService.userClient) (now : Z)
    (createItemDto : CreateItemDto) (t : table) : promise ItemDto * table :=
  let '(p, t') := ItemService.createItem client now createItemDto t in
  (rethrow p, t').

Definition getUserItems (now : Z) (id : Z) (cache : Cache (list ItemDto))
    (t : table) : promise (list ItemDto) * Cache (list ItemDto) :=
  let cacheKey := template "userItems:" id in
  match CacheManager.get now cacheKey cache with
  | Some cachedUserItems => (resolved cachedUserItems, cache)
  | None =>
      match ItemService.getUserItems id true t with
      | resolved userItems =>
          (resolved userItems,
           CacheManager.set now cacheKey userItems 18000 cache)
      | rejected error => (rejected (RpcException (message error)), cache)
      end
  end.

Definition getUserForgotenItems (now : Z) (id : Z)
    (cache : Cache (list ItemDto)) (t : table)
    : promise (list ItemDto) * Cache (list ItemDto) :=
  let cacheKey := template "userForgottenItems:" id in
  match CacheManager.get now cacheKey cache with
  | Some cachedUserForgottenItems => (resolved cachedUserForgottenItems, cache)
  | None =>
      match ItemService.getUserItems id false t with
      | resolved userForgottenItems =>
          (resolved userForgottenItems,
           CacheManager.set now cacheKey userForgottenItems 18000 cache)
      | rejected error => (rejected (RpcException (message error)), cache)
      end
  end.

Definition deleteItem (id : Z) (t : table) : promise bool * table :=
  let '(p, t') := ItemService.deleteItem id t in
  (rethrow p, t').

Definition retrieveItemSizesAndCheckExchange (item_ids : list Z)
    (udpate : bool) (t : table) : promise (list ItemSizeDto) :=
  rethrow (ItemService.retrieveItemSizesAndCheckExchange item_ids udpate t).
End ItemController.

(** ** The second ItemController of [apps/item/src/item.controller.ts]

    The file holds a second controller class, without cache and without
    [try]/[catch]. *)

Module ItemController2.
Definition createItem (client : ItemService.userClient) (now : Z)
    (createItemDto : CreateItemDto) (t : table) : promise ItemDto * table :=
  ItemService.createItem client now createItemDto t.

Definition getAllItems (t : table) : promise (list ItemDto) :=
  ItemService.getAllItems t.

Definition getUserItems (user_id : Z) (t : table) : promise (list ItemDto) :=
  ItemService.getUserItems user_id false t.

Definition getUserForgotenItems (user_id : Z) (t : table)
    : promise (list ItemDto) :=
  ItemService.getUserItems user_id true t.

Definition deleteItem (item_id : Z) (t : table) : promise bool * table :=
  ItemService.deleteItem item_id t.
End ItemController2.

(** ** Users, the user repository and UserFriendService.checkIfFriends *)

Module User.
(** A [User] entity; [friends] holds the ids of the users related to it
    through the [friends] relation. *)
Record entity : Type := Entity {
  id : Z;
  name : string;
  email : string;
  telephone : string;
  address : string;
  imageUrl : string;
  friends : list Z
}.
End User.

Record UserDto : Type := new_UserDto {
  dto_name : string;
  dto_email : string;
  dto_id : Z;
  dto_telephone : string;
  dto_address : string;
  dto_imageUrl : string
}.

Record ToggleFriendDto : Type := {
  userId : Z;
  friendId : Z
}.

(** The part of TypeORM's [Repository<User>] that [checkIfFriends] calls:
    [findOne({ where: { id } })], which resolves to the entity or to [null],
    or rejects when the database fails. *)
Class Repository : Type := {
  findOne : Z → promise (option User.entity)
}.

(** A repository over rows held in memory; it never rejects. *)
Definition memory_repository (users : list User.entity) : Repository :=
  {| findOne := λ i, resolved (List.find (λ u, User.id u =? i) users) |}.

Module UserFriendService.
Section with_repository.
Context (userRepository : Repository).

(** The body of [checkIfFriends]'s [try] block. *)
Definition checkIfFriends_try (userId friendId : Z) : promise bool :=
  let* user := findOne userId in
  match user with
  | None => rejected (NotFoundException "User not found.")
  | Some user =>
      let* friend := findOne friendId in
      match friend with
      | None => rejected (NotFoundException "Friend not found.")
      | Some _ =>
          let isFriend := existsb (λ f, f =? friendId) (User.friends user) in
          if isFriend then
            rejected (ConflictException "The specified users are friends.")
          else resolved false
      end
  end.

Definition checkIfFriends (userId friendId : Z) : promise bool :=
  try_catch (checkIfFriends_try userId friendId)
    (λ err,
       if instanceof_NotFoundException err || instanceof_ConflictException err
       then rejected err
       else rejected (InternalServerErrorException
              "Failed to check friendship status. Please try again.")).
End with_repository.
End UserFriendService.

(** ** UserController: [getUser] and [checkIfFriends] *)

(** The file of [UserService] is not available; [getUser] is the one
    method of it the controller code below calls. *)
Class UserService : Type := {
  userService_getUser : Z → promise UserDto
}.

Module UserController.
Definition getUser `{UserService} (now : Z) (id : Z) (cache : Cache UserDto)
    : promise UserDto * Cache UserDto :=
  match CacheManager.get now "getUser" cache with
  | Some cachedUser => (resolved cachedUser, cache)
  | None =>
      match userService_getUser id with
      | resolved user =>
          (resolved user, CacheManager.set now "getUser" user 18000 cache)
      | rejected error => (rejected (RpcException (message error)), cache)
      end
  end.

Definition checkIfFriends (userRepository : Repository)
    (toggleFriendDto : ToggleFriendDto) : promise bool :=
  try_catch
    (UserFriendService.checkIfFriends userRepository
       (userId toggleFriendDto) (friendId toggleFriendDto))
    (λ error, rejected (RpcException (message error))).
End UserController.

(** The item service's TCP client when the user service answers from
    [userRepository], taking the [user_id] and [friend_id] of the message
    for the [userId] and [friendId] the handler reads, although the source
    names them differently on the two sides. *)
Definition userClient_to (userRepository : Repository) : ItemService.userClient :=
  {| ItemService.send_checkIfFriends := λ user_id friend_id,
       UserController.checkIfFriends userRepository
         {| userId := user_id; friendId := friend_id |} |}.

(** ** The exchange lifecycle coordinator

    [apps/exchange/src/exchange.controller.ts] forwards every message to
    [ExchangeService] and [ExchangeUtilsService] and rethrows what they
    throw; the files of both services are missing.  The coordinator below
    is therefore written from the specification (sections 3 to 7), on top of
    the [ItemService] methods embedded above, which play the part of the
    Item Ownership Ledger. *)

Module ExchangeController.
(** What the controller adds to a service call: the [catch] that wraps
    the message of any exception in an [RpcException]. *)
Definition forward {A} (service_call : promise A) : promise A :=
  try_catch service_call (λ error, rejected (RpcException (message error))).
End ExchangeController.

Module Coordinator.

(** Modelled from the spec: the status enumeration of the Exchange State
    Machine (section 4.1); the entity declaring it is missing. *)
Inductive Status : Type :=
| PROPOSED | ITEMS_COMMITTED | BOX_ASSIGNED | AWAITING_PICKUP
| COMPLETED | CANCELLED | EXPIRED.

(** Modelled from the spec: the two roles of section 4.2; the DTO
    declaring them is missing. *)
Inductive Role : Type := creator | pickup.

(** Modelled from the spec: the failure taxonomy of section 7; the
    service raising these failures is missing. *)
Inductive Failure : Type :=
| ItemConflict | NoCapacity | InvalidCode | InvalidRole | StateConflict
| InvalidCancellation | NotFound | DependencyUnavailable.

#[export] Instance Status_eq_dec : EqDecision Status.
Proof. solve_decision. Defined.
#[export] Instance Role_eq_dec : EqDecision Role.
Proof. solve_decision. Defined.
#[export] Instance Failure_eq_dec : EqDecision Failure.
Proof. solve_decision. Defined.

(** Modelled from the spec: the Exchange record of section 3 (the entity
    is missing), with the list of proposed items it references and the
    pickup deadline of section 5, set when a box is assigned. *)
Record Exchange : Type := mkExchange {
  initiator : Z;
  counterpart : Z;
  status : Status;
  box : option Z;
  created : Z;
  status_changed : Z;
  proposal : list Z;
  deadline : option Z
}.

(** Modelled from the spec: the Box Access Code of section 3 (its entity
    is missing), with the role it was issued for (section 4.3). *)
Record BoxAccessCode : Type := mkCode {
  code_exchange : Z;
  code_role : Role;
  code_value : Z;
  issued : Z;
  consumed : bool;
  expiry : Z
}.

(** Modelled from the spec: the Box Assignment of section 3; the box
    entity is missing. *)
Record BoxAssignment : Type := mkBox {
  box_id : Z;
  capacity : Z;
  occupant : option Z
}.

(** Modelled from the spec: what the missing exchange service leaves to
    its surroundings: the time to live of a code, the pickup window that
    fixes the deadline, and the capacity class of a list of item sizes
    (section 9 leaves the bucketing open). *)
Class Policy : Type := {
  code_ttl : Z;
  pickup_window : Z;
  capacity_class : list ItemSizeDto → Z
}.

(** Modelled from the spec: the stores the coordinator works on: the
    exchange records, the ledger (the [item] table), the box registry,
    the issued codes, and the next exchange id. *)
Record World : Type := mkWorld {
  exchanges : gmap Z Exchange;
  ledger : table;
  registry : list BoxAssignment;
  codes : list BoxAccessCode;
  next_exchange_id : Z
}.

(** Modelled from the spec: the stores before any exchange has been
    proposed: no exchange record, no code, ids counted from 1. *)
Definition initial (items : table) (boxes : list BoxAssignment) : World :=
  mkWorld ∅ items boxes [] 1.

(** *** Transactions *)

(** Modelled from the spec: a step of the missing service over the
    stores; it may fail after having written. *)
Definition Tx (A : Type) : Type := World → (Failure + A) * World.

(** Modelled from the spec: the plumbing of a transaction: returning a
    value, failing, sequencing, reading and writing the stores, checking a
    condition, and lifting a result. *)
Definition ret {A} (a : A) : Tx A := λ w, (inr a, w).
Definition fail {A} (f : Failure) : Tx A := λ w, (inl f, w).
Definition bind {A B} (m : Tx A) (k : A → Tx B) : Tx B :=
  λ w, match m w with
       | (inr a, w') => k a w'
       | (inl f, w') => (inl f, w')
       end.
Definition read : Tx World := λ w, (inr w, w).
Definition write (f : World → World) : Tx unit := λ w, (inr tt, f w).
Definition require (b : bool) (f : Failure) : Tx unit :=
  if b then ret tt else fail f.
Definition lift {A} (r : Failure + A) : Tx A := λ w, (r, w).

(** Modelled from the spec: the atomicity boundary of section 4.2: a
    step that fails is rolled back to the stores it started from. *)
Definition atomically {A} (m : Tx A) : Tx A :=
  λ w, match m w with
       | (inr a, w') => (inr a, w')
       | (inl f, _) => (inl f, w)
       end.

Notation "x <~ m ; k" := (bind m (λ x, k))
  (at level 100, m at next level, right associativity, only parsing).
Notation "m ;; k" := (bind m (λ _, k))
  (at level 100, right associativity, only parsing).

(** Modelled from the spec: writes to one store of the [World], the
    record type above having no update syntax of its own. *)
Definition set_exchange (eid : Z) (e : Exchange) (w : World) : World :=
  mkWorld (<[eid := e]> (exchanges w)) (ledger w) (registry w) (codes w)
          (next_exchange_id w).
Definition set_ledger (t : table) (w : World) : World :=
  mkWorld (exchanges w) t (registry w) (codes w) (next_exchange_id w).
Definition set_registry (bs : list BoxAssignment) (w : World) : World :=
  mkWorld (exchanges w) (ledger w) bs (codes w) (next_exchange_id w).
Definition set_codes (cs : list BoxAccessCode) (w : World) : World :=
  mkWorld (exchanges w) (ledger w) (registry w) cs (next_exchange_id w).
Definition bump_next (w : World) : World :=
  mkWorld (exchanges w) (ledger w) (registry w) (codes w)
          (next_exchange_id w + 1).

(** *** Exchange State Machine (section 4.1) *)

(** Modelled from the spec: what fires the transitions of section 4.1. *)
Inductive Event : Type :=
| ItemsConfirmed | BoxReserved | DepositOpened | PickupOpened
| Cancel | DeadlineElapsed.

(** Modelled from the spec: the terminal statuses of section 4.1. *)
Definition terminal (s : Status) : bool :=
  match s with
  | COMPLETED | CANCELLED | EXPIRED => true
  | _ => false
  end.

(** Modelled from the spec: the transition table of section 4.1; the
    service holding it is missing. *)
Definition transition (s : Status) (ev : Event) : Failure + Status :=
  match ev, s with
  | ItemsConfirmed, PROPOSED => inr ITEMS_COMMITTED
  | BoxReserved, ITEMS_COMMITTED => inr BOX_ASSIGNED
  | DepositOpened, BOX_ASSIGNED => inr AWAITING_PICKUP
  | PickupOpened, AWAITING_PICKUP => inr COMPLETED
  | DeadlineElapsed, (BOX_ASSIGNED | AWAITING_PICKUP) => inr EXPIRED
  | Cancel, _ => if terminal s then inl InvalidCancellation else inr CANCELLED
  | _, _ => inl StateConflict
  end.

(** Modelled from the spec: the pickup deadline of section 5: it has
    elapsed for an exchange holding a box once the clock reaches it. *)
Definition overdue (now : Z) (e : Exchange) : bool :=
  match status e, deadline e with
  | (BOX_ASSIGNED | AWAITING_PICKUP), Some d => d <=? now
  | _, _ => false
  end.

(** Modelled from the spec: the lazy expiry check of section 5: the
    status an access at [now] acts on. *)
Definition current (now : Z) (e : Exchange) : Status :=
  if overdue now e then EXPIRED else status e.

(** Modelled from the spec: the writes to an Exchange record: a new status
    with its last-status-change timestamp, an assigned box with the pickup
    deadline, and the release of the box. *)
Definition with_status (s : Status) (now : Z) (e : Exchange) : Exchange :=
  mkExchange (initiator e) (counterpart e) s (box e) (created e) now
             (proposal e) (deadline e).

Definition with_box (b : Z) (d : Z) (e : Exchange) : Exchange :=
  mkExchange (initiator e) (counterpart e) (status e) (Some b) (created e)
             (status_changed e) (proposal e) (Some d).

Definition without_box (e : Exchange) : Exchange :=
  mkExchange (initiator e) (counterpart e) (status e) None (created e)
             (status_changed e) (proposal e) (deadline e).

(** *** Ledger adapter (section 6), over [ItemService] *)

Module Ledger.
(** Modelled from the spec: an item already tagged to another exchange
    (the [ItemConflict] of section 7). *)
Definition tagged_elsewhere (exchangeId : Z) (r : item.row) : bool :=
  match item.exchange_id r with
  | Some e => negb (e =? exchangeId)
  | None => false
  end.

(** Modelled from the spec: [Ledger.tagItems] of section 6: every id
    resolves, no item is tagged to another exchange, and then the
    table is written by [ItemService.addExchangeIdToItem]. *)
Definition tagItems (itemIds : list Z) (exchangeId : Z) : Tx unit :=
  w <~ read ;
  require (forallb (λ i, bool_decide (i ∈ item.id <$> ledger w)) itemIds)
          NotFound ;;
  require (negb (existsb (tagged_elsewhere exchangeId)
                   (filter (λ r, item.id r ∈ itemIds) (ledger w))))
          ItemConflict ;;
  write (set_ledger
           (snd (ItemService.addExchangeIdToItem
                   {| exchange_id := exchangeId; item_ids := itemIds |}
                   (ledger w)))).

(** Modelled from the spec: [Ledger.clearTags] of section 6, by
    [ItemService.deleteExchangeFromItems]. *)
Definition clearTags (exchangeId : Z) (itemIds : list Z) : Tx unit :=
  write (λ w, set_ledger
           (snd (ItemService.deleteExchangeFromItems
                   {| exchange_id := exchangeId; item_ids := itemIds |}
                   (ledger w))) w).

(** Modelled from the spec: the check that none of the items is in an
    exchange, by [ItemService.retrieveItemSizesAndCheckExchange] with the
    exchange check on; its rejection is the [ItemConflict] of section 7. *)
Definition requireUntagged (itemIds : list Z) : Tx unit :=
  w <~ read ;
  match ItemService.retrieveItemSizesAndCheckExchange itemIds false (ledger w) with
  | resolved _ => ret tt
  | rejected _ => fail ItemConflict
  end.

(** Modelled from the spec: the ids of the items tagged to an exchange,
    read by [ItemService.getItemsForOrIdsExchange] with [returnIdsOnly]. *)
Definition itemsOf (exchangeId : Z) : Tx (list Z) :=
  w <~ read ;
  match ItemService.getItemsForOrIdsExchange exchangeId true (ledger w) with
  | resolved (inr ids) => ret ids
  | _ => fail DependencyUnavailable
  end.

(** Modelled from the spec: [Ledger.getItemDimensions] of section 6, by
    [ItemService.retrieveItemSizesAndCheckExchange] without the
    exchange check. *)
Definition getItemDimensions (itemIds : list Z) : Tx (list ItemSizeDto) :=
  w <~ read ;
  match ItemService.retrieveItemSizesAndCheckExchange itemIds true (ledger w) with
  | resolved sizes => ret sizes
  | rejected _ => fail DependencyUnavailable
  end.
End Ledger.

(** *** Box Registry (section 6) *)

Module BoxRegistry.
(** Modelled from the spec: a free box of adequate capacity. *)
Definition fits (capacityClass : Z) (b : BoxAssignment) : bool :=
  match occupant b with
  | None => capacityClass <=? capacity b
  | Some _ => false
  end.

(** Modelled from the spec: [BoxRegistry.reserve]: the first free box
    of adequate capacity becomes occupied by the exchange. *)
Fixpoint reserve_in (capacityClass exchangeId : Z) (bs : list BoxAssignment)
    : option (Z * list BoxAssignment) :=
  match bs with
  | [] => None
  | b :: bs' =>
      if fits capacityClass b then
        Some (box_id b, mkBox (box_id b) (capacity b) (Some exchangeId) :: bs')
      else
        match reserve_in capacityClass exchangeId bs' with
        | Some (i, bs'') => Some (i, b :: bs'')
        | None => None
        end
  end.

(** Modelled from the spec: [BoxRegistry.reserve] as a transaction step,
    failing with [NoCapacity]. *)
Definition reserve (capacityClass exchangeId : Z) : Tx Z :=
  w <~ read ;
  match reserve_in capacityClass exchangeId (registry w) with
  | Some (i, bs) => write (set_registry bs) ;; ret i
  | None => fail NoCapacity
  end.

(** Modelled from the spec: [BoxRegistry.release]. *)
Definition release (boxId : Z) : Tx unit :=
  write (λ w, set_registry
           ((λ b, if box_id b =? boxId
                  then mkBox (box_id b) (capacity b) None else b)
              <$> registry w) w).
End BoxRegistry.

(** *** Code Generator (section 4.3) *)

Module CodeGenerator.
(** Modelled from the spec: a code can be used while it is unconsumed
    and its expiry instant has not been reached. *)
Definition usable (now : Z) (c : BoxAccessCode) : bool :=
  negb (consumed c) && (now <? expiry c).

(** Modelled from the spec: a code scoped to an exchange and carrying the
    value presented. *)
Definition scoped (exchangeId : Z) (code : Z) (c : BoxAccessCode) : bool :=
  (code_exchange c =? exchangeId) && (code_value c =? code).

(** Modelled from the spec: setting the consumed flag of a code. *)
Definition consume (c : BoxAccessCode) : BoxAccessCode :=
  mkCode (code_exchange c) (code_role c) (code_value c) (issued c) true
         (expiry c).

(** Modelled from the spec: [issue] of section 4.3: prior unconsumed
    codes of the same exchange and role are invalidated and the new
    code expires [ttl] after [now].  The unpredictable value comes
    from outside, as [entropy].  [invalidate] is the first half. *)
Definition invalidate (exchangeId : Z) (role : Role)
    (cs : list BoxAccessCode) : list BoxAccessCode :=
  (λ c, if (code_exchange c =? exchangeId) && bool_decide (code_role c = role)
        then consume c else c) <$> cs.

(** Modelled from the spec: [issue] as a transaction step. *)
Definition issue (now : Z) (entropy : Z) (exchangeId : Z) (role : Role)
    (ttl : Z) : Tx BoxAccessCode :=
  let c := mkCode exchangeId role entropy now false (now + ttl) in
  write (λ w, set_codes (c :: invalidate exchangeId role (codes w)) w) ;;
  ret c.

(** Modelled from the spec: [validate] of section 4.3. *)
Definition validate (now : Z) (exchangeId : Z) (code : Z)
    (cs : list BoxAccessCode) : Failure + Role :=
  match List.find (λ c, scoped exchangeId code c && usable now c) cs with
  | Some c => inr (code_role c)
  | None => inl InvalidCode
  end.

(** Modelled from the spec: consuming the code presented. *)
Definition mark_consumed (now : Z) (exchangeId : Z) (code : Z)
    (cs : list BoxAccessCode) : list BoxAccessCode :=
  (λ c, if scoped exchangeId code c && usable now c then consume c else c)
    <$> cs.

(** Modelled from the spec: validation and consumption in one step. *)
Definition redeem (now : Z) (exchangeId : Z) (code : Z) : Tx Role :=
  w <~ read ;
  role <~ lift (validate now exchangeId code (codes w)) ;
  write (set_codes (mark_consumed now exchangeId code (codes w))) ;;
  ret role.
End CodeGenerator.

(** *** Coordinator operations (section 4.2) *)

(** Modelled from the spec: looking an exchange up, [NotFound] for an
    unknown id. *)
Definition find_exchange (exchangeId : Z) : Tx Exchange :=
  w <~ read ;
  match exchanges w !! exchangeId with
  | Some e => ret e
  | None => fail NotFound
  end.

(** Modelled from the spec: the state a role may open the box in, and the
    transition its opening fires (section 4.1). *)
Definition openable (role : Role) (s : Status) : bool :=
  match role, s with
  | creator, BOX_ASSIGNED => true
  | pickup, AWAITING_PICKUP => true
  | _, _ => false
  end.

Definition opening (role : Role) : Event :=
  match role with
  | creator => DepositOpened
  | pickup => PickupOpened
  end.

(** Modelled from the spec: releasing what an exchange holds: the tags of
    its items and its box. *)
Definition release_holdings (exchangeId : Z) (e : Exchange) : Tx unit :=
  ids <~ Ledger.itemsOf exchangeId ;
  Ledger.clearTags exchangeId ids ;;
  match box e with
  | Some b => BoxRegistry.release b
  | None => ret tt
  end.

(** Modelled from the spec: what [changeExchangeStatus] is called with,
    the exchange and the status asked for; the DTO's file is missing. *)
Record ChangeExchangeStatusDto : Type := {
  ce_exchangeId : Z;
  ce_status : Status
}.

Section with_policy.
Context `{Policy}.

(** Modelled from the spec: [proposeExchange]: the item list is not
    empty, the Exchange record is created in [PROPOSED], and the items,
    which must be untagged and resolve, are tagged with the new id.  The
    spec names no failure for an empty item list, [NotFound] is used. *)
Definition proposeExchange_steps (now : Z) (initiator counterpart : Z)
    (itemIds : list Z) : Tx Z :=
  require (negb (bool_decide (itemIds = []))) NotFound ;;
  w <~ read ;
  let exchangeId := next_exchange_id w in
  write (λ w, bump_next
           (set_exchange exchangeId
              (mkExchange initiator counterpart PROPOSED None now now
                          itemIds None) w)) ;;
  Ledger.requireUntagged itemIds ;;
  Ledger.tagItems itemIds exchangeId ;;
  ret exchangeId.

(** Modelled from the spec: the atomicity boundary around the steps of
    [proposeExchange]: if tagging fails, no exchange is created. *)
Definition proposeExchange (now : Z) (initiator counterpart : Z)
    (itemIds : list Z) : Tx Z :=
  atomically (proposeExchange_steps now initiator counterpart itemIds).

(** Modelled from the spec: the transition [PROPOSED] to
    [ITEMS_COMMITTED]: no proposed item is tagged to another exchange. *)
Definition commit_items (now : Z) (exchangeId : Z) (e : Exchange)
    : Tx Exchange :=
  s <~ lift (transition (current now e) ItemsConfirmed) ;
  w <~ read ;
  require (negb (existsb (Ledger.tagged_elsewhere exchangeId)
                   (filter (λ r, item.id r ∈ proposal e) (ledger w))))
          ItemConflict ;;
  let e' := with_status s now e in
  write (set_exchange exchangeId e') ;;
  ret e'.

(** Modelled from the spec: the transition [PROPOSED] to [ITEMS_COMMITTED]
    as a call of its own. *)
Definition confirmItems (now : Z) (exchangeId : Z) : Tx unit :=
  atomically (
    e <~ find_exchange exchangeId ;
    commit_items now exchangeId e ;;
    ret tt).

(** Modelled from the spec: [assignBox]; an exchange still [PROPOSED]
    has its items committed first, in the same transaction. *)
Definition assignBox (now : Z) (exchangeId : Z) : Tx Z :=
  atomically (
    e <~ find_exchange exchangeId ;
    e <~ (if bool_decide (current now e = PROPOSED)
          then commit_items now exchangeId e else ret e) ;
    s <~ lift (transition (current now e) BoxReserved) ;
    sizes <~ Ledger.getItemDimensions (proposal e) ;
    b <~ BoxRegistry.reserve (capacity_class sizes) exchangeId ;
    write (set_exchange exchangeId
             (with_box b (now + pickup_window) (with_status s now e))) ;;
    ret b).

(** Modelled from the spec: [requestBoxOpen]. *)
Definition requestBoxOpen (now : Z) (entropy : Z) (exchangeId : Z)
    (role : Role) : Tx BoxAccessCode :=
  atomically (
    e <~ find_exchange exchangeId ;
    require (openable role (current now e)) InvalidRole ;;
    CodeGenerator.issue now entropy exchangeId role code_ttl).

(** Modelled from the spec: [consumeBoxOpen]: the code is validated and
    consumed, then the state machine advances by the code's role. *)
Definition consumeBoxOpen (now : Z) (exchangeId : Z) (code : Z)
    : Tx Status :=
  atomically (
    e <~ find_exchange exchangeId ;
    role <~ CodeGenerator.redeem now exchangeId code ;
    s <~ lift (transition (current now e) (opening role)) ;
    match role with
    | creator =>
        write (set_exchange exchangeId (with_status s now e))
    | pickup =>
        release_holdings exchangeId e ;;
        write (set_exchange exchangeId (without_box (with_status s now e)))
    end ;;
    ret s).

(** Modelled from the spec: [cancelExchange]. *)
Definition cancelExchange (now : Z) (exchangeId : Z) : Tx unit :=
  atomically (
    e <~ find_exchange exchangeId ;
    s <~ lift (transition (current now e) Cancel) ;
    release_holdings exchangeId e ;;
    write (set_exchange exchangeId (without_box (with_status s now e)))).

(** Modelled from the spec: the transition to [EXPIRED], fired by the
    background sweep once the deadline has elapsed. *)
Definition expireExchange (now : Z) (exchangeId : Z) : Tx unit :=
  atomically (
    e <~ find_exchange exchangeId ;
    require (overdue now e) StateConflict ;;
    s <~ lift (transition (status e) DeadlineElapsed) ;
    release_holdings exchangeId e ;;
    write (set_exchange exchangeId (without_box (with_status s now e)))).

(** Modelled from the spec: [changeExchangeStatus], the operation behind
    the controller's handler of that name; the service is missing.  By
    section 3 an Exchange is mutated only through the transitions of the
    state machine, so the request fires the transition of section 4.1
    that leads to the status asked for, with the conditions and the side
    effects of that transition: [confirmItems] for [ITEMS_COMMITTED],
    [assignBox] for [BOX_ASSIGNED], [cancelExchange] for [CANCELLED],
    [expireExchange] for [EXPIRED].  [AWAITING_PICKUP] and [COMPLETED] are
    reached by a box opening with a code only ([consumeBoxOpen]) and no
    transition leads to [PROPOSED]: asking for one of them fails with
    [StateConflict]. *)
Definition changeExchangeStatus (now : Z)
    (changeExchangeStatus : ChangeExchangeStatusDto) : Tx unit :=
  let exchangeId := ce_exchangeId changeExchangeStatus in
  atomically (
    match ce_status changeExchangeStatus with
    | ITEMS_COMMITTED => confirmItems now exchangeId
    | BOX_ASSIGNED => assignBox now exchangeId ;; ret tt
    | CANCELLED => cancelExchange now exchangeId
    | EXPIRED => expireExchange now exchangeId
    | PROPOSED | AWAITING_PICKUP | COMPLETED =>
        find_exchange exchangeId ;; fail StateConflict
    end).

(** Modelled from the spec: [getStatus]: the current status, the box
    and the expiry of the usable code, read without writing. *)
Definition getStatus (now : Z) (exchangeId : Z) (w : World)
    : Failure + (Status * option Z * option Z) :=
  match exchanges w !! exchangeId with
  | Some e =>
      inr (current now e, box e,
           expiry <$> List.find
             (λ c, (code_exchange c =? exchangeId)
                   && CodeGenerator.usable now c) (codes w))
  | None => inl NotFound
  end.

(** Modelled from the spec: the calls a client or the background sweep can
    make on the missing service.  Of the handlers of
    [exchange.controller.ts], [createExchange] asks for [ProposeExchange],
    [getCodeForExchnageBox] for [RequestBoxOpen], the two
    [openBoxViaExchnage] handlers for [ConsumeBoxOpen], and
    [changeExchangeStatus] for [ChangeExchangeStatus]. *)
Inductive Call : Type :=
| ProposeExchange (initiator counterpart : Z) (itemIds : list Z)
| ConfirmItems (exchangeId : Z)
| AssignBox (exchangeId : Z)
| RequestBoxOpen (entropy : Z) (exchangeId : Z) (role : Role)
| ConsumeBoxOpen (exchangeId : Z) (code : Z)
| CancelExchange (exchangeId : Z)
| GetStatus (exchangeId : Z)
| ExpireExchange (exchangeId : Z)
| ChangeExchangeStatus (changeExchangeStatusDto : ChangeExchangeStatusDto).

(** Modelled from the spec: what a caller sees of a call: the failure, if
    any. *)
Definition outcome {A} (r : (Failure + A) * World) : option Failure * World :=
  (match fst r with inl f => Some f | inr _ => None end, snd r).

(** Modelled from the spec: one call at time [now]: the failure if any, and
    the stores afterwards. *)
Definition handle (now : Z) (c : Call) (w : World) : option Failure * World :=
  match c with
  | ProposeExchange i cp ids => outcome (proposeExchange now i cp ids w)
  | ConfirmItems eid => outcome (confirmItems now eid w)
  | AssignBox eid => outcome (assignBox now eid w)
  | RequestBoxOpen en eid role => outcome (requestBoxOpen now en eid role w)
  | ConsumeBoxOpen eid code => outcome (consumeBoxOpen now eid code w)
  | CancelExchange eid => outcome (cancelExchange now eid w)
  | GetStatus eid => outcome (getStatus now eid w, w)
  | ExpireExchange eid => outcome (expireExchange now eid w)
  | ChangeExchangeStatus dto => outcome (changeExchangeStatus now dto w)
  end.

(** Modelled from the spec: a sequence of timed calls. *)
Fixpoint run (trace : list (Z * Call)) (w : World) : World :=
  match trace with
  | [] => w
  | (now, c) :: trace' => run trace' (snd (handle now c w))
  end.

(** Modelled from the spec: the stores that calls can produce from initial
    ones. *)
Inductive reachable : World → Prop :=
| reachable_initial items boxes : reachable (initial items boxes)
| reachable_handle now c w :
    reachable w → reachable (snd (handle now c w)).


(** Modelled from the spec: the unconsumed, unexpired codes of an exchange
    at [now] (section 3). *)
Definition live_codes (now : Z) (exchangeId : Z) (w : World)
    : list BoxAccessCode :=
  List.filter (λ c, (code_exchange c =? exchangeId)
                    && CodeGenerator.usable now c) (codes w).
End with_policy.

(** *** Operations in general (section 3, Lifecycle) *)





Section operations.
Context `{Policy}.

End operations.
End Coordinator.


(** ** How a call changes the exchange records and the codes *)

Module Effects.
Import Coordinator.

(** The exchange records, the codes and the id counter are the same. *)
Definition same_records (w w' : World) : Prop :=
  exchanges w' = exchanges w ∧ codes w' = codes w ∧
  next_exchange_id w' = next_exchange_id w.

(** The status changes a call other than a box opening can make to the
    record [e] at time [now]. *)
Inductive moved (now : Z) (e e' : Exchange) : Prop :=
| moved_commit :
    current now e = PROPOSED → status e' = ITEMS_COMMITTED → moved now e e'
| moved_assign :
    current now e = PROPOSED ∨ current now e = ITEMS_COMMITTED →
    status e' = BOX_ASSIGNED → moved now e e'
| moved_cancel :
    terminal (current now e) = false → status e' = CANCELLED → moved now e e'
| moved_expire :
    overdue now e = true → status e' = EXPIRED → moved now e e'.

(** What a call at time [now] can do to the records and the codes. *)
Inductive effect (now : Z) (w w' : World) : Prop :=
| effect_none :
    same_records w w' → effect now w w'
| effect_new e :
    exchanges w' = <[next_exchange_id w := e]> (exchanges w) →
    codes w' = codes w →
    next_exchange_id w' = next_exchange_id w + 1 →
    effect now w w'
| effect_move eid e e' :
    exchanges w !! eid = Some e →
    exchanges w' = <[eid := e']> (exchanges w) →
    codes w' = codes w →
    next_exchange_id w' = next_exchange_id w →
    moved now e e' →
    effect now w w'
| effect_issue eid e role c :
    exchanges w !! eid = Some e →
    openable role (current now e) = true →
    code_exchange c = eid → code_role c = role →
    exchanges w' = exchanges w →
    codes w' = c :: CodeGenerator.invalidate eid role (codes w) →
    next_exchange_id w' = next_exchange_id w →
    effect now w w'
| effect_open eid e e' code role :
    exchanges w !! eid = Some e →
    CodeGenerator.validate now eid code (codes w) = inr role →
    transition (current now e) (opening role) = inr (status e') →
    exchanges w' = <[eid := e']> (exchanges w) →
    codes w' = CodeGenerator.mark_consumed now eid code (codes w) →
    next_exchange_id w' = next_exchange_id w →
    effect now w w'.

(** The statuses in which an unconsumed code of a role can be left
    behind. *)
Definition role_state (role : Role) (s : Status) : bool :=
  match role, s with
  | creator, (BOX_ASSIGNED | CANCELLED | EXPIRED) => true
  | pickup, (AWAITING_PICKUP | CANCELLED | EXPIRED) => true
  | _, _ => false
  end.

Definition unconsumed_for (eid : Z) (c : BoxAccessCode) : bool :=
  (code_exchange c =? eid) && negb (consumed c).

(** The invariant of the stores: an exchange has at most one unconsumed
    code, an unconsumed code belongs to a recorded exchange in a status
    that fits its role, and recorded ids lie below the id counter. *)
Record consistent (w : World) : Prop := {
  one_unconsumed :
    ∀ eid, (length (List.filter (unconsumed_for eid) (codes w)) ≤ 1)%nat;
  unconsumed_fits :
    ∀ c, c ∈ codes w → consumed c = false →
         ∃ e, exchanges w !! code_exchange c = Some e ∧
              role_state (code_role c) (status e) = true;
  ids_below_next :
    ∀ eid e, exchanges w !! eid = Some e → eid < next_exchange_id w
}.

End Effects.

(** ** Statements in the words of the specification *)


(** ** Sample data for the worked examples *)

Module Examples.
Import Coordinator.

(** Items 1 and 2 are free; item 3 is tagged to exchange 9. *)
Definition sample_items : table :=
  [item.Row 1 0 10 20 30 20 10 "tent" 2500 None;
   item.Row 2 0 10 20 15 10 5 "lamp" 300 None;
   item.Row 3 0 10 20 25 8 8 "drill" 900 (Some 9)].

Definition sample_boxes : list BoxAssignment :=
  [mkBox 100 1 None; mkBox 101 50 None].

(** Codes live for 60 time units, a pickup must happen within 1000, and
    the capacity class of a bundle is its number of items. *)
Definition sample_policy : Policy :=
  {| code_ttl := 60; pickup_window := 1000;
     capacity_class := λ sizes, Z.of_nat (length sizes) |}.

Definition sample_world : World := initial sample_items sample_boxes.

(** Scenario A of the specification up to the creator's code. *)
Definition deposit_requested : list (Z * Call) :=
  [(0, ProposeExchange 10 20 [1; 2]);
   (1, AssignBox 1);
   (2, RequestBoxOpen 777 1 creator)].

(** A user service over two stored users. *)
Definition two_users : UserService :=
  {| userService_getUser := λ id,
       if id =? 1 then
         resolved (new_UserDto "Ann" "ann@example.org" 1 "1" "A St" "a.png")
       else if id =? 2 then
         resolved (new_UserDto "Bob" "bob@example.org" 2 "2" "B St" "b.png")
       else rejected (NotFoundException "User not found.") |}.

(** Users 1 and 2 are friends of each other. *)
Definition two_friends : Repository :=
  memory_repository
    [User.Entity 1 "Ann" "ann@example.org" "1" "A St" "a.png" [2];
     User.Entity 2 "Bob" "bob@example.org" "2" "B St" "b.png" [1]].
End Examples.


(** ** Further handlers of the first ItemController *)

Module ItemControllerMore.
(** [getAllItems], cached under the key ['allItems'] for 18000 ms. *)
Definition getAllItems (now : Z) (cache : Cache (list ItemDto)) (t : table)
    : promise (list ItemDto) * Cache (list ItemDto) :=
  let cacheKey := "allItems" in
  match CacheManager.get now cacheKey cache with
  | Some cachedItems => (resolved cachedItems, cache)
  | None =>
      match ItemService.getAllItems t with
      | resolved items =>
          (resolved items, CacheManager.set now cacheKey items 18000 cache)
      | rejected error => (rejected (RpcException (message error)), cache)
      end
  end.
End ItemControllerMore.

(** ** The user and friend-request tables behind TypeORM

    The repositories of [UserFriendService], over rows held in memory, in
    storage order.  [findOne] is the lookup of [memory_repository]. *)

Module FriendRequest.
Record entity : Type := Entity {
  id : Z;
  friendId : Z;
  userId : Z;
  accepted : option bool;
  friendImageUrl : string;
  userName : string;
  friendName : string;
  createdAt : Z;
  expirationDate : Z
}.

(** [friendRequest.accepted = b] *)
Definition set_accepted (b : bool) (r : entity) : entity :=
  Entity (id r) (friendId r) (userId r) (Some b) (friendImageUrl r)
         (userName r) (friendName r) (createdAt r) (expirationDate r).
End FriendRequest.

Module UserTable.
(** [findOne({ where: { id } })] *)
Definition findOne (id : Z) (users : list User.entity) : option User.entity :=
  List.find (λ u, User.id u =? id) users.

(** [findByIds(ids)] on a table, the ids being JavaScript values: a
    number, or [undefined] ([None]), which is the id of no row. *)
Definition findByIds (ids : list (option Z)) (users : list User.entity)
    : list User.entity :=
  filter (λ u, Some (User.id u) ∈ ids) users.

(** [save(u)]: the row with the entity's id is replaced, a new entity is
    added. *)
Definition save (u : User.entity) (users : list User.entity)
    : list User.entity :=
  if existsb (λ x, User.id x =? User.id u) users
  then (λ x, if User.id x =? User.id u then u else x) <$> users
  else users ++ [u].

(** [user.friends = fs] *)
Definition set_friends (fs : list Z) (u : User.entity) : User.entity :=
  User.Entity (User.id u) (User.name u) (User.email u) (User.telephone u)
              (User.address u) (User.imageUrl u) fs.

(** The entities that [relations: ['friends']] loads for a user. *)
Definition loaded_friends (users : list User.entity) (u : User.entity)
    : list User.entity :=
  omap (λ i, findOne i users) (User.friends u).

(** [manager.transaction(async (entityManager) => body)]: the writes of a
    body that rejects are rolled back. *)
Definition transaction {S A} (body : S → promise A * S) (s : S)
    : promise A * S :=
  match body s with
  | (resolved a, s') => (resolved a, s')
  | (rejected e, _) => (rejected e, s)
  end.
End UserTable.

(** [new UserDto(u.name, u.email, u.id, u.telephone, u.address,
    u.imageUrl)] *)
Definition UserDto_of (u : User.entity) : UserDto :=
  new_UserDto (User.name u) (User.email u) (User.id u) (User.telephone u)
              (User.address u) (User.imageUrl u).

(** ** JavaScript array, string and object helpers *)

(** The object a message carries: its numeric properties by name.  A
    property the object lacks reads as [undefined], here [None]. *)
Abbreviation payload := (gmap string Z).

(** [x === id] for a number [x] and an [id] that may be [undefined]. *)
Definition strict_equals (x : Z) (id : option Z) : bool :=
  match id with
  | Some v => x =? v
  | None => false
  end.

(** The user repository as far as [getUserWithFriend] uses it.  What
    [findByIds] answers when an id is [undefined] depends on the driver (a
    list without such a row, or an error), so the method is a parameter;
    [table_repository] is the repository over a table held in memory. *)
Class UserRepository : Type := {
  repository_findByIds : list (option Z) → promise (list User.entity)
}.

Definition table_repository (users : list User.entity) : UserRepository :=
  {| repository_findByIds := λ ids, resolved (UserTable.findByIds ids users) |}.

(** [l.slice(start, end)], negative indices counting from the end. *)
Definition slice {A} (start finish : Z) (l : list A) : list A :=
  let len := Z.of_nat (length l) in
  let k := if start <? 0 then Z.max (len + start) 0 else Z.min start len in
  let final :=
    if finish <? 0 then Z.max (len + finish) 0 else Z.min finish len in
  take (Z.to_nat (final - k)) (drop (Z.to_nat k) l).

(** [s.includes(sub)] *)
Definition includes (s sub : string) : bool :=
  match String.index 0 sub s with
  | Some _ => true
  | None => false
  end.

(** The pagination query of the friend handlers.  [page] and [limit] hold
    what [parseInt(query.page, 10)] and [parseInt(query.limit, 10)]
    evaluate to, [None] standing for [NaN]; [search] is [query.search]. *)
Record Query : Type := {
  page : option Z;
  limit : option Z;
  search : option string
}.

(** [n || d] for a parsed number: [NaN] and [0] give the default. *)
Definition or_default (n : option Z) (d : Z) : Z :=
  match n with
  | Some v => if v =? 0 then d else v
  | None => d
  end.

(** [query.search && query.search.length > 0] *)
Definition searching (query : Query) : option string :=
  match search query with
  | Some s => if (String.length s =? 0)%nat then None else Some s
  | None => None
  end.

(** ** UserFriendService over the tables *)

Module UserFriendStore.
(** [err instanceof NotFoundException ? throw err : throw new
    InternalServerErrorException(text)] *)
Definition only_NotFound {A} (text : string) (err : exn) : promise A :=
  if instanceof_NotFoundException err then rejected err
  else rejected (InternalServerErrorException text).

(** [find({ where: { id: Not(id) }, skip, take })]; the database refuses a
    negative [skip] or [take]. *)
Definition find_others (id skip take_ : Z) (users : list User.entity)
    : promise (list User.entity) :=
  if (skip <? 0) || (take_ <? 0) then
    rejected (Error "OFFSET and LIMIT must not be negative")
  else
    resolved (take (Z.to_nat take_)
                (drop (Z.to_nat skip) (filter (λ u, User.id u ≠ id) users))).

(** The [query.search] filter on names. *)
Definition searched (query : Query) (us : list User.entity)
    : list User.entity :=
  match searching query with
  | Some s => filter (λ u, includes (User.name u) s = true) us
  | None => us
  end.

(** The body of [getFriendsOrNonFriends]'s [try] block. *)
Definition getFriendsOrNonFriends_try (id : Z) (isFriends : bool)
    (query : Query) (users : list User.entity)
    (requests : list FriendRequest.entity) : promise (list UserDto) :=
  match UserTable.findOne id users with
  | None => rejected (NotFoundException "User not found")
  | Some user =>
      let friends := UserTable.loaded_friends users user in
      let page := or_default (page query) 1 in
      let limit := or_default (limit query) 10 in
      if negb isFriends then
        let* allUsers := find_others id page limit users in
        let friendRequestIds :=
          (λ request, if FriendRequest.friendId request =? id
                      then FriendRequest.userId request
                      else FriendRequest.friendId request) <$> requests in
        let friendIds := User.id <$> friends in
        let nonFriendUsers :=
          filter (λ u, (User.id u ∉ friendIds) ∧
                       (User.id u ∉ friendRequestIds)) allUsers in
        resolved (UserDto_of <$> searched query nonFriendUsers)
      else
        let totalFriends := Z.of_nat (length friends) in
        let startIndex := (page - 1) * limit in
        if totalFriends <=? startIndex then resolved []
        else
          resolved (UserDto_of <$>
                      slice startIndex (startIndex + limit)
                        (searched query friends))
  end.

Definition getFriendsOrNonFriends (id : Z) (isFriends : bool)
    (query : Query) (users : list User.entity)
    (requests : list FriendRequest.entity) : promise (list UserDto) :=
  try_catch (getFriendsOrNonFriends_try id isFriends query users requests)
    (only_NotFound "Error retrieving users").

(** The body of [addFriend]'s [try] block. *)
Definition addFriend_try (toggleFriendDto : ToggleFriendDto)
    (users : list User.entity) : promise unit * list User.entity :=
  match UserTable.findOne (userId toggleFriendDto) users,
        UserTable.findOne (friendId toggleFriendDto) users with
  | Some user, Some friend =>
      if existsb (λ f, f =? User.id friend) (User.friends user) then
        (rejected (ConflictException "Friendship already exists."), users)
      else
        let user' :=
          UserTable.set_friends (User.friends user ++ [User.id friend]) user in
        let friend' :=
          UserTable.set_friends (User.friends friend ++ [User.id user]) friend in
        (resolved tt, UserTable.save friend' (UserTable.save user' users))
  | _, _ => (rejected (NotFoundException "User or friend not found."), users)
  end.

Definition addFriend (toggleFriendDto : ToggleFriendDto)
    (users : list User.entity) : promise unit * list User.entity :=
  let '(p, users') := addFriend_try toggleFriendDto users in
  (try_catch p
     (λ err,
        if instanceof_NotFoundException err || instanceof_ConflictException err
        then rejected err
        else rejected (InternalServerErrorException
               "Unable to add friend. Please try again.")),
   users').

(** The callback of [removeFriend]'s transaction. *)
Definition removeFriend_body (userId friendId : Z)
    (users : list User.entity) : promise unit * list User.entity :=
  match UserTable.findOne userId users with
  | None => (rejected (NotFoundException "User not found."), users)
  | Some user =>
      let initialFriendCount := length (User.friends user) in
      let friends' :=
        List.filter (λ friend, negb (friend =? friendId)) (User.friends user) in
      if (initialFriendCount =? length friends')%nat then
        (rejected (NotFoundException
           "Friend not found in user's friends list."), users)
      else
        let users1 := UserTable.save (UserTable.set_friends friends' user) users in
        match UserTable.findOne friendId users1 with
        | None => (rejected (NotFoundException "Friend user not found."), users1)
        | Some friend =>
            (resolved tt,
             UserTable.save
               (UserTable.set_friends
                  (List.filter (λ friend, negb (friend =? userId))
                     (User.friends friend)) friend) users1)
        end
  end.

Definition removeFriend (userId friendId : Z) (users : list User.entity)
    : promise unit * list User.entity :=
  let '(p, users') :=
    UserTable.transaction (removeFriend_body userId friendId) users in
  (try_catch p (only_NotFound "Failed to remove friend. Please try again."),
   users').

(** [checkIfFriends], answered from the table. *)
Definition checkIfFriends (userId friendId : Z) (users : list User.entity)
    : promise bool :=
  UserFriendService.checkIfFriends (memory_repository users) userId friendId.

(** [getUserWithFriend]; the two ids are what the caller read from the
    message, numbers or [undefined]. *)
Definition getUserWithFriend `{UserRepository} (userId friendId : option Z)
    : promise (User.entity * User.entity) :=
  try_catch
    (let* users := repository_findByIds [userId; friendId] in
     match List.find (λ user, strict_equals (User.id user) userId) users,
           List.find (λ user, strict_equals (User.id user) friendId) users with
     | Some userEntity, Some friendEntity =>
         resolved (userEntity, friendEntity)
     | _, _ => rejected (NotFoundException "One or both users not found")
     end)
    (only_NotFound "Failed to retrieve users. Please try again.").
End UserFriendStore.

(** ** Further handlers of UserController *)

Module UserControllerMore.
(** [getFriends]: the first service call is awaited outside the [try]
    block, the second is returned from inside it without [await], so
    neither rejection is wrapped. *)
Definition getFriends (now id : Z) (query : Query)
    (cache : Cache (list UserDto)) (users : list User.entity)
    (requests : list FriendRequest.entity)
    : promise (list UserDto) * Cache (list UserDto) :=
  let cacheKey := template "getFriends:" id in
  match CacheManager.get now cacheKey cache with
  | Some cachedFriends => (resolved cachedFriends, cache)
  | None =>
      match UserFriendStore.getFriendsOrNonFriends id true query users
              requests with
      | rejected e => (rejected e, cache)
      | resolved userFriends =>
          (UserFriendStore.getFriendsOrNonFriends id true query users requests,
           CacheManager.set now cacheKey userFriends 18000 cache)
      end
  end.

Definition getNewFriends (now id : Z) (query : Query)
    (cache : Cache (list UserDto)) (users : list User.entity)
    (requests : list FriendRequest.entity)
    : promise (list UserDto) * Cache (list UserDto) :=
  let cacheKey := template "getNewFriends:" id in
  match CacheManager.get now cacheKey cache with
  | Some cachedFriends => (resolved cachedFriends, cache)
  | None =>
      match UserFriendStore.getFriendsOrNonFriends id false query users
              requests with
      | rejected e => (rejected e, cache)
      | resolved userFriends =>
          (UserFriendStore.getFriendsOrNonFriends id false query users requests,
           CacheManager.set now cacheKey userFriends 18000 cache)
      end
  end.

Definition removeFriend (toggleFriendDto : ToggleFriendDto)
    (cache : Cache (list UserDto)) (users : list User.entity)
    : promise unit * Cache (list UserDto) * list User.entity :=
  let cacheKey := template "getFriends:" (userId toggleFriendDto) in
  let cache' := CacheManager.del cacheKey cache in
  let '(p, users') :=
    UserFriendStore.removeFriend (userId toggleFriendDto)
      (friendId toggleFriendDto) users in
  (try_catch p (λ error, rejected (RpcException (message error))),
   cache', users').

(** [getUserWithFriend]: the handler has no validation pipe and reads
    [toggleFriendDto.userId] and [toggleFriendDto.friendId] off the object
    the message carries. *)
Definition getUserWithFriend `{UserRepository} (toggleFriendDto : payload)
    : promise (User.entity * User.entity) :=
  try_catch
    (UserFriendStore.getUserWithFriend (toggleFriendDto !! "userId")
       (toggleFriendDto !! "friendId"))
    (λ error, rejected (RpcException (message error))).
End UserControllerMore.

(** ** ItemService.getItem *)

(** [new ItemWithUsersDto(itemDto, response.user, response.friend)] *)
Inductive ItemWithUsersDto : Type :=
  new_ItemWithUsersDto (item : ItemDto) (user friend : User.entity).

Module ItemServiceMore.
(** The TCP client to the user service, as far as [getItem] uses it: the
    reply to the [getUserWithFriend] message carrying a given object. *)
Record userClient : Type := {
  send_getUserWithFriend : payload → promise (User.entity * User.entity)
}.

(** [{ user_id: itemDto.user_id, friend_id: itemDto.friend_id }] *)
Definition getUserWithFriend_message (data : item.row) : payload :=
  {[ "user_id" := item.user_id data; "friend_id" := item.friend_id data ]}.

(** The body of [getItem]'s [try] block. *)
Definition getItem_try (client : userClient) (item_id : Z) (t : table)
    : promise ItemWithUsersDto :=
  match supabase.select_eq_id_single item_id t with
  | supabase.Failure error =>
      rejected (Error ("Error fetching item: " +:+ message error))
  | supabase.Data data =>
      let itemDto := new_ItemDto data in
      let* response :=
        send_getUserWithFriend client (getUserWithFriend_message data) in
      resolved (new_ItemWithUsersDto itemDto (fst response) (snd response))
  end.

Definition getItem (client : userClient) (item_id : Z) (t : table)
    : promise ItemWithUsersDto :=
  try_catch (getItem_try client item_id t)
    (λ _, rejected (Error "Error processing item retrieval")).

(** The client when the message is answered by the user service's own
    handler: the object sent is the object the handler reads. *)
Definition userClient_to `{UserRepository} : userClient :=
  {| send_getUserWithFriend := λ message,
       UserControllerMore.getUserWithFriend message |}.
End ItemServiceMore.

(** ** Friend requests *)

(** What [sendNotification] (from [user.helper], whose file is not
    available) is called with; the calls are kept in the order made. *)
Record NotificationPayload : Type := {
  np_userId : Z;
  np_nameOfTheService : string;
  np_text : string;
  np_initials : string
}.

Module FriendRequests.
(** The user table, the friend-request table and the notifications sent. *)
Record Store : Type := mkStore {
  users : list User.entity;
  requests : list FriendRequest.entity;
  sent : list NotificationPayload
}.

(** [entityManager.findOne(FriendRequest, { where: { friendId, userId } })] *)
Definition findOne (friendId userId : Z)
    (requests : list FriendRequest.entity) : option FriendRequest.entity :=
  List.find (λ r, (FriendRequest.friendId r =? friendId)
                  && (FriendRequest.userId r =? userId)) requests.

(** The key the database gives a new friend request. *)
Definition next_id (requests : list FriendRequest.entity) : Z :=
  1 + foldr Z.max 0 (FriendRequest.id <$> requests).

(** [entityManager.save(friendRequest)] for a stored request. *)
Definition save (r : FriendRequest.entity)
    (requests : list FriendRequest.entity) : list FriendRequest.entity :=
  (λ x, if FriendRequest.id x =? FriendRequest.id r then r else x)
    <$> requests.

(** The callback of [createFriendRequest]'s transaction.  [createdAt] and
    [expirationDate] are the two dates the callback computes from the
    clock: the time of the call and the day seven days later. *)
Definition createFriendRequest_body (createdAt expirationDate : Z)
    (toggleFriendDto : ToggleFriendDto) (s : Store) : promise unit * Store :=
  match UserFriendStore.checkIfFriends (userId toggleFriendDto)
          (friendId toggleFriendDto) (users s) with
  | rejected e => (rejected e, s)
  | resolved areTheyFriends =>
      if areTheyFriends then
        (rejected (Error "You are already friends."), s)
      else
        match findOne (userId toggleFriendDto) (friendId toggleFriendDto)
                (requests s) with
        | Some friendRequestExists =>
            (rejected (Error "Friend request already sent."), s)
        | None =>
            match UserTable.findOne (friendId toggleFriendDto) (users s),
                  UserTable.findOne (userId toggleFriendDto) (users s) with
            | Some friend, Some user =>
                let newFriendRequest :=
                  FriendRequest.Entity (next_id (requests s))
                    (userId toggleFriendDto) (friendId toggleFriendDto)
                    (Some false) (User.imageUrl friend) (User.name user)
                    (User.name friend) createdAt expirationDate in
                (resolved tt,
                 mkStore (users s) (requests s ++ [newFriendRequest])
                   (sent s ++
                    [ {| np_userId := User.id friend;
                         np_nameOfTheService := "user-service";
                         np_text := "You sent friend request to "
                                    +:+ User.name user;
                         np_initials := "FR" |};
                      {| np_userId := User.id user;
                         np_nameOfTheService := "user-service";
                         np_text := "You Recieved friend request to "
                                    +:+ User.name friend;
                         np_initials := "FR" |} ]))
            | _, _ =>
                (rejected (Error "Cannot read properties of null"), s)
            end
        end
  end.

Definition createFriendRequest (createdAt expirationDate : Z)
    (toggleFriendDto : ToggleFriendDto) (s : Store) : promise unit * Store :=
  let '(p, s') :=
    UserTable.transaction
      (createFriendRequest_body createdAt expirationDate toggleFriendDto) s in
  (try_catch p
     (λ error, rejected (Error ("Error while creating a friend request: "
                                +:+ message error))),
   s').

(** The callback of [accepOrDenytFriendRequest]'s transaction.
    [addFriend] writes through the user repository, not through the
    transaction's entity manager. *)
Definition accepOrDenytFriendRequest_body (toggleFriendDto : ToggleFriendDto)
    (isAcepted : bool) (s : Store) : promise FriendRequest.entity * Store :=
  match findOne (friendId toggleFriendDto) (userId toggleFriendDto)
          (requests s) with
  | None => (rejected (Error "Friend request not found."), s)
  | Some friendRequest =>
      let friendRequest' := FriendRequest.set_accepted isAcepted friendRequest in
      if isAcepted then
        match UserFriendStore.addFriend toggleFriendDto (users s) with
        | (rejected e, users') =>
            (rejected e, mkStore users' (requests s) (sent s))
        | (resolved _, users') =>
            (resolved friendRequest',
             mkStore users' (save friendRequest' (requests s))
               (sent s ++
                [ {| np_userId := FriendRequest.friendId friendRequest;
                     np_nameOfTheService := "user-service";
                     np_text := FriendRequest.userName friendRequest
                                +:+ " Acepted your friend request";
                     np_initials := "FR" |} ]))
        end
      else
        (resolved friendRequest',
         mkStore (users s) (save friendRequest' (requests s)) (sent s))
  end.

Definition accepOrDenytFriendRequest (toggleFriendDto : ToggleFriendDto)
    (isAcepted : bool) (s : Store) : promise FriendRequest.entity * Store :=
  let '(p, s') :=
    match accepOrDenytFriendRequest_body toggleFriendDto isAcepted s with
    | (resolved r, s') => (resolved r, s')
    | (rejected e, s') => (rejected e, mkStore (users s') (requests s) (sent s'))
    end in
  (try_catch p
     (λ error, rejected (Error ("Error while accepting a friend request: "
                                +:+ message error))),
   s').
End FriendRequests.

(** ** NotificationsService over the notification table

    [getNotification] and [deleteNotification]; the rows are held in
    memory, in storage order. *)

Module Notification.
(** A [Notification] entity as the repository returns it.  [user] is
    [notification.user.id]; the entity's file is not available, so the
    relation may or may not be loaded with the row: [None] stands for an
    undefined [notification.user]. *)
Record entity : Type := Entity {
  id : Z;
  createdAt : Z;
  user : option Z;
  text : string;
  seen : bool
}.
End Notification.

Inductive NotificationDto : Type :=
  new_NotificationDto (id createdAt userId : Z) (text : string).

Module NotificationsService.
(** The body of [getNotification]'s [try] block; reading [.id] of an
    undefined [notification.user] throws a [TypeError]. *)
Definition getNotification_try (id : Z) (table : list Notification.entity)
    : promise NotificationDto :=
  match List.find (λ n, Notification.id n =? id) table with
  | None => rejected (Error "Notification not found")
  | Some notification =>
      match Notification.user notification with
      | Some user_id =>
          resolved (new_NotificationDto (Notification.id notification)
                      (Notification.createdAt notification) user_id
                      (Notification.text notification))
      | None =>
          rejected (Error "Cannot read properties of undefined (reading 'id')")
      end
  end.

Definition getNotification (id : Z) (table : list Notification.entity)
    : promise NotificationDto :=
  try_catch (getNotification_try id table)
    (λ _, rejected (Error "Failed to fetch notification")).

(** The body of [deleteNotification]'s [try] block; [result.affected] is
    the number of rows deleted. *)
Definition deleteNotification_try (id : Z) (table : list Notification.entity)
    : promise unit * list Notification.entity :=
  let affected := length (filter (λ n, Notification.id n = id) table) in
  let table' := filter (λ n, Notification.id n ≠ id) table in
  if (affected =? 0)%nat then
    (rejected (NotFoundException
       ("notification with ID " +:+ pretty id +:+ " not found")), table')
  else (resolved tt, table').

Definition deleteNotification (id : Z) (table : list Notification.entity)
    : promise unit * list Notification.entity :=
  let '(p, table') := deleteNotification_try id table in
  (try_catch p
     (λ err,
        if instanceof_NotFoundException err then rejected err
        else rejected (InternalServerErrorException
               ("An error occurred during the deletenotification operation: "
                +:+ message err))),
   table').
End NotificationsService.

(** ** ExchangeController.getFullExchange and its cache key *)

(** The file of [ExchangeService] is not available; [getFullExchange] is
    the method of it the handler below calls, answering with whatever DTO
    it builds. *)
Class ExchangeService (FullExchangeDto : Type) : Type := {
  exchangeService_getFullExchange : Z → Z → promise FullExchangeDto
}.

Module ExchangeControllerMore.
(** [`fullExchange:${id}:${userId}`] *)
Definition fullExchange_key (id userId : Z) : string :=
  "fullExchange:" +:+ pretty id +:+ ":" +:+ pretty userId.

Definition getFullExchange {FullExchangeDto} `{ExchangeService FullExchangeDto}
    (now : Z) (id userId : Z) (cache : Cache FullExchangeDto)
    : promise FullExchangeDto * Cache FullExchangeDto :=
  let cacheKey := fullExchange_key id userId in
  match CacheManager.get now cacheKey cache with
  | Some cachedFullExchange => (resolved cachedFullExchange, cache)
  | None =>
      match exchangeService_getFullExchange id userId with
      | resolved fullExchange =>
          (resolved fullExchange,
           CacheManager.set now cacheKey fullExchange 18000 cache)
      | rejected error => (rejected (RpcException (message error)), cache)
      end
  end.
End ExchangeControllerMore.

(** The character that separates the parts of a cache key. *)
Definition colon : Ascii.ascii := Ascii.ascii_of_nat 58.

(** Whether the character [c] occurs in [s]. *)
Fixpoint occurs (c : Ascii.ascii) (s : string) : bool :=
  match s with
  | EmptyString => false
  | String c' s' => Ascii.eqb c' c || occurs c s'
  end.

(** ** More sample data *)

Module Examples2.
(** Ann and Bob are friends of each other; Cid has no friend. *)
Definition three_users : list User.entity :=
  [User.Entity 1 "Ann" "ann@example.org" "1" "A St" "a.png" [2];
   User.Entity 2 "Bob" "bob@example.org" "2" "B St" "b.png" [1];
   User.Entity 3 "Cid" "cid@example.org" "3" "C St" "c.png" []].

(** An exchange service that answers with the two ids it was asked for. *)
Definition echo_service : ExchangeService (Z * Z) :=
  {| exchangeService_getFullExchange := λ id userId, resolved (id, userId) |}.
End Examples2.
(** * Properties of the item ledger *)

Lemma set_exchange_id_id (e : option Z) (r : item.row) :
  item.id (item.set_exchange_id e r) = item.id r.
Proof. reflexivity. Qed.

Lemma update_exchange_id_in_ids (e : option Z) (ids : list Z) (t : table) :
  item.id <$> supabase.update_exchange_id_in e ids t = item.id <$> t.
Proof.
  unfold supabase.update_exchange_id_in.
  induction t as [|r t IH]; [reflexivity|].
  cbn [fmap list_fmap]. f_equal; [|exact IH].
  destruct (decide (item.id r ∈ ids)); reflexivity.
Qed.

Lemma update_exchange_id_in_twice (e : option Z) (ids : list Z) (t : table) :
  supabase.update_exchange_id_in e ids (supabase.update_exchange_id_in e ids t)
  = supabase.update_exchange_id_in e ids t.
Proof.
  unfold supabase.update_exchange_id_in.
  induction t as [|r t IH]; [reflexivity|].
  cbn [fmap list_fmap]. f_equal; [|exact IH].
  destruct (decide (item.id r ∈ ids)) as [Hin|Hout].
  - rewrite set_exchange_id_id. destruct (decide (item.id r ∈ ids)); [reflexivity|contradiction].
  - destruct (decide (item.id r ∈ ids)); [contradiction|reflexivity].
Qed.

Lemma update_exchange_id_in_listed (e : option Z) (ids : list Z) (t : table) (r : item.row) :
  r ∈ supabase.update_exchange_id_in e ids t →
  item.id r ∈ ids → item.exchange_id r = e.
Proof.
  unfold supabase.update_exchange_id_in.
  intros Hr Hid. apply list_elem_of_fmap in Hr as (r0 & -> & _).
  destruct (decide (item.id r0 ∈ ids)) as [|Hout]; [reflexivity|].
  contradiction.
Qed.


(** C7. Clearing the exchange reference of a list of items twice leaves the
    table exactly as clearing it once does; after either run every row
    whose id is listed has a null [exchange_id], no row is added, removed
    or renumbered, and both runs resolve to [true]. *)
Theorem deleteExchangeFromItems_idempotent
    (dto : ToggleExchangeToItemDto) (t : table) :
  let once := ItemService.deleteExchangeFromItems dto t in
  let twice := ItemService.deleteExchangeFromItems dto (snd once) in
  fst once = resolved true ∧ fst twice = resolved true ∧
  snd twice = snd once ∧
  item.id <$> snd once = item.id <$> t ∧
  Forall (λ r, item.id r ∈ item_ids dto → item.exchange_id r = None) (snd once).
Proof.
  cbn. repeat split.
  - apply update_exchange_id_in_twice.
  - apply update_exchange_id_in_ids.
  - apply Forall_forall. intros r Hr Hid.
    eapply update_exchange_id_in_listed; eassumption.
Qed.

Lemma existsb_elem_of {A} (p : A → bool) (l : list A) :
  existsb p l = true ↔ ∃ x, x ∈ l ∧ p x = true.
Proof.
  rewrite existsb_exists. split; intros (x & Hx & Hp); exists x; split;
    try assumption; by apply list_elem_of_In.
Qed.

Lemma retrieve_check_rejects_iff (ids : list Z) (t : table) :
  ItemService.retrieveItemSizesAndCheckExchange ids false t
    = rejected (Error "Failed to fetch item sizes")
  ↔ ∃ r, r ∈ t ∧ item.id r ∈ ids ∧ item.exchange_id r ≠ None.
Proof.
  unfold ItemService.retrieveItemSizesAndCheckExchange,
    ItemService.retrieveItemSizesAndCheckExchange_try, supabase.select_in_id.
  cbn [supabase.unwrap await negb andb].
  destruct (existsb _ _) eqn:Hex; cbn [try_catch].
  - split; [intros _|reflexivity].
    apply existsb_elem_of in Hex as (r & Hr & Hnn).
    apply list_elem_of_filter in Hr as [Hid Hr].
    exists r. repeat split; try assumption.
    destruct (item.exchange_id r); [discriminate|discriminate Hnn].
  - split; [discriminate|].
    intros (r & Hr & Hid & Hnn). exfalso.
    assert (existsb (λ r, not_null (item.exchange_id r))
              (filter (λ r, item.id r ∈ ids) t) = true) as Habs.
    { apply existsb_elem_of. exists r. split.
      - apply list_elem_of_filter. by split.
      - destruct (item.exchange_id r); [reflexivity|contradiction]. }
    rewrite Habs in Hex. discriminate.
Qed.



Lemma deleteItem_never_rejects (item_id : Z) (t : table) :
  ∃ b, fst (ItemService.deleteItem item_id t) = resolved b.
Proof.
  unfold ItemService.deleteItem, ItemService.deleteItem_try.
  destruct (supabase.select_eq_id_single item_id t) as [r|e]; cbn.
  - destruct (truthy (item.exchange_id r)); cbn; eauto.
  - eauto.
Qed.

(** C3, the code at the failing input.  Item 3 is tagged to exchange 7.
    The [try] block of [deleteItem] throws the conflict, but the method and
    the controller in front of it resolve to [false] and leave the table
    alone: the same answer as for item 4, which does not exist.  The check
    before tagging reports the conflict under the message it uses for
    every failure. *)
Theorem deleteItem_in_exchange_returns_false :
  let t := [item.Row 3 0 10 20 5 5 5 "drill" 900 (Some 7)] in
  ItemService.deleteItem_try 3 t
    = (rejected (Error "Item is in exchange and cannot be deleted."), t) ∧
  ItemService.deleteItem 3 t = (resolved false, t) ∧
  ItemController.deleteItem 3 t = (resolved false, t) ∧
  ItemService.deleteItem 4 t = (resolved false, t) ∧
  ItemService.retrieveItemSizesAndCheckExchange_try [3] false t
    = rejected (Error "One or more items are already in an exchange") ∧
  ItemService.retrieveItemSizesAndCheckExchange [3] false t
    = rejected (Error "Failed to fetch item sizes").
Proof. repeat split; vm_compute; reflexivity. Qed.

(** * Properties of the item controllers *)

(** C10. On a cache miss the first controller answers the [getUserItems]
    message with the service's flag set and the forgotten-items message
    with the flag cleared; the second controller does the opposite.  So
    each controller answers a message with what the other answers to the
    other message, and on a table with one item owned by user 10 and lent
    to user 20 the two answers to [getUserItems] for user 10 differ. *)
Theorem item_controllers_wire_forgoten_oppositely :
  (∀ (now id : Z) (cache : Cache (list ItemDto)) (t : table),
     CacheManager.get now (template "userItems:" id) cache = None →
     CacheManager.get now (template "userForgottenItems:" id) cache = None →
     fst (ItemController.getUserItems now id cache t)
       = ItemService.getUserItems id true t ∧
     fst (ItemController.getUserForgotenItems now id cache t)
       = ItemService.getUserItems id false t ∧
     ItemController2.getUserItems id t = ItemService.getUserItems id false t ∧
     ItemController2.getUserForgotenItems id t
       = ItemService.getUserItems id true t ∧
     fst (ItemController.getUserItems now id cache t)
       = ItemController2.getUserForgotenItems id t ∧
     fst (ItemController.getUserForgotenItems now id cache t)
       = ItemController2.getUserItems id t) ∧
  (let r := item.Row 1 0 10 20 5 5 5 "drill" 900 None in
   let t := [r] in
   fst (ItemController.getUserItems 0 10 ∅ t) = resolved [new_ItemDto r] ∧
   ItemController2.getUserItems 10 t = resolved [] ∧
   fst (ItemController.getUserItems 0 10 ∅ t) ≠ ItemController2.getUserItems 10 t).
Proof.
  split.
  - intros now id cache t Hmiss Hmiss'.
    unfold ItemController.getUserItems, ItemController.getUserForgotenItems,
      ItemController2.getUserItems, ItemController2.getUserForgotenItems.
    rewrite Hmiss, Hmiss'.
    assert (∀ flag, ∃ l, ItemService.getUserItems id flag t = resolved l) as Hres.
    { intros [|]; eexists; reflexivity. }
    destruct (Hres true) as [l1 H1], (Hres false) as [l2 H2].
    rewrite H1, H2. repeat split.
  - vm_compute. repeat split. discriminate.
Qed.

(** C10, at a concrete input: a controller that has cached nothing. *)
Lemma item_controllers_wire_forgoten_oppositely_witness :
  fst (ItemController.getUserItems 0 10 ∅
         [item.Row 1 0 10 20 5 5 5 "drill" 900 None])
  = ItemController2.getUserForgotenItems 10
         [item.Row 1 0 10 20 5 5 5 "drill" 900 None].
Proof.
  apply (proj1 item_controllers_wire_forgoten_oppositely 0 10 ∅
           [item.Row 1 0 10 20 5 5 5 "drill" 900 None]);
    reflexivity.
Defined.

(** * Properties of the user service *)

Lemma checkIfFriends_try_false_or_rejected (repo : Repository) (u f : Z) :
  UserFriendService.checkIfFriends_try repo u f = resolved false ∨
  ∃ e, UserFriendService.checkIfFriends_try repo u f = rejected e.
Proof.
  unfold UserFriendService.checkIfFriends_try.
  destruct (findOne u) as [[user|]|e]; cbn; eauto.
  destruct (findOne f) as [[friend|]|e]; cbn; eauto.
  destruct (existsb _ _); eauto.
Qed.

Lemma checkIfFriends_false_or_rejected (repo : Repository) (u f : Z) :
  UserFriendService.checkIfFriends repo u f = resolved false ∨
  ∃ e, UserFriendService.checkIfFriends repo u f = rejected e.
Proof.
  unfold UserFriendService.checkIfFriends.
  destruct (checkIfFriends_try_false_or_rejected repo u f) as [->|[e ->]];
    cbn; [by left|right].
  destruct (_ || _); eauto.
Qed.

Lemma controller_checkIfFriends_false_or_rejected (repo : Repository)
    (dto : ToggleFriendDto) :
  UserController.checkIfFriends repo dto = resolved false ∨
  ∃ e, UserController.checkIfFriends repo dto = rejected e.
Proof.
  unfold UserController.checkIfFriends.
  destruct (checkIfFriends_false_or_rejected repo (userId dto) (friendId dto))
    as [->|[e ->]]; cbn; eauto.
Qed.

(** C9. Whatever the repository answers, [checkIfFriends] resolves to
    [false] or is rejected, never resolves to [true]; when both users are
    found and the second is among the first one's friends it is rejected
    with the [ConflictException].  The controller handler in front of it
    never resolves to [true] either, so [createItem], which goes on only
    when the reply is truthy, is always rejected and inserts nothing. *)
Theorem checkIfFriends_never_resolves_true (repo : Repository)
    (userId friendId : Z) :
  UserFriendService.checkIfFriends repo userId friendId ≠ resolved true ∧
  (∀ b, UserFriendService.checkIfFriends repo userId friendId = resolved b →
        b = false) ∧
  (∀ user friend,
     findOne userId = resolved (Some user) →
     findOne friendId = resolved (Some friend) →
     friendId ∈ User.friends user →
     UserFriendService.checkIfFriends repo userId friendId
       = rejected (ConflictException "The specified users are friends.")) ∧
  UserController.checkIfFriends repo
    (Build_ToggleFriendDto userId friendId)
    ≠ resolved true ∧
  (∀ now dto t, ∃ e,
     ItemService.createItem (userClient_to repo) now dto t = (rejected e, t)).
Proof.
  repeat split.
  - destruct (checkIfFriends_false_or_rejected repo userId friendId)
      as [->|[e ->]]; discriminate.
  - intros b Hb.
    destruct (checkIfFriends_false_or_rejected repo userId friendId)
      as [H|[e H]]; rewrite H in Hb; [by injection Hb|discriminate].
  - intros user friend Hu Hf Hin.
    unfold UserFriendService.checkIfFriends,
      UserFriendService.checkIfFriends_try.
    rewrite Hu. cbn [await]. rewrite Hf. cbn [await].
    assert (existsb (λ f, f =? friendId) (User.friends user) = true) as ->.
    { apply existsb_elem_of. exists friendId. split; [exact Hin|apply Z.eqb_refl]. }
    reflexivity.
  - destruct (controller_checkIfFriends_false_or_rejected repo
                (Build_ToggleFriendDto userId friendId))
      as [->|[e ->]]; discriminate.
  - intros now dto t. unfold ItemService.createItem, userClient_to.
    cbn [ItemService.send_checkIfFriends].
    destruct (controller_checkIfFriends_false_or_rejected repo
                (Build_ToggleFriendDto (ci_user_id dto) (ci_friend_id dto)))
      as [->|[e ->]]; cbn; eauto.
Qed.

(** C9, at a concrete input: users 1 and 2 are friends. *)
Lemma checkIfFriends_never_resolves_true_witness :
  UserFriendService.checkIfFriends
    Examples.two_friends 1 2
  = rejected (ConflictException "The specified users are friends.").
Proof.
  eapply (proj1 (proj2 (proj2 (checkIfFriends_never_resolves_true
            Examples.two_friends 1 2)))).
  - reflexivity.
  - reflexivity.
  - vm_compute. apply list_elem_of_here.
Defined.

Lemma cache_get_set_within_ttl {V} (t0 t ttl : Z) (key : string) (v : V)
    (c : Cache V) :
  t - t0 ≤ ttl →
  CacheManager.get t key (CacheManager.set t0 key v ttl c) = Some v.
Proof.
  intros Hle. unfold CacheManager.get, CacheManager.set.
  rewrite lookup_insert_eq. unfold CacheManager.fresh. cbn.
  destruct (Z.leb_spec (t - t0) ttl); [reflexivity|lia].
Qed.

(** C8. When a [getUser] call for user [A] finds nothing usable under the
    key ['getUser'] and the user service answers with [userA], the call
    returns [userA] and stores it under that key.  From then on, for as
    long as the entry's time to live lasts, [getUser] for any id [B]
    returns [userA] and leaves the cache as it is, although the same call
    made on the earlier cache returns what the service answers for [B]. *)
Theorem getUser_answers_from_one_key `{UserService} (t0 A : Z)
    (cache : Cache UserDto) (userA : UserDto) :
  CacheManager.get t0 "getUser" cache = None →
  userService_getUser A = resolved userA →
  let cache' := snd (UserController.getUser t0 A cache) in
  fst (UserController.getUser t0 A cache) = resolved userA ∧
  (∀ B t, t0 ≤ t < t0 + 18000 →
          UserController.getUser t B cache' = (resolved userA, cache')) ∧
  (∀ B userB, userService_getUser B = resolved userB →
              fst (UserController.getUser t0 B cache) = resolved userB).
Proof.
  intros Hmiss HA. unfold UserController.getUser at 1 2.
  rewrite Hmiss, HA. cbn [fst snd]. repeat split.
  - intros B t Ht. unfold UserController.getUser.
    rewrite cache_get_set_within_ttl by lia. reflexivity.
  - intros B userB HB. unfold UserController.getUser.
    rewrite Hmiss, HB. reflexivity.
Qed.

(** C8, at a concrete input: after [getUser] for user 1 on an empty cache,
    [getUser] for user 2 a second later returns user 1's record. *)
Lemma getUser_answers_from_one_key_witness :
  fst (@UserController.getUser Examples.two_users 1000 2
         (snd (@UserController.getUser Examples.two_users 0 1 ∅)))
  = resolved (new_UserDto "Ann" "ann@example.org" 1 "1" "A St" "a.png").
Proof.
  pose proof (@getUser_answers_from_one_key Examples.two_users 0 1 ∅
                (new_UserDto "Ann" "ann@example.org" 1 "1" "A St" "a.png")
                eq_refl eq_refl) as (_ & Hlater & _).
  rewrite (Hlater 2 1000); [reflexivity|lia].
Defined.

Import Coordinator Effects.

(** * Properties of the coordinator *)

Section coordinator_facts.
Context `{Policy}.

Lemma atomically_failure {A} (m : Tx A) (w : World) (f : Failure) :
  fst (atomically m w) = inl f → snd (atomically m w) = w.
Proof. unfold atomically. destruct (m w) as [[f'|a] w']; [reflexivity|discriminate]. Qed.

(** ** Running a transaction step by step *)

Lemma bind_success {A B} (m : Tx A) (k : A → Tx B) (w w' : World) (b : B) :
  bind m k w = (inr b, w') →
  ∃ a w1, m w = (inr a, w1) ∧ k a w1 = (inr b, w').
Proof.
  unfold bind. destruct (m w) as [[f|a] w1]; [discriminate|]. eauto.
Qed.

Lemma atomically_success {A} (m : Tx A) (w w' : World) (a : A) :
  atomically m w = (inr a, w') → m w = (inr a, w').
Proof.
  unfold atomically. destruct (m w) as [[f|a'] w1]; [discriminate|]. done.
Qed.

Lemma require_success (b : bool) (f : Failure) (w w' : World) (u : unit) :
  require b f w = (inr u, w') → b = true ∧ w' = w.
Proof. destruct b; cbn; [|discriminate]. intros [= _ ->]. done. Qed.

Lemma lift_success {A} (r : Failure + A) (w w' : World) (a : A) :
  lift r w = (inr a, w') → r = inr a ∧ w' = w.
Proof. unfold lift. intros [= -> ->]. done. Qed.

Lemma read_success (w w' w1 : World) :
  read w = (inr w1, w') → w1 = w ∧ w' = w.
Proof. unfold read. intros [= -> ->]. done. Qed.

Lemma ret_success {A} (a a' : A) (w w' : World) :
  ret a w = (inr a', w') → a' = a ∧ w' = w.
Proof. unfold ret. intros [= -> ->]. done. Qed.

Lemma write_success (g : World → World) (w w' : World) (u : unit) :
  write g w = (inr u, w') → w' = g w.
Proof. unfold write. intros [= _ ->]. done. Qed.

Lemma find_exchange_success (eid : Z) (w w' : World) (e : Exchange) :
  find_exchange eid w = (inr e, w') → exchanges w !! eid = Some e ∧ w' = w.
Proof.
  unfold find_exchange, bind, read.
  destruct (exchanges w !! eid) as [e'|]; cbn; [|discriminate].
  intros [= -> ->]. done.
Qed.

Lemma same_records_refl (w : World) : same_records w w.
Proof. done. Qed.

Lemma same_records_trans (w1 w2 w3 : World) :
  same_records w1 w2 → same_records w2 w3 → same_records w1 w3.
Proof. unfold same_records. intros (-> & -> & ->) (-> & -> & ->). done. Qed.

Ltac tx_inv H :=
  repeat match type of H with
  | bind _ _ _ = (inr _, _) =>
      let a := fresh "a" in let w1 := fresh "w" in
      let H1 := fresh "Hstep" in
      apply bind_success in H as (a & w1 & H1 & H)
  | atomically _ _ = (inr _, _) => apply atomically_success in H
  end.

Lemma tagItems_records (ids : list Z) (eid : Z) (w w' : World) (u : unit) :
  Ledger.tagItems ids eid w = (inr u, w') → same_records w w'.
Proof.
  unfold Ledger.tagItems. intros Hrun. tx_inv Hrun.
  apply read_success in Hstep as [-> ->].
  apply require_success in Hstep0 as [_ ->].
  apply require_success in Hstep1 as [_ ->].
  apply write_success in Hrun as ->. done.
Qed.

Lemma requireUntagged_records (ids : list Z) (w w' : World) (u : unit) :
  Ledger.requireUntagged ids w = (inr u, w') → w' = w.
Proof.
  unfold Ledger.requireUntagged. intros Hrun. tx_inv Hrun.
  apply read_success in Hstep as [-> ->].
  destruct (ItemService.retrieveItemSizesAndCheckExchange _ _ _) as [l|e];
    try discriminate.
  by apply ret_success in Hrun as [_ ->].
Qed.

Lemma clearTags_records (eid : Z) (ids : list Z) (w w' : World) (u : unit) :
  Ledger.clearTags eid ids w = (inr u, w') → same_records w w'.
Proof. unfold Ledger.clearTags. intros ->%write_success. done. Qed.

Lemma itemsOf_records (eid : Z) (w w' : World) (ids : list Z) :
  Ledger.itemsOf eid w = (inr ids, w') → w' = w.
Proof.
  unfold Ledger.itemsOf. intros Hrun. tx_inv Hrun.
  apply read_success in Hstep as [-> ->].
  destruct (ItemService.getItemsForOrIdsExchange _ _ _) as [[l|l]|e];
    try discriminate.
  by apply ret_success in Hrun as [_ ->].
Qed.

Lemma getItemDimensions_records (ids : list Z) (w w' : World)
    (sizes : list ItemSizeDto) :
  Ledger.getItemDimensions ids w = (inr sizes, w') → w' = w.
Proof.
  unfold Ledger.getItemDimensions. intros Hrun. tx_inv Hrun.
  apply read_success in Hstep as [-> ->].
  destruct (ItemService.retrieveItemSizesAndCheckExchange _ _ _) as [l|e];
    try discriminate.
  by apply ret_success in Hrun as [_ ->].
Qed.

Lemma reserve_records (cls eid : Z) (w w' : World) (b : Z) :
  BoxRegistry.reserve cls eid w = (inr b, w') → same_records w w'.
Proof.
  unfold BoxRegistry.reserve. intros Hrun. tx_inv Hrun.
  apply read_success in Hstep as [-> ->].
  destruct (BoxRegistry.reserve_in _ _ _) as [[i bs]|]; [|discriminate].
  tx_inv Hrun. apply write_success in Hstep as ->.
  by apply ret_success in Hrun as [_ ->].
Qed.

Lemma release_records (b : Z) (w w' : World) (u : unit) :
  BoxRegistry.release b w = (inr u, w') → same_records w w'.
Proof. unfold BoxRegistry.release. intros ->%write_success. done. Qed.

Lemma release_holdings_records (eid : Z) (e : Exchange) (w w' : World)
    (u : unit) :
  release_holdings eid e w = (inr u, w') → same_records w w'.
Proof.
  unfold release_holdings. intros Hrun. tx_inv Hrun.
  apply itemsOf_records in Hstep as ->.
  apply clearTags_records in Hstep0.
  eapply same_records_trans; [exact Hstep0|].
  destruct (box e).
  - eapply release_records, Hrun.
  - by apply ret_success in Hrun as [_ ->].
Qed.

(** ** The effect of each call *)

Lemma current_not_overdue (now : Z) (e : Exchange) :
  current now e ≠ EXPIRED → overdue now e = false ∧ current now e = status e.
Proof.
  unfold current. destruct (overdue now e); [congruence|done].
Qed.

Lemma commit_items_effect (now eid : Z) (e e' : Exchange) (w w' : World) :
  commit_items now eid e w = (inr e', w') →
  current now e = PROPOSED ∧ e' = with_status ITEMS_COMMITTED now e ∧
  w' = set_exchange eid e' w.
Proof.
  unfold commit_items. intros Hrun. tx_inv Hrun.
  apply lift_success in Hstep as [Htr ->].
  apply read_success in Hstep0 as [-> ->].
  apply require_success in Hstep1 as [_ ->].
  apply write_success in Hstep2 as ->.
  apply ret_success in Hrun as [-> ->].
  destruct (current now e) eqn:Hcur; cbn in Htr; try discriminate.
  injection Htr as <-. done.
Qed.

Lemma proposeExchange_effect (now i cp : Z) (ids : list Z) (w w' : World)
    (eid : Z) :
  proposeExchange now i cp ids w = (inr eid, w') → effect now w w'.
Proof.
  unfold proposeExchange, proposeExchange_steps. intros Hrun. tx_inv Hrun.
  apply require_success in Hstep as [_ ->].
  apply read_success in Hstep0 as [-> ->].
  apply write_success in Hstep1 as ->.
  apply requireUntagged_records in Hstep2 as ->.
  apply tagItems_records in Hstep3 as (Hex & Hcodes & Hnext).
  apply ret_success in Hrun as [_ ->].
  eapply effect_new; [exact Hex|exact Hcodes|exact Hnext].
Qed.

Lemma confirmItems_effect (now eid : Z) (w w' : World) (u : unit) :
  confirmItems now eid w = (inr u, w') → effect now w w'.
Proof.
  unfold confirmItems. intros Hrun. tx_inv Hrun.
  apply find_exchange_success in Hstep as [Hlook ->].
  apply commit_items_effect in Hstep0 as (Hcur & -> & ->).
  apply ret_success in Hrun as [_ ->].
  eapply effect_move; [exact Hlook|reflexivity..|].
  by apply moved_commit.
Qed.

Lemma assignBox_effect (now eid : Z) (w w' : World) (b : Z) :
  assignBox now eid w = (inr b, w') → effect now w w'.
Proof.
  unfold assignBox. intros Hrun%atomically_success.
  apply bind_success in Hrun as (e & w0 & Hstep & Hrun).
  apply bind_success in Hrun as (e1 & w1 & Hstep0 & Hrun).
  apply bind_success in Hrun as (s & w2 & Hstep1 & Hrun).
  apply bind_success in Hrun as (sizes & w3 & Hstep2 & Hrun).
  apply bind_success in Hrun as (b' & w4 & Hstep3 & Hrun).
  apply bind_success in Hrun as (u & w5 & Hstep4 & Hrun).
  apply find_exchange_success in Hstep as [Hlook ->].
  apply lift_success in Hstep1 as [Htr ->].
  apply getItemDimensions_records in Hstep2 as ->.
  apply reserve_records in Hstep3 as (Hex & Hcodes & Hnext).
  apply write_success in Hstep4 as ->.
  apply ret_success in Hrun as [_ ->].
  case_bool_decide as Hcur.
  - apply commit_items_effect in Hstep0 as (_ & -> & ->).
    eapply effect_move; [exact Hlook|..].
    + cbn. rewrite Hex. cbn. apply insert_insert_eq.
    + cbn. rewrite Hcodes. reflexivity.
    + cbn. rewrite Hnext. reflexivity.
    + apply moved_assign; [by left|].
      cbn in Htr. by injection Htr as <-.
  - apply ret_success in Hstep0 as [-> ->].
    eapply effect_move; [exact Hlook|..].
    + cbn. by rewrite Hex.
    + cbn. by rewrite Hcodes.
    + cbn. by rewrite Hnext.
    + destruct (current now e) eqn:Hc; cbn in Htr; try discriminate.
      injection Htr as <-. apply moved_assign; [by right|done].
Qed.

Lemma requestBoxOpen_effect (now en eid : Z) (role : Role) (w w' : World)
    (c : BoxAccessCode) :
  requestBoxOpen now en eid role w = (inr c, w') → effect now w w'.
Proof.
  unfold requestBoxOpen, CodeGenerator.issue. intros Hrun%atomically_success.
  apply bind_success in Hrun as (e & w0 & Hstep & Hrun).
  apply bind_success in Hrun as (u & w1 & Hstep0 & Hrun).
  apply bind_success in Hrun as (u' & w2 & Hstep1 & Hrun).
  apply find_exchange_success in Hstep as [Hlook ->].
  apply require_success in Hstep0 as [Hopen ->].
  apply write_success in Hstep1 as ->.
  apply ret_success in Hrun as [-> ->].
  eapply (effect_issue _ _ _ eid e role
            (mkCode eid role en now false (now + code_ttl)));
    [exact Hlook|exact Hopen|reflexivity..].
Qed.

Lemma redeem_success (now eid code : Z) (w w' : World) (role : Role) :
  CodeGenerator.redeem now eid code w = (inr role, w') →
  CodeGenerator.validate now eid code (codes w) = inr role ∧
  w' = set_codes (CodeGenerator.mark_consumed now eid code (codes w)) w.
Proof.
  unfold CodeGenerator.redeem. intros Hrun. tx_inv Hrun.
  apply read_success in Hstep as [-> ->].
  apply lift_success in Hstep0 as [Hval ->].
  apply write_success in Hstep1 as ->.
  apply ret_success in Hrun as [-> ->]. done.
Qed.

Lemma consumeBoxOpen_success (now eid code : Z) (w w' : World) (s : Status) :
  consumeBoxOpen now eid code w = (inr s, w') →
  ∃ e e' role,
    exchanges w !! eid = Some e ∧
    CodeGenerator.validate now eid code (codes w) = inr role ∧
    transition (current now e) (opening role) = inr (status e') ∧
    exchanges w' = <[eid := e']> (exchanges w) ∧
    codes w' = CodeGenerator.mark_consumed now eid code (codes w) ∧
    next_exchange_id w' = next_exchange_id w.
Proof.
  unfold consumeBoxOpen. intros Hrun%atomically_success.
  apply bind_success in Hrun as (e & w0 & Hstep & Hrun).
  apply bind_success in Hrun as (role & w1 & Hstep0 & Hrun).
  apply bind_success in Hrun as (s' & w2 & Hstep1 & Hrun).
  apply bind_success in Hrun as (u & w3 & Hstep2 & Hrun).
  apply find_exchange_success in Hstep as [Hlook ->].
  apply redeem_success in Hstep0 as [Hval ->].
  apply lift_success in Hstep1 as [Htr ->].
  apply ret_success in Hrun as [-> ->].
  destruct role.
  - apply write_success in Hstep2 as ->.
    exists e, (with_status s' now e), creator. done.
  - apply bind_success in Hstep2 as (u' & w4 & Hstep & Hstep2).
    apply release_holdings_records in Hstep as (Hex & Hcodes & Hnext).
    apply write_success in Hstep2 as ->.
    exists e, (without_box (with_status s' now e)), pickup.
    cbn. rewrite Hex, Hcodes, Hnext. done.
Qed.

Lemma consumeBoxOpen_effect (now eid code : Z) (w w' : World) (s : Status) :
  consumeBoxOpen now eid code w = (inr s, w') → effect now w w'.
Proof.
  intros (e & e' & role & Hlook & Hval & Htr & Hex & Hcodes & Hnext)
    %consumeBoxOpen_success.
  eapply effect_open; eassumption.
Qed.

Lemma consumeBoxOpen_invalid (now eid code : Z) (w : World) (e : Exchange)
    (f : Failure) :
  exchanges w !! eid = Some e →
  CodeGenerator.validate now eid code (codes w) = inl f →
  consumeBoxOpen now eid code w = (inl f, w).
Proof.
  intros Hlook Hval.
  unfold consumeBoxOpen, atomically, bind, find_exchange, read,
    CodeGenerator.redeem, bind, read, lift.
  rewrite Hlook. cbn. rewrite Hval. reflexivity.
Qed.

Lemma cancelExchange_effect (now eid : Z) (w w' : World) (u : unit) :
  cancelExchange now eid w = (inr u, w') → effect now w w'.
Proof.
  unfold cancelExchange. intros Hrun%atomically_success.
  apply bind_success in Hrun as (e & w0 & Hstep & Hrun).
  apply bind_success in Hrun as (s & w1 & Hstep0 & Hrun).
  apply bind_success in Hrun as (u' & w2 & Hstep1 & Hrun).
  apply find_exchange_success in Hstep as [Hlook ->].
  apply lift_success in Hstep0 as [Htr ->].
  apply release_holdings_records in Hstep1 as (Hex & Hcodes & Hnext).
  apply write_success in Hrun as ->.
  eapply effect_move; [exact Hlook|..].
  - cbn. by rewrite Hex.
  - cbn. by rewrite Hcodes.
  - cbn. by rewrite Hnext.
  - unfold transition in Htr.
    destruct (terminal (current now e)) eqn:Hterm; [discriminate|].
    injection Htr as <-. by apply moved_cancel.
Qed.

Lemma expireExchange_effect (now eid : Z) (w w' : World) (u : unit) :
  expireExchange now eid w = (inr u, w') → effect now w w'.
Proof.
  unfold expireExchange. intros Hrun%atomically_success.
  apply bind_success in Hrun as (e & w0 & Hstep & Hrun).
  apply bind_success in Hrun as (u0 & w1 & Hstep0 & Hrun).
  apply bind_success in Hrun as (s & w2 & Hstep1 & Hrun).
  apply bind_success in Hrun as (u' & w3 & Hstep2 & Hrun).
  apply find_exchange_success in Hstep as [Hlook ->].
  apply require_success in Hstep0 as [Hdue ->].
  apply lift_success in Hstep1 as [Htr ->].
  apply release_holdings_records in Hstep2 as (Hex & Hcodes & Hnext).
  apply write_success in Hrun as ->.
  eapply effect_move; [exact Hlook|..].
  - cbn. by rewrite Hex.
  - cbn. by rewrite Hcodes.
  - cbn. by rewrite Hnext.
  - apply moved_expire; [exact Hdue|].
    destruct (status e); cbn in Htr; try discriminate; by injection Htr as <-.
Qed.

Lemma changeExchangeStatus_effect (now : Z) (dto : ChangeExchangeStatusDto)
    (w w' : World) (u : unit) :
  changeExchangeStatus now dto w = (inr u, w') → effect now w w'.
Proof.
  unfold changeExchangeStatus. intros Hrun%atomically_success.
  destruct (ce_status dto).
  - apply bind_success in Hrun as (e & w0 & _ & Hrun). discriminate.
  - by eapply confirmItems_effect.
  - apply bind_success in Hrun as (b & w0 & Hstep & Hrun).
    apply ret_success in Hrun as [_ ->]. by eapply assignBox_effect.
  - apply bind_success in Hrun as (e & w0 & _ & Hrun). discriminate.
  - apply bind_success in Hrun as (e & w0 & _ & Hrun). discriminate.
  - by eapply cancelExchange_effect.
  - by eapply expireExchange_effect.
Qed.

Lemma outcome_effect {A} (now : Z) (m : Tx A) (w : World) :
  (∀ a w', atomically m w = (inr a, w') → effect now w w') →
  effect now w (snd (outcome (atomically m w))).
Proof.
  intros Hok. unfold outcome. cbn [snd].
  destruct (atomically m w) as [[f|a] w'] eqn:Hrun.
  - pose proof (atomically_failure m w f) as Hback.
    rewrite Hrun in Hback. cbn in Hback. rewrite (Hback eq_refl).
    apply effect_none, same_records_refl.
  - cbn. eapply Hok. reflexivity.
Qed.

Lemma handle_effect (now : Z) (c : Call) (w : World) :
  effect now w (snd (handle now c w)).
Proof.
  destruct c; cbn [handle].
  - apply outcome_effect. intros a w'. apply proposeExchange_effect.
  - apply outcome_effect. intros a w'. apply confirmItems_effect.
  - apply outcome_effect. intros a w'. apply assignBox_effect.
  - apply outcome_effect. intros a w'. apply requestBoxOpen_effect.
  - apply outcome_effect. intros a w'. apply consumeBoxOpen_effect.
  - apply outcome_effect. intros a w'. apply cancelExchange_effect.
  - apply effect_none, same_records_refl.
  - apply outcome_effect. intros a w'. apply expireExchange_effect.
  - apply outcome_effect. intros a w'. apply changeExchangeStatus_effect.
Qed.

(** ** The invariant of the stores *)

Lemma filter_unique {A} (p : A → bool) (l : list A) (x y : A) :
  (length (List.filter p l) ≤ 1)%nat →
  x ∈ l → y ∈ l → p x = true → p y = true → x = y.
Proof.
  induction l as [|a l IH]; intros Hlen Hx Hy Hpx Hpy.
  - by apply elem_of_nil in Hx.
  - cbn in Hlen. destruct (p a) eqn:Hpa.
    + cbn in Hlen.
      assert (List.filter p l = []) as Hnil.
      { destruct (List.filter p l); [done|cbn in Hlen; lia]. }
      assert (∀ z, z ∈ l → p z = true → False) as Hnone.
      { intros z Hz Hpz.
        assert (In z (List.filter p l)) as Hin.
        { apply filter_In. split; [by apply list_elem_of_In|done]. }
        rewrite Hnil in Hin. destruct Hin. }
      apply elem_of_cons in Hx as [->|Hx]; apply elem_of_cons in Hy as [->|Hy];
        try done; exfalso; eauto.
    + apply elem_of_cons in Hx as [->|Hx]; [congruence|].
      apply elem_of_cons in Hy as [->|Hy]; [congruence|].
      by apply IH.
Qed.

Lemma filter_length_fmap {A} (p q : A → bool) (g : A → A) (l : list A) :
  (∀ x, x ∈ l → q (g x) = true → p x = true) →
  (length (List.filter q (g <$> l)) ≤ length (List.filter p l))%nat.
Proof.
  induction l as [|a l IH]; intros Himp; [done|].
  cbn [fmap list_fmap List.filter].
  assert (length (List.filter q (g <$> l)) ≤ length (List.filter p l))%nat
    as Hrec.
  { apply IH. intros x Hx. apply Himp. by apply elem_of_cons; right. }
  destruct (q (g a)) eqn:Hq.
  - rewrite (Himp a); [cbn; lia|apply list_elem_of_here|done].
  - destruct (p a); cbn; lia.
Qed.

Lemma filter_length_weaken {A} (p q : A → bool) (l : list A) :
  (∀ x, q x = true → p x = true) →
  (length (List.filter q l) ≤ length (List.filter p l))%nat.
Proof.
  intros Himp.
  pose proof (filter_length_fmap p q (λ x, x) l) as Hle.
  rewrite list_fmap_id in Hle. apply Hle. intros x _. apply Himp.
Qed.

Lemma find_none_elem_of {A} (p : A → bool) (l : list A) :
  (∀ x, x ∈ l → p x = false) → List.find p l = None.
Proof.
  induction l as [|a l IH]; intros Hall; [done|].
  cbn. rewrite (Hall a) by apply list_elem_of_here.
  apply IH. intros x Hx. apply Hall. by apply elem_of_cons; right.
Qed.

Lemma find_some_elem_of {A} (p : A → bool) (l : list A) (x : A) :
  List.find p l = Some x → x ∈ l ∧ p x = true.
Proof.
  intros [Hin Hp]%find_some. split; [by apply list_elem_of_In|done].
Qed.

Lemma validate_found (now eid code : Z) (cs : list BoxAccessCode)
    (role : Role) :
  CodeGenerator.validate now eid code cs = inr role →
  ∃ c, c ∈ cs ∧ CodeGenerator.scoped eid code c = true ∧
       CodeGenerator.usable now c = true ∧ code_role c = role.
Proof.
  unfold CodeGenerator.validate.
  destruct (List.find _ cs) as [c|] eqn:Hfind; [|discriminate].
  intros [= <-]. apply find_some_elem_of in Hfind as [Hin Hp].
  apply andb_true_iff in Hp as [Hs Hu]. eauto.
Qed.

Lemma usable_unconsumed (now eid code : Z) (c : BoxAccessCode) :
  CodeGenerator.scoped eid code c = true →
  CodeGenerator.usable now c = true →
  unconsumed_for eid c = true.
Proof.
  unfold CodeGenerator.scoped, CodeGenerator.usable, unconsumed_for.
  intros [-> _]%andb_true_iff [-> _]%andb_true_iff. done.
Qed.

Lemma unconsumed_for_spec (eid : Z) (c : BoxAccessCode) :
  unconsumed_for eid c = true ↔ code_exchange c = eid ∧ consumed c = false.
Proof.
  unfold unconsumed_for. rewrite andb_true_iff, Z.eqb_eq, negb_true_iff. done.
Qed.

(** Once a code of an exchange has been redeemed, every code of that
    exchange is consumed. *)
Lemma mark_consumed_all (now eid code : Z) (w : World) (role : Role)
    (c : BoxAccessCode) :
  consistent w →
  CodeGenerator.validate now eid code (codes w) = inr role →
  c ∈ CodeGenerator.mark_consumed now eid code (codes w) →
  code_exchange c = eid → consumed c = true.
Proof.
  intros Hw Hval Hc Heid.
  apply validate_found in Hval as (cf & Hcf & Hscoped & Husable & _).
  unfold CodeGenerator.mark_consumed in Hc.
  apply list_elem_of_fmap in Hc as (c0 & -> & Hc0).
  destruct (CodeGenerator.scoped eid code c0 && CodeGenerator.usable now c0)
    eqn:Hhit; [reflexivity|].
  destruct (consumed c0) eqn:Hcons; [reflexivity|exfalso].
  assert (c0 = cf) as ->.
  { eapply (filter_unique (unconsumed_for eid)); eauto using one_unconsumed.
    - by apply unconsumed_for_spec.
    - by eapply usable_unconsumed. }
  rewrite Hscoped, Husable in Hhit. discriminate.
Qed.

Lemma mark_consumed_keeps (now eid code : Z) (cs : list BoxAccessCode)
    (c : BoxAccessCode) :
  c ∈ CodeGenerator.mark_consumed now eid code cs → consumed c = false →
  c ∈ cs.
Proof.
  unfold CodeGenerator.mark_consumed.
  intros (c0 & -> & Hc0)%list_elem_of_fmap.
  destruct (_ && _); [discriminate|]. done.
Qed.

Lemma invalidate_keeps (eid : Z) (role : Role) (cs : list BoxAccessCode)
    (c : BoxAccessCode) :
  c ∈ CodeGenerator.invalidate eid role cs → consumed c = false →
  c ∈ cs ∧ ¬ (code_exchange c = eid ∧ code_role c = role).
Proof.
  unfold CodeGenerator.invalidate.
  intros (c0 & -> & Hc0)%list_elem_of_fmap.
  destruct (_ && _) eqn:Hhit; [discriminate|]. intros _.
  split; [done|]. intros [Heid Hrole].
  rewrite Heid, Z.eqb_refl, bool_decide_eq_true_2 in Hhit by done.
  discriminate.
Qed.

Lemma openable_role_state (role role' : Role) (s : Status) :
  openable role s = true → role_state role s = true ∧
  (role_state role' s = true → role' = role).
Proof. destruct role, role', s; cbn; try discriminate; done. Qed.

Lemma openable_current (role : Role) (now : Z) (e : Exchange) :
  openable role (current now e) = true → current now e = status e.
Proof.
  intros Hopen. apply current_not_overdue.
  intros Hexp. rewrite Hexp in Hopen. by destruct role.
Qed.

Lemma current_status (now : Z) (e : Exchange) (s : Status) :
  current now e = s → s ≠ EXPIRED → status e = s ∧ overdue now e = false.
Proof.
  intros <- Hne. by apply current_not_overdue in Hne as [-> ->].
Qed.

Lemma moved_role_state (now : Z) (e e' : Exchange) (role : Role) :
  moved now e e' → role_state role (status e) = true →
  role_state role (status e') = true.
Proof.
  intros Hmoved Hrole. destruct Hmoved as [Hc Hs|[Hc|Hc] Hs|Hc Hs|Hc Hs].
  - apply current_status in Hc as [Heq _]; [|done].
    rewrite Heq in Hrole. by destruct role.
  - apply current_status in Hc as [Heq _]; [|done].
    rewrite Heq in Hrole. by destruct role.
  - apply current_status in Hc as [Heq _]; [|done].
    rewrite Heq in Hrole. by destruct role.
  - rewrite Hs. by destruct role.
  - rewrite Hs. by destruct role.
Qed.

Lemma consistent_initial (items : table) (boxes : list BoxAssignment) :
  consistent (initial items boxes).
Proof.
  split; cbn.
  - intros _. lia.
  - intros c Hc. by apply elem_of_nil in Hc.
  - intros eid e Hlook. by rewrite lookup_empty in Hlook.
Qed.

Lemma effect_consistent (now : Z) (w w' : World) :
  consistent w → effect now w w' → consistent w'.
Proof.
  intros [H1 H2 H3] Heff.
  destruct Heff as
    [(Hex & Hcodes & Hnext)
    |e Hex Hcodes Hnext
    |eid e e' Hlook Hex Hcodes Hnext Hmoved
    |eid e role c Hlook Hopen Hceid Hcrole Hex Hcodes Hnext
    |eid e e' code role Hlook Hval Htr Hex Hcodes Hnext].
  - split; rewrite ?Hex, ?Hcodes, ?Hnext; done.
  - split; rewrite ?Hex, ?Hcodes, ?Hnext; [done|..].
    + intros c Hc Hcons. destruct (H2 c Hc Hcons) as (e0 & Hl & Hr).
      exists e0. split; [|done].
      rewrite lookup_insert_ne; [done|]. apply H3 in Hl. lia.
    + intros eid e0 Hl.
      destruct (decide (next_exchange_id w = eid)) as [<-|Hne]; [lia|].
      rewrite lookup_insert_ne in Hl by done. apply H3 in Hl. lia.
  - split; rewrite ?Hex, ?Hcodes, ?Hnext; [done|..].
    + intros c Hc Hcons. destruct (H2 c Hc Hcons) as (e0 & Hl & Hr).
      destruct (decide (eid = code_exchange c)) as [Heq|Hne].
      * exists e'. rewrite <- Heq, lookup_insert_eq. split; [done|].
        rewrite <- Heq, Hlook in Hl. injection Hl as <-.
        eapply moved_role_state; eassumption.
      * exists e0. by rewrite lookup_insert_ne.
    + intros eid0 e0 Hl.
      destruct (decide (eid = eid0)) as [<-|Hne]; [by eapply H3|].
      rewrite lookup_insert_ne in Hl by done. by eapply H3.
  - pose proof (openable_current _ _ _ Hopen) as Hcur.
    rewrite Hcur in Hopen.
    split; rewrite ?Hex, ?Hcodes, ?Hnext; [..|done].
    + intros eid0. cbn [List.filter].
      destruct (decide (eid0 = eid)) as [->|Hne].
      * assert (List.filter (unconsumed_for eid)
                  (CodeGenerator.invalidate eid role (codes w)) = []) as ->.
        { destruct (List.filter _ _) as [|c0 l] eqn:Hf; [done|exfalso].
          assert (In c0 (List.filter (unconsumed_for eid)
                    (CodeGenerator.invalidate eid role (codes w)))) as Hin
            by (rewrite Hf; by left).
          apply filter_In in Hin as [Hin Hun].
          apply list_elem_of_In in Hin.
          apply unconsumed_for_spec in Hun as [Hc0 Hcons].
          apply invalidate_keeps in Hin as [Hin Hnot]; [|done].
          destruct (H2 c0 Hin Hcons) as (e0 & Hl & Hr).
          rewrite Hc0 in Hl. assert (e0 = e) as -> by congruence.
          apply Hnot. split; [done|].
          by eapply openable_role_state. }
        destruct (unconsumed_for eid c); cbn; lia.
      * assert (unconsumed_for eid0 c = false) as ->.
        { unfold unconsumed_for. rewrite Hceid.
          destruct (Z.eqb_spec eid eid0); [congruence|done]. }
        etrans; [|apply (H1 eid0)].
        apply filter_length_fmap. intros x _.
        destruct (_ && _) eqn:Hhit; [|done].
        unfold unconsumed_for. cbn. rewrite andb_false_r. discriminate.
    + intros c' Hc' Hcons.
      apply elem_of_cons in Hc' as [->|Hc'].
      * exists e. rewrite Hceid, Hcrole. split; [done|].
        by eapply (openable_role_state role role).
      * apply invalidate_keeps in Hc' as [Hc' _]; [|done]. by apply H2.
  - split; rewrite ?Hex, ?Hcodes, ?Hnext.
    + intros eid0. etrans; [|apply (H1 eid0)].
      apply filter_length_fmap. intros x _.
      destruct (_ && _) eqn:Hhit; [|done].
      unfold unconsumed_for. cbn. rewrite andb_false_r. discriminate.
    + intros c Hc Hcons.
      destruct (decide (code_exchange c = eid)) as [Heid|Hne].
      * pose proof (mark_consumed_all now eid code w role c
                      (Build_consistent w H1 H2 H3) Hval Hc Heid).
        congruence.
      * apply mark_consumed_keeps in Hc; [|done].
        destruct (H2 c Hc Hcons) as (e0 & Hl & Hr).
        exists e0. by rewrite lookup_insert_ne.
    + intros eid0 e0 Hl.
      destruct (decide (eid = eid0)) as [<-|Hne]; [by eapply H3|].
      rewrite lookup_insert_ne in Hl by done. by eapply H3.
Qed.

Lemma reachable_consistent (w : World) : reachable w → consistent w.
Proof.
  induction 1 as [items boxes|now c w Hreach IH].
  - apply consistent_initial.
  - eapply effect_consistent; [exact IH|apply handle_effect].
Qed.

(** ** Codes *)

(** C4. In any stores the calls can produce, an exchange has at most one
    unconsumed, unexpired code at any instant; and once [consumeBoxOpen]
    has succeeded with a code, presenting the same code for the same
    exchange again, at any time, fails with [InvalidCode] and changes
    nothing. *)
Theorem access_code_single_use (w : World) :
  reachable w →
  (∀ now eid, (length (live_codes now eid w) ≤ 1)%nat) ∧
  (∀ now eid code w',
     handle now (ConsumeBoxOpen eid code) w = (None, w') →
     ∀ now', handle now' (ConsumeBoxOpen eid code) w' = (Some InvalidCode, w')).
Proof.
  intros Hw%reachable_consistent. split.
  - intros now eid. unfold live_codes.
    etrans; [|apply (one_unconsumed w Hw eid)].
    apply filter_length_weaken. intros c [Hx Hu]%andb_true_iff.
    unfold unconsumed_for, CodeGenerator.usable in *.
    apply andb_true_iff in Hu as [-> _]. by rewrite Hx.
  - intros now eid code w' Hrun now'. cbn [handle] in *.
    unfold outcome in Hrun.
    destruct (consumeBoxOpen now eid code w) as [[f|s] w1] eqn:Hfirst;
      [discriminate|].
    cbn in Hrun. injection Hrun as ->.
    apply consumeBoxOpen_success in Hfirst
      as (e & e' & role & Hlook & Hval & Htr & Hex & Hcodes & Hnext).
    rewrite (consumeBoxOpen_invalid now' eid code w' e' InvalidCode);
      [reflexivity|by rewrite Hex, lookup_insert_eq|].
    unfold CodeGenerator.validate. rewrite find_none_elem_of; [done|].
    intros c Hc. rewrite Hcodes in Hc.
    destruct (CodeGenerator.scoped eid code c) eqn:Hscoped; [|done].
    assert (code_exchange c = eid) as Heid.
    { unfold CodeGenerator.scoped in Hscoped.
      apply andb_true_iff in Hscoped as [Hx _]. by apply Z.eqb_eq. }
    unfold CodeGenerator.usable.
    by rewrite (mark_consumed_all now eid code w role c Hw Hval Hc Heid).
Qed.

(** C6. A code is not usable at its expiry instant; and in any stores the
    calls can produce, validating an unconsumed code at exactly its expiry
    instant fails with [InvalidCode], as does [consumeBoxOpen] with it,
    which then changes nothing. *)
Theorem code_expired_at_expiry_instant (c : BoxAccessCode) :
  CodeGenerator.usable (expiry c) c = false ∧
  ∀ w, reachable w → c ∈ codes w → consumed c = false →
    CodeGenerator.validate (expiry c) (code_exchange c) (code_value c)
      (codes w) = inl InvalidCode ∧
    handle (expiry c) (ConsumeBoxOpen (code_exchange c) (code_value c)) w
      = (Some InvalidCode, w).
Proof.
  assert (CodeGenerator.usable (expiry c) c = false) as Hstale.
  { unfold CodeGenerator.usable. rewrite Z.ltb_irrefl. apply andb_false_r. }
  split; [exact Hstale|].
  intros w Hw%reachable_consistent Hc Hcons.
  assert (CodeGenerator.validate (expiry c) (code_exchange c) (code_value c)
            (codes w) = inl InvalidCode) as Hval.
  { unfold CodeGenerator.validate. rewrite find_none_elem_of; [done|].
    intros c' Hc'.
    destruct (CodeGenerator.scoped _ _ c' && CodeGenerator.usable _ c')
      eqn:Hhit; [exfalso|done].
    apply andb_true_iff in Hhit as [Hscoped Husable].
    assert (c' = c) as ->.
    { eapply (filter_unique (unconsumed_for (code_exchange c)));
        eauto using one_unconsumed.
      - by eapply usable_unconsumed.
      - by apply unconsumed_for_spec. }
    congruence. }
  split; [exact Hval|].
  destruct (unconsumed_fits w Hw c Hc Hcons) as (e & Hlook & _).
  cbn [handle].
  by rewrite (consumeBoxOpen_invalid _ _ _ w e InvalidCode).
Qed.

(** ** Expiry *)


















End coordinator_facts.

(** ** Worked examples *)

Lemma reachable_run `{Policy} (trace : list (Z * Call)) (w : World) :
  reachable w → reachable (run trace w).
Proof.
  revert w. induction trace as [|[t c] trace IH]; intros w Hw; [done|].
  cbn [run]. apply IH. by apply reachable_handle.
Qed.

(** The steps of [proposeExchange] write the exchange record before the
    ledger refuses item 3; it is the atomicity boundary that takes the
    record back. *)
Example proposeExchange_rolls_back :
  snd (proposeExchange_steps 0 10 20 [3] Examples.sample_world)
    ≠ Examples.sample_world ∧
  proposeExchange 0 10 20 [3] Examples.sample_world
    = (inl ItemConflict, Examples.sample_world).
Proof.
  split; [|vm_compute; reflexivity].
  intros Heq. apply (f_equal next_exchange_id) in Heq.
  vm_compute in Heq. discriminate.
Qed.

(** C4, at a concrete input: the creator's code 777 opens the box once. *)
Lemma access_code_single_use_witness :
  let w := @run Examples.sample_policy Examples.deposit_requested
             Examples.sample_world in
  let w' := snd (@handle Examples.sample_policy 3 (ConsumeBoxOpen 1 777) w) in
  @handle Examples.sample_policy 3 (ConsumeBoxOpen 1 777) w = (None, w') ∧
  @handle Examples.sample_policy 4 (ConsumeBoxOpen 1 777) w'
    = (Some InvalidCode, w').
Proof.
  split; [vm_compute; reflexivity|].
  apply (proj2 (@access_code_single_use Examples.sample_policy
                  (@run Examples.sample_policy Examples.deposit_requested
                     Examples.sample_world)
                  (reachable_run _ _ (reachable_initial _ _))) 3).
  vm_compute. reflexivity.
Defined.

(** C6, at a concrete input: the creator's code issued at time 2 expires
    at time 62 and is refused at that instant. *)
Lemma code_expired_at_expiry_instant_witness :
  @handle Examples.sample_policy 62 (ConsumeBoxOpen 1 777)
    (@run Examples.sample_policy Examples.deposit_requested
       Examples.sample_world)
  = (Some InvalidCode,
     @run Examples.sample_policy Examples.deposit_requested
       Examples.sample_world).
Proof.
  apply (proj2 (@code_expired_at_expiry_instant Examples.sample_policy
                  (mkCode 1 creator 777 2 false 62))
           (@run Examples.sample_policy Examples.deposit_requested
              Examples.sample_world)
           (reachable_run _ _ (reachable_initial _ _))).
  - vm_compute. apply list_elem_of_here.
  - reflexivity.
Defined.


(** * Further properties of the item ledger *)

Lemma select_single_spec (v : Z) (t : table) (r : item.row) :
  supabase.select_eq_id_single v t = supabase.Data r ↔
  filter (λ r, item.id r = v) t = [r].
Proof.
  unfold supabase.select_eq_id_single.
  destruct (filter _ t) as [|r0 [|r1 l]]; split; intros Heq;
    try discriminate; by simplify_eq.
Qed.

Lemma falsy_tag (o : option Z) :
  truthy o = false ↔ o = None ∨ o = Some 0.
Proof.
  destruct o as [n|]; cbn; [|by split; [left|]].
  destruct (Z.eqb_spec n 0) as [->|Hne]; cbn.
  - split; [by right|done].
  - split; [discriminate|]. intros [?|[= ?]]; congruence.
Qed.

Lemma select_after_delete (item_id : Z) (t : table) :
  filter (λ r, item.id r = item_id) (supabase.delete_match_id item_id t) = [].
Proof.
  unfold supabase.delete_match_id. induction t as [|x t IH]; [done|].
  rewrite filter_cons. destruct (decide (item.id x ≠ item_id)) as [Hne|Heq].
  - by rewrite filter_cons_False.
  - exact IH.
Qed.

Lemma deleteItem_cases (item_id : Z) (t : table) :
  (∃ r, filter (λ r, item.id r = item_id) t = [r] ∧
        truthy (item.exchange_id r) = false ∧
        ItemService.deleteItem item_id t
          = (resolved true, supabase.delete_match_id item_id t)) ∨
  ((¬ ∃ r, filter (λ r, item.id r = item_id) t = [r] ∧
           truthy (item.exchange_id r) = false) ∧
   ItemService.deleteItem item_id t = (resolved false, t)).
Proof.
  unfold ItemService.deleteItem, ItemService.deleteItem_try.
  destruct (supabase.select_eq_id_single item_id t) as [r|e] eqn:Hsel.
  - apply select_single_spec in Hsel.
    destruct (truthy (item.exchange_id r)) eqn:Htag; cbn.
    + right. split; [|done]. intros (r' & Hr' & Hfree).
      rewrite Hsel in Hr'. injection Hr' as <-. congruence.
    + left. by exists r.
  - right. split; [|done]. intros (r' & Hr' & _).
    apply select_single_spec in Hr'. congruence.
Qed.

Lemma deleteItem_removes_only_a_free_item_aux (item_id : Z) (t : table) :
  fst (ItemService.deleteItem item_id t) = resolved true →
  ∃ r, filter (λ r, item.id r = item_id) t = [r] ∧
       ∀ r', r' ∈ snd (ItemService.deleteItem item_id t) ↔
             r' ∈ t ∧ item.id r' ≠ item_id.
Proof.
  destruct (deleteItem_cases item_id t)
    as [(r & Hsel & Hfree & Hrun)|[Hnot Hrun]]; rewrite Hrun; cbn;
    [|discriminate].
  intros _. exists r. split; [done|]. intros r'.
  unfold supabase.delete_match_id. rewrite list_elem_of_filter. tauto.
Qed.

(** X1. [deleteItem] resolves to [true] exactly when one row carries the
    id and its [exchange_id] is null or 0; the table then loses that row
    and no other, and a second call for the same id resolves to [false].
    In every other case it resolves to [false] and the table is as it
    was. *)
Theorem deleteItem_removes_only_a_free_item (item_id : Z) (t : table) :
  let t' := snd (ItemService.deleteItem item_id t) in
  (fst (ItemService.deleteItem item_id t) = resolved true ↔
   ∃ r, filter (λ r, item.id r = item_id) t = [r] ∧
        (item.exchange_id r = None ∨ item.exchange_id r = Some 0)) ∧
  (fst (ItemService.deleteItem item_id t) = resolved true →
   (∀ r, r ∈ t' ↔ r ∈ t ∧ item.id r ≠ item_id) ∧
   ItemService.deleteItem item_id t' = (resolved false, t')) ∧
  (fst (ItemService.deleteItem item_id t) ≠ resolved true →
   ItemService.deleteItem item_id t = (resolved false, t)).
Proof.
  destruct (deleteItem_cases item_id t)
    as [(r & Hsel & Hfree & Hrun)|[Hnot Hrun]]; rewrite Hrun; cbn.
  - split; [|split]; [| |done].
    + split; [|done]. intros _. exists r. split; [done|]. by apply falsy_tag.
    + intros _. split.
      * intros r'. unfold supabase.delete_match_id.
        rewrite list_elem_of_filter. tauto.
      * destruct (deleteItem_cases item_id
                    (supabase.delete_match_id item_id t))
          as [(r' & Hsel' & _)|[_ Hrun']]; [|done].
        rewrite select_after_delete in Hsel'. discriminate.
  - split; [|split]; [|discriminate|done].
    split; [discriminate|]. intros (r & Hsel & Hfree). exfalso.
    apply Hnot. exists r. split; [done|]. by apply falsy_tag.
Qed.

(** X1, at a concrete input: the free item 1 is deleted, and deleting it
    again resolves to [false]. *)
Lemma deleteItem_removes_only_a_free_item_witness :
  fst (ItemService.deleteItem 1 Examples.sample_items) = resolved true ∧
  ItemService.deleteItem 1 (snd (ItemService.deleteItem 1 Examples.sample_items))
  = (resolved false, snd (ItemService.deleteItem 1 Examples.sample_items)).
Proof.
  assert (fst (ItemService.deleteItem 1 Examples.sample_items)
          = resolved true) as Hok by reflexivity.
  split; [exact Hok|].
  destruct (deleteItem_removes_only_a_free_item 1 Examples.sample_items)
    as (_ & Hdeleted & _).
  exact (proj2 (Hdeleted Hok)).
Defined.

Lemma filter_update_exchange_id (P Q : item.row → Prop)
    `{∀ r, Decision (P r)} `{∀ r, Decision (Q r)}
    (e : option Z) (ids : list Z) (t : table) :
  (∀ r, P (if decide (item.id r ∈ ids) then item.set_exchange_id e r else r)
        ↔ Q r) →
  item.id <$> filter P (supabase.update_exchange_id_in e ids t)
  = item.id <$> filter Q t.
Proof.
  intros HPQ. unfold supabase.update_exchange_id_in.
  induction t as [|r t IH]; [done|].
  cbn [fmap list_fmap]. rewrite !filter_cons.
  destruct (decide (Q r)) as [Hq|Hq].
  - rewrite decide_True by by apply HPQ.
    cbn [fmap list_fmap]. f_equal; [|exact IH].
    destruct (decide (item.id r ∈ ids)); done.
  - rewrite decide_False by by rewrite HPQ. exact IH.
Qed.

Lemma filter_update_unlisted (P : item.row → Prop) `{∀ r, Decision (P r)}
    (e : option Z) (ids : list Z) (t : table) :
  (∀ r, r ∈ t → item.id r ∈ ids →
        ¬ P r ∧ ¬ P (item.set_exchange_id e r)) →
  filter P (supabase.update_exchange_id_in e ids t) = filter P t.
Proof.
  unfold supabase.update_exchange_id_in.
  induction t as [|r t IH]; intros Hout; [done|].
  cbn [fmap list_fmap]. rewrite !filter_cons.
  assert (filter P
            ((λ r, if decide (item.id r ∈ ids)
                   then item.set_exchange_id e r else r) <$> t)
          = filter P t) as ->.
  { apply IH. intros x Hx. apply Hout. by apply elem_of_cons; right. }
  destruct (decide (item.id r ∈ ids)) as [Hin|Hnin]; [|done].
  destruct (Hout r (list_elem_of_here _ _) Hin) as [Hn1 Hn2].
  by rewrite !decide_False.
Qed.

Lemma ids_of_exchange (e : Z) (stored : table) :
  ItemService.getItemsForOrIdsExchange e true stored
  = resolved (inr (item.id <$>
      filter (λ r, item.exchange_id r = Some e) stored)).
Proof. reflexivity. Qed.

(** X2. After [addExchangeIdToItem] for exchange [e], in whatever order
    the database lists the rows of the updated table, the ids that
    [getItemsForOrIdsExchange] returns for [e] are, up to their order,
    those of the rows that were listed in the request or already tagged to
    [e]; for any other exchange they are those of its rows that were not
    listed: tagging moves a listed item out of the exchange it was in. *)
Theorem tagging_moves_items_between_exchange_lists (e : Z) (ids : list Z)
    (t stored : table) :
  stored ≡ₚ snd (ItemService.addExchangeIdToItem
                   {| exchange_id := e; item_ids := ids |} t) →
  (∃ listed,
     ItemService.getItemsForOrIdsExchange e true stored
       = resolved (inr listed) ∧
     listed ≡ₚ item.id <$>
       filter (λ r, item.id r ∈ ids ∨ item.exchange_id r = Some e) t) ∧
  ∀ e', e' ≠ e →
    ∃ listed,
      ItemService.getItemsForOrIdsExchange e' true stored
        = resolved (inr listed) ∧
      listed ≡ₚ item.id <$>
        filter (λ r, (item.id r ∉ ids) ∧ item.exchange_id r = Some e') t.
Proof.
  cbn [snd ItemService.addExchangeIdToItem exchange_id item_ids].
  intros Hstored. split.
  - eexists. split; [apply ids_of_exchange|].
    rewrite Hstored. apply reflexive_eq.
    apply filter_update_exchange_id. intros r.
    destruct (decide (item.id r ∈ ids)); cbn; tauto.
  - intros e' Hne. eexists. split; [apply ids_of_exchange|].
    rewrite Hstored. apply reflexive_eq.
    apply filter_update_exchange_id. intros r.
    destruct (decide (item.id r ∈ ids)); cbn; [|tauto].
    split; [intros [= ?]; congruence|tauto].
Qed.

(** X2, at a concrete input: item 1 is tagged to exchange 9, which holds
    item 3, and the database lists the updated row last; exchange 9 is
    then reported with the items 3 and 1. *)
Lemma tagging_moves_items_between_exchange_lists_witness :
  ∃ listed,
    ItemService.getItemsForOrIdsExchange 9 true
      [item.Row 2 0 10 20 15 10 5 "lamp" 300 None;
       item.Row 3 0 10 20 25 8 8 "drill" 900 (Some 9);
       item.Row 1 0 10 20 30 20 10 "tent" 2500 (Some 9)]
      = resolved (inr listed) ∧
    listed ≡ₚ [1; 3].
Proof.
  assert ([item.Row 2 0 10 20 15 10 5 "lamp" 300 None;
           item.Row 3 0 10 20 25 8 8 "drill" 900 (Some 9);
           item.Row 1 0 10 20 30 20 10 "tent" 2500 (Some 9)]
          ≡ₚ snd (ItemService.addExchangeIdToItem
                    {| exchange_id := 9; item_ids := [1] |}
                    Examples.sample_items)) as Hstored.
  { symmetry.
    apply (Permutation_cons_append
             [item.Row 2 0 10 20 15 10 5 "lamp" 300 None;
              item.Row 3 0 10 20 25 8 8 "drill" 900 (Some 9)]
             (item.Row 1 0 10 20 30 20 10 "tent" 2500 (Some 9))). }
  destruct (tagging_moves_items_between_exchange_lists 9 [1]
              Examples.sample_items _ Hstored) as [Hlisted _].
  exact Hlisted.
Defined.

Lemma same_id_same_row (t : table) (r r' : item.row) :
  NoDup (item.id <$> t) → r ∈ t → r' ∈ t → item.id r = item.id r' → r = r'.
Proof.
  induction t as [|x t IH]; intros Hnd Hr Hr' Hid.
  - by apply elem_of_nil in Hr.
  - cbn in Hnd. apply NoDup_cons in Hnd as [Hx Hnd].
    apply elem_of_cons in Hr as [->|Hr]; apply elem_of_cons in Hr' as [->|Hr'].
    + done.
    + exfalso. apply Hx. rewrite Hid. by apply list_elem_of_fmap_2.
    + exfalso. apply Hx. rewrite <- Hid. by apply list_elem_of_fmap_2.
    + by apply IH.
Qed.

(** X3. Clearing the exchange reference of exactly the items that
    [getItemsForOrIdsExchange] lists for exchange [e] leaves [e] with no
    item, in either result shape; and when ids are unique in the table,
    every other exchange keeps the items it had. *)
Theorem clearing_listed_items_empties_the_exchange (e : Z) (ids : list Z)
    (t : table) :
  ItemService.getItemsForOrIdsExchange e true t = resolved (inr ids) →
  let t' := snd (ItemService.deleteExchangeFromItems
                   {| exchange_id := e; item_ids := ids |} t) in
  ItemService.getItemsForOrIdsExchange e true t' = resolved (inr []) ∧
  ItemService.getItemsForOrIdsExchange e false t' = resolved (inl []) ∧
  (NoDup (item.id <$> t) → ∀ e' b, e' ≠ e →
     ItemService.getItemsForOrIdsExchange e' b t'
       = ItemService.getItemsForOrIdsExchange e' b t).
Proof.
  unfold ItemService.getItemsForOrIdsExchange, supabase.select_eq_exchange_id.
  cbn. intros [= <-].
  assert (filter (λ r, item.exchange_id r = Some e)
            (supabase.update_exchange_id_in None
               (item.id <$> filter (λ r, item.exchange_id r = Some e) t) t)
          = []) as Hnone.
  { destruct (filter _ (supabase.update_exchange_id_in _ _ _))
      as [|r l] eqn:Hf; [done|exfalso].
    assert (r ∈ filter (λ r, item.exchange_id r = Some e)
              (supabase.update_exchange_id_in None
                 (item.id <$> filter (λ r, item.exchange_id r = Some e) t) t))
      as Hr by (rewrite Hf; apply list_elem_of_here).
    apply list_elem_of_filter in Hr as [Htag Hr].
    unfold supabase.update_exchange_id_in in Hr.
    apply list_elem_of_fmap in Hr as (r0 & -> & Hr0).
    destruct (decide (item.id r0 ∈ _)) as [|Hout]; [discriminate|].
    apply Hout, list_elem_of_fmap_2, list_elem_of_filter. done. }
  rewrite Hnone. split; [done|]. split; [done|].
  intros Hnd e' b Hne.
  rewrite filter_update_unlisted; [done|].
  intros r Hr Hid. cbn. split; [|discriminate].
  intros Htag. apply list_elem_of_fmap in Hid as (r1 & Hid & Hr1).
  apply list_elem_of_filter in Hr1 as [Htag1 Hr1].
  assert (r = r1) as -> by by eapply same_id_same_row.
  congruence.
Qed.

(** X3, at a concrete input: item 3 is the only item of exchange 9. *)
Lemma clearing_listed_items_empties_the_exchange_witness :
  ItemService.getItemsForOrIdsExchange 9 true
    (snd (ItemService.deleteExchangeFromItems
            {| exchange_id := 9; item_ids := [3] |} Examples.sample_items))
  = resolved (inr []).
Proof.
  apply (clearing_listed_items_empties_the_exchange 9 [3]
           Examples.sample_items).
  reflexivity.
Defined.

Lemma sizes_of_updated (e : option Z) (tagged ids : list Z) (t : table) :
  (λ r, new_ItemSizeDto (item.length r) (item.width r) (item.height r)
          (item.id r))
    <$> filter (λ r, item.id r ∈ ids)
          (supabase.update_exchange_id_in e tagged t)
  = (λ r, new_ItemSizeDto (item.length r) (item.width r) (item.height r)
            (item.id r))
      <$> filter (λ r, item.id r ∈ ids) t.
Proof.
  unfold supabase.update_exchange_id_in.
  induction t as [|r t IH]; [done|].
  cbn [fmap list_fmap]. rewrite !filter_cons.
  assert (item.id (if decide (item.id r ∈ tagged)
                   then item.set_exchange_id e r else r) = item.id r) as Hid
    by by destruct (decide (item.id r ∈ tagged)).
  rewrite Hid. destruct (decide (item.id r ∈ ids)); [|exact IH].
  cbn [fmap list_fmap]. rewrite IH. f_equal.
  by destruct (decide (item.id r ∈ tagged)).
Qed.

Lemma sizes_ignore_tags (e : option Z) (tagged ids : list Z) (t : table) :
  ItemService.retrieveItemSizesAndCheckExchange ids true
    (supabase.update_exchange_id_in e tagged t)
  = ItemService.retrieveItemSizesAndCheckExchange ids true t.
Proof.
  unfold ItemService.retrieveItemSizesAndCheckExchange,
    ItemService.retrieveItemSizesAndCheckExchange_try,
    supabase.select_in_id.
  cbn [supabase.unwrap await negb andb try_catch].
  by rewrite sizes_of_updated.
Qed.

Lemma check_resolves_like_sizes (ids : list Z) (t : table) :
  is_resolved (ItemService.retrieveItemSizesAndCheckExchange ids false t)
    = true →
  ItemService.retrieveItemSizesAndCheckExchange ids false t
  = ItemService.retrieveItemSizesAndCheckExchange ids true t.
Proof.
  unfold ItemService.retrieveItemSizesAndCheckExchange,
    ItemService.retrieveItemSizesAndCheckExchange_try, supabase.select_in_id.
  cbn. destruct (existsb _ _); cbn; [discriminate|done].
Qed.

(** X4. The exchange check follows the tagging: once
    [addExchangeIdToItem] has tagged a list that names a stored item, the
    check for that list is rejected; once [deleteExchangeFromItems] has
    cleared the same list, the check resolves again, with the sizes the
    table gave before any tagging.  The sizes themselves never depend on
    the tags. *)
Theorem exchange_check_follows_tagging (e : Z) (ids : list Z) (t : table) :
  let dto := {| exchange_id := e; item_ids := ids |} in
  let tagged := snd (ItemService.addExchangeIdToItem dto t) in
  let cleared := snd (ItemService.deleteExchangeFromItems dto tagged) in
  ((∃ r, r ∈ t ∧ item.id r ∈ ids) →
   ItemService.retrieveItemSizesAndCheckExchange ids false tagged
     = rejected (Error "Failed to fetch item sizes")) ∧
  ItemService.retrieveItemSizesAndCheckExchange ids true tagged
    = ItemService.retrieveItemSizesAndCheckExchange ids true t ∧
  ItemService.retrieveItemSizesAndCheckExchange ids false cleared
    = ItemService.retrieveItemSizesAndCheckExchange ids true t ∧
  is_resolved (ItemService.retrieveItemSizesAndCheckExchange ids false cleared)
    = true.
Proof.
  cbv zeta. unfold ItemService.addExchangeIdToItem,
    ItemService.deleteExchangeFromItems.
  cbn [snd item_ids exchange_id].
  assert (ItemService.retrieveItemSizesAndCheckExchange ids false
            (supabase.update_exchange_id_in None ids
               (supabase.update_exchange_id_in (Some e) ids t))
          = ItemService.retrieveItemSizesAndCheckExchange ids true t) as Hclear.
  { rewrite check_resolves_like_sizes; [by rewrite !sizes_ignore_tags|].
    destruct (ItemService.retrieveItemSizesAndCheckExchange ids false _)
      as [l|err] eqn:Hcheck; [done|exfalso].
    assert (err = Error "Failed to fetch item sizes") as ->.
    { unfold ItemService.retrieveItemSizesAndCheckExchange in Hcheck.
      destruct (ItemService.retrieveItemSizesAndCheckExchange_try _ _ _);
        cbn in Hcheck; congruence. }
    apply retrieve_check_rejects_iff in Hcheck as (r & Hr & Hid & Htag).
    apply Htag. eapply update_exchange_id_in_listed; eassumption. }
  split; [|split; [apply sizes_ignore_tags|split; [exact Hclear|]]].
  - intros (r & Hr & Hid). apply retrieve_check_rejects_iff.
    exists (item.set_exchange_id (Some e) r). split; [|by split].
    unfold supabase.update_exchange_id_in. apply list_elem_of_fmap.
    exists r. split; [|done]. by rewrite decide_True.
  - rewrite Hclear. reflexivity.
Qed.

(** X4, at a concrete input: after tagging the free items 1 and 2 to
    exchange 5 the check for them is rejected. *)
Lemma exchange_check_follows_tagging_witness :
  ItemService.retrieveItemSizesAndCheckExchange [1; 2] false
    (snd (ItemService.addExchangeIdToItem
            {| exchange_id := 5; item_ids := [1; 2] |} Examples.sample_items))
  = rejected (Error "Failed to fetch item sizes").
Proof.
  destruct (exchange_check_follows_tagging 5 [1; 2] Examples.sample_items)
    as (Hrejected & _).
  apply Hrejected.
  exists (item.Row 1 0 10 20 30 20 10 "tent" 2500 None).
  split; [apply list_elem_of_here|apply list_elem_of_here].
Defined.

(** X5. What [createItem] does with the reply to its friendship
    question.  On [true] it appends one row, not in any exchange, carrying
    the two user ids of the request, and leaves the stored rows alone; the
    new item is then the last of the owner's items and the last of the
    friend's forgotten items.  On [false] it is rejected with the "not
    friends" error, on a rejected reply with that rejection, and in both
    cases nothing is inserted. *)
Theorem createItem_by_reply (client : ItemService.userClient) (now : Z)
    (dto : CreateItemDto) (t : table) :
  match ItemService.send_checkIfFriends client (ci_user_id dto)
          (ci_friend_id dto) with
  | resolved true =>
      ∃ row,
        ItemService.createItem client now dto t
          = (resolved (new_ItemDto row), t ++ [row]) ∧
        item.exchange_id row = None ∧
        item.user_id row = ci_user_id dto ∧
        item.friend_id row = ci_friend_id dto ∧
        (∀ l, ItemService.getUserItems (ci_user_id dto) true t = resolved l →
              ItemService.getUserItems (ci_user_id dto) true (t ++ [row])
                = resolved (l ++ [new_ItemDto row])) ∧
        (∀ l, ItemService.getUserItems (ci_friend_id dto) false t = resolved l →
              ItemService.getUserItems (ci_friend_id dto) false (t ++ [row])
                = resolved (l ++ [new_ItemDto row]))
  | resolved false =>
      ItemService.createItem client now dto t
        = (rejected (Error
             "Cannot create item: The specified users are not friends."), t)
  | rejected e =>
      ItemService.createItem client now dto t = (rejected e, t)
  end.
Proof.
  unfold ItemService.createItem.
  destruct (ItemService.send_checkIfFriends client _ _) as [[|]|e]; cbn;
    [|done..].
  eexists. split; [reflexivity|]. cbn. repeat split.
  - intros l. unfold ItemService.getUserItems, supabase.select_eq_user_id.
    cbn. intros [= <-]. rewrite filter_app, fmap_app.
    rewrite filter_cons_True by done. done.
  - intros l. unfold ItemService.getUserItems, supabase.select_eq_friend_id.
    cbn. intros [= <-]. rewrite filter_app, fmap_app.
    rewrite filter_cons_True by done. done.
Qed.

(** X5, at a concrete input: with a client that answers [true], an item
    is created in an empty table. *)
Lemma createItem_by_reply_witness :
  ∃ row,
    ItemService.createItem
      {| ItemService.send_checkIfFriends := λ _ _, resolved true |} 0
      {| ci_user_id := 1; ci_friend_id := 2; ci_heightInCm := 3;
         ci_lengthInCm := 4; ci_name := "tent"; ci_weightInGrams := 5;
         ci_widthInCm := 6 |} []
    = (resolved (new_ItemDto row), [row]) ∧
    item.exchange_id row = None.
Proof.
  destruct (createItem_by_reply
              {| ItemService.send_checkIfFriends := λ _ _, resolved true |} 0
              {| ci_user_id := 1; ci_friend_id := 2; ci_heightInCm := 3;
                 ci_lengthInCm := 4; ci_name := "tent"; ci_weightInGrams := 5;
                 ci_widthInCm := 6 |} [])
    as (row & Hrun & Hfree & _).
  exists row. split; [exact Hrun|exact Hfree].
Defined.

(** * Further properties of the item controllers *)

Lemma template_inj (prefix : string) (a b : Z) :
  template prefix a = template prefix b → a = b.
Proof.
  unfold template. intros Heq%(inj (String.app prefix)).
  by apply (inj pretty).
Qed.

Lemma cache_get_set_ne {V} (now t0 ttl : Z) (k k' : string) (v : V)
    (c : Cache V) :
  k ≠ k' →
  CacheManager.get now k' (CacheManager.set t0 k v ttl c)
  = CacheManager.get now k' c.
Proof.
  intros Hne. unfold CacheManager.get, CacheManager.set.
  by rewrite lookup_insert_ne.
Qed.

Lemma cache_get_set_stale {V} (now t0 ttl : Z) (k : string) (v : V)
    (c : Cache V) :
  ttl < now - t0 →
  CacheManager.get now k (CacheManager.set t0 k v ttl c) = None.
Proof.
  intros Hlt. unfold CacheManager.get, CacheManager.set.
  rewrite lookup_insert_eq. unfold CacheManager.fresh. cbn.
  destruct (Z.leb_spec (now - t0) ttl); [lia|done].
Qed.

Lemma getUserItems_cache (now id : Z) (cache : Cache (list ItemDto))
    (t : table) :
  snd (ItemController.getUserItems now id cache t) = cache ∨
  ∃ l, snd (ItemController.getUserItems now id cache t)
       = CacheManager.set now (template "userItems:" id) l 18000 cache.
Proof.
  unfold ItemController.getUserItems.
  destruct (CacheManager.get _ _ _); [by left|].
  destruct (ItemService.getUserItems _ _ _); [right; eauto|by left].
Qed.

Lemma userItems_key_ne_forgotten (a b : Z) :
  template "userItems:" a ≠ template "userForgottenItems:" b.
Proof.
  unfold template. intros Heq.
  cbv beta iota fix delta [String.append] in Heq. discriminate.
Qed.

Lemma userItems_key_ne_all (a : Z) : template "userItems:" a ≠ "allItems".
Proof.
  unfold template. intros Heq.
  cbv beta iota fix delta [String.append] in Heq. discriminate.
Qed.

(** X6. The cache entries of [getUserItems] are kept apart by id: a call
    for user [A] changes nothing in what a later call for another user [B]
    returns, nor in what [getUserForgotenItems] or [getAllItems] return
    for anybody. *)
Theorem getUserItems_cache_is_per_user (now0 now A B : Z)
    (cache : Cache (list ItemDto)) (t t' : table) :
  A ≠ B →
  let cache' := snd (ItemController.getUserItems now0 A cache t) in
  ItemController.getUserItems now B cache' t'
    = (fst (ItemController.getUserItems now B cache t'),
       snd (ItemController.getUserItems now B cache' t')) ∧
  fst (ItemController.getUserItems now B cache' t')
    = fst (ItemController.getUserItems now B cache t') ∧
  (∀ C, fst (ItemController.getUserForgotenItems now C cache' t')
        = fst (ItemController.getUserForgotenItems now C cache t')) ∧
  fst (ItemControllerMore.getAllItems now cache' t')
    = fst (ItemControllerMore.getAllItems now cache t').
Proof.
  intros Hne cache'.
  assert (∀ k, k ≠ template "userItems:" A →
               CacheManager.get now k cache' = CacheManager.get now k cache)
    as Hother.
  { intros k Hk. subst cache'.
    destruct (getUserItems_cache now0 A cache t) as [->|[l ->]]; [done|].
    by apply cache_get_set_ne. }
  assert (fst (ItemController.getUserItems now B cache' t')
          = fst (ItemController.getUserItems now B cache t')) as Hsame.
  { unfold ItemController.getUserItems. rewrite Hother.
    - destruct (CacheManager.get _ _ cache); [done|].
      by destruct (ItemService.getUserItems _ _ _).
    - intros Heq%template_inj. congruence. }
  split; [|split; [exact Hsame|split]].
  - rewrite <- Hsame. by destruct (ItemController.getUserItems now B cache' t').
  - intros C. unfold ItemController.getUserForgotenItems. rewrite Hother.
    + destruct (CacheManager.get _ _ cache); [done|].
      by destruct (ItemService.getUserItems _ _ _).
    + intros Heq. by eapply userItems_key_ne_forgotten.
  - unfold ItemControllerMore.getAllItems. rewrite Hother.
    + destruct (CacheManager.get _ _ cache); [done|].
      by destruct (ItemService.getAllItems _).
    + intros Heq. by eapply userItems_key_ne_all.
Qed.

(** X6, at a concrete input: user 10's items are cached, user 20 still
    gets user 20's. *)
Lemma getUserItems_cache_is_per_user_witness :
  fst (ItemController.getUserItems 5 20
         (snd (ItemController.getUserItems 0 10 ∅ Examples.sample_items))
         Examples.sample_items)
  = fst (ItemController.getUserItems 5 20 ∅ Examples.sample_items).
Proof.
  assert (10 ≠ 20) as Hne by lia.
  destruct (getUserItems_cache_is_per_user 0 5 10 20 ∅ Examples.sample_items
              Examples.sample_items Hne) as (_ & Hsame & _).
  exact Hsame.
Defined.

(** X7. [deleteItem] does not touch the cache of [getAllItems]: once the
    list has been cached, a successful deletion is not seen for as long as
    the entry lives, and the deleted item is still served; after that the
    list is read from the table again. *)
Theorem getAllItems_serves_deleted_item (t0 item_id : Z)
    (cache : Cache (list ItemDto)) (t : table) :
  CacheManager.get t0 "allItems" cache = None →
  fst (ItemController.deleteItem item_id t) = resolved true →
  let cache' := snd (ItemControllerMore.getAllItems t0 cache t) in
  let t' := snd (ItemController.deleteItem item_id t) in
  (∀ now, t0 ≤ now < t0 + 18000 →
     ItemControllerMore.getAllItems now cache' t'
       = (resolved (new_ItemDto <$> t), cache')) ∧
  (∃ r, r ∈ t ∧ item.id r = item_id ∧ r ∉ t') ∧
  (∀ now, t0 + 18000 < now →
     fst (ItemControllerMore.getAllItems now cache' t')
       = resolved (new_ItemDto <$> t')).
Proof.
  intros Hmiss Hdel cache' t'.
  assert (cache' = CacheManager.set t0 "allItems" (new_ItemDto <$> t) 18000
                     cache) as Hcache.
  { subst cache'. unfold ItemControllerMore.getAllItems.
    by rewrite Hmiss. }
  assert (fst (ItemService.deleteItem item_id t) = resolved true) as Hsvc.
  { unfold ItemController.deleteItem in Hdel.
    destruct (ItemService.deleteItem item_id t) as [[b|e] t1]; cbn in *;
      congruence. }
  assert (t' = snd (ItemService.deleteItem item_id t)) as Ht'.
  { subst t'. unfold ItemController.deleteItem.
    by destruct (ItemService.deleteItem item_id t). }
  destruct (deleteItem_removes_only_a_free_item_aux item_id t Hsvc)
    as (r & Hsel & Hmem).
  split; [|split].
  - intros now Hnow. unfold ItemControllerMore.getAllItems.
    rewrite Hcache, cache_get_set_within_ttl by lia. done.
  - exists r.
    assert (r ∈ filter (λ r, item.id r = item_id) t) as Hr
      by (rewrite Hsel; apply list_elem_of_here).
    apply list_elem_of_filter in Hr as [Hid Hr].
    split; [done|]. split; [done|].
    rewrite Ht'. intros Hin. apply Hmem in Hin as [_ Hne]. done.
  - intros now Hnow. unfold ItemControllerMore.getAllItems.
    rewrite Hcache, cache_get_set_stale by lia. done.
Qed.

(** X7, at a concrete input: item 1 is deleted after the list was
    cached. *)
Lemma getAllItems_serves_deleted_item_witness :
  ItemControllerMore.getAllItems 1000
    (snd (ItemControllerMore.getAllItems 0 ∅ Examples.sample_items))
    (snd (ItemController.deleteItem 1 Examples.sample_items))
  = (resolved (new_ItemDto <$> Examples.sample_items),
     snd (ItemControllerMore.getAllItems 0 ∅ Examples.sample_items)).
Proof.
  assert (CacheManager.get 0 "allItems" (∅ : Cache (list ItemDto)) = None)
    as Hmiss by reflexivity.
  assert (fst (ItemController.deleteItem 1 Examples.sample_items)
          = resolved true) as Hdel by reflexivity.
  destruct (getAllItems_serves_deleted_item 0 1 ∅ Examples.sample_items
              Hmiss Hdel) as (Hserved & _).
  apply Hserved. lia.
Defined.

(** * Properties of the friend service over the user table *)

Lemma findOne_id (i : Z) (users : list User.entity) (u : User.entity) :
  UserTable.findOne i users = Some u → User.id u = i ∧ u ∈ users.
Proof.
  unfold UserTable.findOne. intros [Hin Hid]%find_some_elem_of.
  by apply Z.eqb_eq in Hid.
Qed.

Lemma findOne_is_Some (i : Z) (users : list User.entity) :
  is_Some (UserTable.findOne i users) ↔ i ∈ User.id <$> users.
Proof.
  unfold UserTable.findOne. induction users as [|x l IH]; cbn.
  - split; [by intros [? ?]|]. intros Hin. by apply elem_of_nil in Hin.
  - destruct (Z.eqb_spec (User.id x) i) as [->|Hne].
    + split; [intros _; apply list_elem_of_here|eauto].
    + rewrite IH, elem_of_cons. split; [by right|]. intros [?|?]; congruence.
Qed.

Lemma existsb_id (i : Z) (users : list User.entity) :
  existsb (λ x, User.id x =? i) users = true ↔ i ∈ User.id <$> users.
Proof.
  rewrite existsb_elem_of, list_elem_of_fmap. split.
  - intros (x & Hx & Hid%Z.eqb_eq). eauto.
  - intros (x & -> & Hx). exists x. split; [done|apply Z.eqb_refl].
Qed.

(** Saving an entity whose id is stored rewrites the rows with that id. *)
Lemma save_stored (u : User.entity) (users : list User.entity) :
  User.id u ∈ User.id <$> users →
  UserTable.save u users
  = (λ x, if User.id x =? User.id u then u else x) <$> users.
Proof.
  intros Hin%existsb_id. unfold UserTable.save. by rewrite Hin.
Qed.

Lemma save_ids (u : User.entity) (users : list User.entity) :
  User.id u ∈ User.id <$> users →
  User.id <$> UserTable.save u users = User.id <$> users.
Proof.
  intros Hin. rewrite save_stored by done.
  rewrite <- list_fmap_compose. apply list_fmap_ext. intros _ x _. cbn.
  by destruct (Z.eqb_spec (User.id x) (User.id u)).
Qed.

Lemma findOne_save_eq (u : User.entity) (users : list User.entity) :
  User.id u ∈ User.id <$> users →
  UserTable.findOne (User.id u) (UserTable.save u users) = Some u.
Proof.
  intros Hin. rewrite save_stored by done. unfold UserTable.findOne.
  induction users as [|x l IH]; [by apply elem_of_nil in Hin|].
  cbn. destruct (Z.eqb_spec (User.id x) (User.id u)) as [Heq|Hne].
  - by rewrite Z.eqb_refl.
  - destruct (Z.eqb_spec (User.id x) (User.id u)); [done|].
    apply IH. cbn in Hin. apply elem_of_cons in Hin as [?|?]; [congruence|done].
Qed.

Lemma findOne_save_ne (i : Z) (u : User.entity) (users : list User.entity) :
  User.id u ∈ User.id <$> users → i ≠ User.id u →
  UserTable.findOne i (UserTable.save u users) = UserTable.findOne i users.
Proof.
  intros Hin Hne. rewrite save_stored by done. unfold UserTable.findOne.
  clear Hin. induction users as [|x l IH]; [done|].
  cbn. destruct (Z.eqb_spec (User.id x) (User.id u)) as [Heq|Hne'].
  - destruct (Z.eqb_spec (User.id u) i); [congruence|].
    destruct (Z.eqb_spec (User.id x) i); [congruence|]. exact IH.
  - destruct (Z.eqb_spec (User.id x) i); [done|]. exact IH.
Qed.

Lemma set_friends_id (fs : list Z) (u : User.entity) :
  User.id (UserTable.set_friends fs u) = User.id u.
Proof. reflexivity. Qed.

Lemma is_friend_check (f : Z) (fs : list Z) :
  existsb (λ x, x =? f) fs = true ↔ f ∈ fs.
Proof.
  rewrite existsb_elem_of. split.
  - by intros (x & Hx & ->%Z.eqb_eq).
  - intros Hin. exists f. split; [done|apply Z.eqb_refl].
Qed.

Lemma checkIfFriends_table (u f : Z) (users : list User.entity) :
  UserFriendStore.checkIfFriends u f users
  = match UserTable.findOne u users, UserTable.findOne f users with
    | None, _ => rejected (NotFoundException "User not found.")
    | Some _, None => rejected (NotFoundException "Friend not found.")
    | Some user, Some _ =>
        if bool_decide (f ∈ User.friends user)
        then rejected (ConflictException "The specified users are friends.")
        else resolved false
    end.
Proof.
  unfold UserFriendStore.checkIfFriends, UserFriendService.checkIfFriends,
    UserFriendService.checkIfFriends_try, memory_repository. cbn.
  fold (UserTable.findOne u users). fold (UserTable.findOne f users).
  destruct (UserTable.findOne u users) as [user|]; cbn; [|done].
  destruct (UserTable.findOne f users) as [friend|]; cbn; [|done].
  destruct (existsb _ _) eqn:Hex.
  - apply is_friend_check in Hex. by rewrite bool_decide_eq_true_2.
  - rewrite bool_decide_eq_false_2; [done|].
    intros Hin%is_friend_check. congruence.
Qed.

Lemma addFriend_resolved (dto : ToggleFriendDto) (users : list User.entity) :
  fst (UserFriendStore.addFriend dto users) = resolved tt →
  User.id <$> snd (UserFriendStore.addFriend dto users) = User.id <$> users ∧
  UserFriendStore.checkIfFriends (userId dto) (friendId dto)
    (snd (UserFriendStore.addFriend dto users))
    = rejected (ConflictException "The specified users are friends.") ∧
  UserFriendStore.checkIfFriends (friendId dto) (userId dto)
    (snd (UserFriendStore.addFriend dto users))
    = rejected (ConflictException "The specified users are friends.").
Proof.
  unfold UserFriendStore.addFriend, UserFriendStore.addFriend_try.
  destruct (UserTable.findOne (userId dto) users) as [user|] eqn:Hu; cbn;
    [|discriminate].
  destruct (UserTable.findOne (friendId dto) users) as [friend|] eqn:Hf; cbn;
    [|discriminate].
  destruct (existsb _ (User.friends user)) eqn:Hex; cbn; [discriminate|].
  intros _.
  apply findOne_id in Hu as [Huid Huin]. apply findOne_id in Hf as [Hfid Hfin].
  set (user' := UserTable.set_friends (User.friends user ++ [User.id friend])
                  user).
  set (friend' := UserTable.set_friends (User.friends friend ++ [User.id user])
                    friend).
  assert (User.id user' ∈ User.id <$> users) as Hin1
    by (cbn; by apply list_elem_of_fmap_2).
  assert (User.id friend' ∈ User.id <$> UserTable.save user' users) as Hin2
    by (rewrite save_ids by done; cbn; by apply list_elem_of_fmap_2).
  assert (UserTable.findOne (friendId dto)
            (UserTable.save friend' (UserTable.save user' users))
          = Some friend') as Hf'.
  { rewrite <- Hfid. by apply (findOne_save_eq friend'). }
  assert (∃ x, UserTable.findOne (userId dto)
                 (UserTable.save friend' (UserTable.save user' users))
               = Some x ∧ friendId dto ∈ User.friends x) as (x & Hx & Hxf).
  { destruct (decide (userId dto = friendId dto)) as [Heq|Hne].
    - exists friend'. rewrite Heq. split; [done|].
      cbn. rewrite <- Heq, <- Huid. apply elem_of_app. right.
      apply list_elem_of_here.
    - exists user'. split.
      + rewrite findOne_save_ne; [|exact Hin2|cbn; congruence].
        rewrite <- Huid. by apply (findOne_save_eq user').
      + cbn. rewrite Hfid. apply elem_of_app. right. apply list_elem_of_here. }
  split; [|split].
  - by rewrite !save_ids.
  - rewrite checkIfFriends_table, Hx, Hf'.
    by rewrite bool_decide_eq_true_2.
  - rewrite checkIfFriends_table, Hx, Hf'.
    rewrite bool_decide_eq_true_2; [done|].
    cbn. rewrite Huid. apply elem_of_app. right. apply list_elem_of_here.
Qed.

(** X8. When [addFriend] resolves, nobody was added to or removed from
    the user table and the two users are friends in both directions:
    [checkIfFriends] is rejected with its [ConflictException] whichever
    way round it is asked.  When [addFriend] is rejected the table is as
    it was, and the rejection is the [NotFoundException] for a missing
    user or the [ConflictException] for a friend already listed. *)
Theorem addFriend_makes_mutual_friends (dto : ToggleFriendDto)
    (users : list User.entity) :
  let users' := snd (UserFriendStore.addFriend dto users) in
  (fst (UserFriendStore.addFriend dto users) = resolved tt →
   User.id <$> users' = User.id <$> users ∧
   UserFriendStore.checkIfFriends (userId dto) (friendId dto) users'
     = rejected (ConflictException "The specified users are friends.") ∧
   UserFriendStore.checkIfFriends (friendId dto) (userId dto) users'
     = rejected (ConflictException "The specified users are friends.")) ∧
  (∀ e, fst (UserFriendStore.addFriend dto users) = rejected e →
        users' = users ∧
        (e = NotFoundException "User or friend not found." ∨
         e = ConflictException "Friendship already exists.")).
Proof.
  cbv zeta. split; [apply addFriend_resolved|].
  unfold UserFriendStore.addFriend, UserFriendStore.addFriend_try.
  destruct (UserTable.findOne (userId dto) users) as [user|]; cbn;
    [|intros e [= <-]; eauto].
  destruct (UserTable.findOne (friendId dto) users) as [friend|]; cbn;
    [|intros e [= <-]; eauto].
  destruct (existsb _ (User.friends user)); cbn;
    [intros e [= <-]; eauto|discriminate].
Qed.

(** X8, at a concrete input: Ann and Cid become friends. *)
Lemma addFriend_makes_mutual_friends_witness :
  UserFriendStore.checkIfFriends 3 1
    (snd (UserFriendStore.addFriend {| userId := 1; friendId := 3 |}
            Examples2.three_users))
  = rejected (ConflictException "The specified users are friends.").
Proof.
  assert (fst (UserFriendStore.addFriend {| userId := 1; friendId := 3 |}
                 Examples2.three_users) = resolved tt) as Hok by reflexivity.
  destruct (proj1 (addFriend_makes_mutual_friends
                     {| userId := 1; friendId := 3 |} Examples2.three_users)
              Hok) as (_ & _ & Hback).
  exact Hback.
Defined.

Lemma filter_out_length (f : Z) (fs : list Z) :
  Nat.eqb (length fs) (length (List.filter (λ x, negb (x =? f)) fs)) = true
  ↔ f ∉ fs.
Proof.
  rewrite Nat.eqb_eq. induction fs as [|x l IH]; cbn.
  - split; [intros _ Hin; by apply elem_of_nil in Hin|done].
  - pose proof (List.filter_length_le (λ x, negb (x =? f)) l) as Hle.
    destruct (Z.eqb_spec x f) as [->|Hne]; cbn.
    + split; [lia|]. intros Hnot. exfalso. apply Hnot, list_elem_of_here.
    + rewrite not_elem_of_cons. split.
      * intros [= Hlen]. split; [congruence|by apply IH].
      * intros [_ Hnot]. f_equal. by apply IH.
Qed.

Lemma filter_out_not_in (f : Z) (fs : list Z) :
  f ∉ List.filter (λ x, negb (x =? f)) fs.
Proof.
  intros Hin%list_elem_of_In%filter_In. destruct Hin as [_ Hne].
  by rewrite Z.eqb_refl in Hne.
Qed.

Lemma filter_out_absent (f : Z) (fs : list Z) :
  f ∉ fs → List.filter (λ x, negb (x =? f)) fs = fs.
Proof.
  induction fs as [|x l IH]; [done|]. rewrite not_elem_of_cons.
  intros [Hne Hnot]. cbn. destruct (Z.eqb_spec x f); [congruence|].
  cbn. f_equal. by apply IH.
Qed.

Lemma removeFriend_run (u f : Z) (users : list User.entity) :
  UserFriendStore.removeFriend u f users
  = match UserFriendStore.removeFriend_body u f users with
    | (resolved a, users') => (resolved a, users')
    | (rejected e, _) =>
        (UserFriendStore.only_NotFound
           "Failed to remove friend. Please try again." e, users)
    end.
Proof.
  unfold UserFriendStore.removeFriend, UserTable.transaction.
  by destruct (UserFriendStore.removeFriend_body u f users) as [[a|e] users'].
Qed.

(** X9. [removeFriend] resolves exactly when the user is stored, lists
    the friend, and the friend is stored.  It then keeps every user in the
    table and the two are friends in neither direction: [checkIfFriends]
    resolves to [false] both ways.  When it is rejected, it is with a
    [NotFoundException] and the table is as it was, also when the friend
    turns out to be missing after the user has been saved. *)
Theorem removeFriend_outcome (u f : Z) (users : list User.entity) :
  let users' := snd (UserFriendStore.removeFriend u f users) in
  (fst (UserFriendStore.removeFriend u f users) = resolved tt ↔
   ∃ user, UserTable.findOne u users = Some user ∧
           f ∈ User.friends user ∧ f ∈ User.id <$> users) ∧
  (fst (UserFriendStore.removeFriend u f users) = resolved tt →
   User.id <$> users' = User.id <$> users ∧
   UserFriendStore.checkIfFriends u f users' = resolved false ∧
   UserFriendStore.checkIfFriends f u users' = resolved false) ∧
  (∀ e, fst (UserFriendStore.removeFriend u f users) = rejected e →
        users' = users ∧ instanceof_NotFoundException e = true).
Proof.
  rewrite removeFriend_run. unfold UserFriendStore.removeFriend_body.
  destruct (UserTable.findOne u users) as [user|] eqn:Hu; cbn;
    [|split; [split; [discriminate|by intros (? & ? & _)]|
       split; [discriminate|intros e [= <-]; done]]].
  destruct (Nat.eqb (length (User.friends user)) _) eqn:Hlen; cbn.
  { apply filter_out_length in Hlen.
    split; [split; [discriminate|]|split; [discriminate|intros e [= <-]; done]].
    intros (user' & [= <-] & Hin & _). done. }
  assert (f ∈ User.friends user) as Hfriend.
  { destruct (decide (f ∈ User.friends user)) as [|Hnot]; [done|].
    apply filter_out_length in Hnot. congruence. }
  apply findOne_id in Hu as Hu'. destruct Hu' as [Huid Huin].
  set (user' := UserTable.set_friends
                  (List.filter (λ x, negb (x =? f)) (User.friends user)) user).
  assert (User.id user' ∈ User.id <$> users) as Hin1
    by (cbn; by apply list_elem_of_fmap_2).
  destruct (UserTable.findOne f (UserTable.save user' users))
    as [friend|] eqn:Hf; cbn.
  - apply findOne_id in Hf as Hf'. destruct Hf' as [Hfid Hfin].
    set (friend' := UserTable.set_friends
                      (List.filter (λ x, negb (x =? u)) (User.friends friend))
                      friend).
    assert (User.id friend' ∈ User.id <$> UserTable.save user' users) as Hin2
      by (cbn; by apply list_elem_of_fmap_2).
    assert (f ∈ User.id <$> users) as Hstored.
    { rewrite <- (save_ids user') by done. rewrite <- Hfid.
      by apply list_elem_of_fmap_2. }
    split; [split; [intros _; eauto|done]|split; [intros _|discriminate]].
    assert (UserTable.findOne f
              (UserTable.save friend' (UserTable.save user' users))
            = Some friend') as Hf2.
    { rewrite <- Hfid. by apply (findOne_save_eq friend'). }
    assert (∃ x, UserTable.findOne u
                   (UserTable.save friend' (UserTable.save user' users))
                 = Some x ∧ f ∉ User.friends x) as (x & Hx & Hxf).
    { destruct (decide (u = f)) as [->|Hne].
      - exists friend'. split; [done|]. cbn. apply filter_out_not_in.
      - exists user'. split.
        + rewrite findOne_save_ne; [|exact Hin2|cbn; congruence].
          rewrite <- Huid. by apply (findOne_save_eq user').
        + cbn. apply filter_out_not_in. }
    split; [by rewrite !save_ids|split].
    + rewrite checkIfFriends_table, Hx, Hf2.
      by rewrite bool_decide_eq_false_2.
    + rewrite checkIfFriends_table, Hx, Hf2.
      rewrite bool_decide_eq_false_2; [done|]. cbn. apply filter_out_not_in.
  - split; [split; [discriminate|]|split; [discriminate|intros e [= <-]; done]].
    intros (user0 & [= <-] & _ & Hstored). exfalso.
    assert (is_Some (UserTable.findOne f (UserTable.save user' users))) as Hsome.
    { apply findOne_is_Some. by rewrite save_ids. }
    rewrite Hf in Hsome. by destruct Hsome.
Qed.

(** X9, at a concrete input: Ann removes Bob. *)
Lemma removeFriend_outcome_witness :
  UserFriendStore.checkIfFriends 2 1
    (snd (UserFriendStore.removeFriend 1 2 Examples2.three_users))
  = resolved false.
Proof.
  assert (fst (UserFriendStore.removeFriend 1 2 Examples2.three_users)
          = resolved tt) as Hok by reflexivity.
  destruct (proj1 (proj2 (removeFriend_outcome 1 2 Examples2.three_users))
              Hok) as (_ & _ & Hback).
  exact Hback.
Defined.

Lemma set_friends_back (fs : list Z) (r : User.entity) :
  UserTable.set_friends (User.friends r) (UserTable.set_friends fs r) = r.
Proof. by destruct r. Qed.

Lemma filter_out_appended (f : Z) (fs : list Z) :
  f ∉ fs → List.filter (λ x, negb (x =? f)) (fs ++ [f]) = fs.
Proof.
  intros Hnot. rewrite List.filter_app, filter_out_absent by done.
  cbn. rewrite Z.eqb_refl. cbn. apply app_nil_r.
Qed.

Lemma same_id_same_user (users : list User.entity) (r r' : User.entity) :
  NoDup (User.id <$> users) → r ∈ users → r' ∈ users →
  User.id r = User.id r' → r = r'.
Proof.
  induction users as [|x l IH]; intros Hnd Hr Hr' Hid.
  - by apply elem_of_nil in Hr.
  - cbn in Hnd. apply NoDup_cons in Hnd as [Hx Hnd].
    apply elem_of_cons in Hr as [->|Hr]; apply elem_of_cons in Hr' as [->|Hr'].
    + done.
    + exfalso. apply Hx. rewrite Hid. by apply list_elem_of_fmap_2.
    + exfalso. apply Hx. rewrite <- Hid. by apply list_elem_of_fmap_2.
    + by apply IH.
Qed.

(** X10. For two stored users who are friends in neither direction, in a
    table with unique ids, [addFriend] followed by [removeFriend] gives
    back the table exactly as it was. *)
Theorem addFriend_then_removeFriend_restores (u f : Z)
    (users : list User.entity) (ru rf : User.entity) :
  NoDup (User.id <$> users) →
  UserTable.findOne u users = Some ru →
  UserTable.findOne f users = Some rf →
  f ∉ User.friends ru → u ∉ User.friends rf →
  fst (UserFriendStore.addFriend {| userId := u; friendId := f |} users)
    = resolved tt ∧
  UserFriendStore.removeFriend u f
    (snd (UserFriendStore.addFriend {| userId := u; friendId := f |} users))
  = (resolved tt, users).
Proof.
  intros Hnd Hu Hf Hnf Hnu.
  apply findOne_id in Hu as Hu'. destruct Hu' as [Huid Huin].
  apply findOne_id in Hf as Hf'. destruct Hf' as [Hfid Hfin].
  unfold UserFriendStore.addFriend, UserFriendStore.addFriend_try.
  cbn [userId friendId]. rewrite Hu, Hf.
  assert (existsb (λ x, x =? User.id rf) (User.friends ru) = false) as ->.
  { destruct (existsb _ _) eqn:Hex; [|done].
    apply is_friend_check in Hex. congruence. }
  cbn [try_catch fst snd]. split; [done|].
  set (ru' := UserTable.set_friends (User.friends ru ++ [User.id rf]) ru).
  set (rf' := UserTable.set_friends (User.friends rf ++ [User.id ru]) rf).
  set (users1 := UserTable.save rf' (UserTable.save ru' users)).
  assert (User.id ru' ∈ User.id <$> users) as Hin1
    by (cbn; by apply list_elem_of_fmap_2).
  assert (User.id rf' ∈ User.id <$> UserTable.save ru' users) as Hin2
    by (rewrite save_ids by done; cbn; by apply list_elem_of_fmap_2).
  assert (User.id <$> users1 = User.id <$> users) as Hids1
    by (unfold users1; by rewrite !save_ids).
  (* the user as stored after addFriend *)
  assert (∃ x, UserTable.findOne u users1 = Some x ∧
               User.friends x = User.friends ru ++ [f] ∧
               UserTable.set_friends (User.friends ru) x = ru)
    as (x & Hx & Hxf & Hxback).
  { destruct (decide (u = f)) as [Heq|Hne].
    - assert (ru = rf) as Hsame by congruence.
      exists rf'. split; [|split].
      + rewrite Heq, <- Hfid. by apply (findOne_save_eq rf').
      + cbn. rewrite <- Hsame. congruence.
      + rewrite Hsame. apply set_friends_back.
    - exists ru'. split; [|split].
      + unfold users1. rewrite findOne_save_ne; [|exact Hin2|cbn; congruence].
        rewrite <- Huid. by apply (findOne_save_eq ru').
      + cbn. congruence.
      + apply set_friends_back. }
  rewrite removeFriend_run. unfold UserFriendStore.removeFriend_body.
  rewrite Hx, Hxf, filter_out_appended by done.
  assert (Nat.eqb (length (User.friends ru ++ [f])) (length (User.friends ru))
          = false) as ->.
  { apply Nat.eqb_neq. rewrite length_app. cbn. lia. }
  rewrite Hxback.
  assert (User.id ru ∈ User.id <$> users1) as Hin3
    by (rewrite Hids1; by apply list_elem_of_fmap_2).
  (* the friend as stored after the user has been saved *)
  assert (∃ y, UserTable.findOne f (UserTable.save ru users1) = Some y ∧
               UserTable.set_friends
                 (List.filter (λ x, negb (x =? u)) (User.friends y)) y = rf)
    as (y & Hy & Hyback).
  { destruct (decide (u = f)) as [Heq|Hne].
    - assert (ru = rf) as Hsame by congruence.
      exists ru. split.
      + rewrite <- Heq, <- Huid. by apply (findOne_save_eq ru).
      + rewrite filter_out_absent by congruence. rewrite <- Hsame.
        by destruct ru.
    - exists rf'. split.
      + rewrite findOne_save_ne; [|exact Hin3|congruence].
        unfold users1. rewrite <- Hfid. by apply (findOne_save_eq rf').
      + cbn [User.friends rf' UserTable.set_friends]. rewrite Huid.
        rewrite filter_out_appended by done. by destruct rf. }
  rewrite Hy, Hyback. f_equal.
  (* the four saves, row by row *)
  assert (User.id rf ∈ User.id <$> UserTable.save ru users1) as Hin4
    by (rewrite save_ids, Hids1 by done; by apply list_elem_of_fmap_2).
  rewrite (save_stored rf) by done. rewrite (save_stored ru) by done.
  unfold users1. rewrite (save_stored rf') by done.
  rewrite (save_stored ru') by done.
  rewrite <- !list_fmap_compose.
  rewrite <- (list_fmap_id users) at 2.
  apply list_fmap_ext. intros _ x0 Hx0%list_elem_of_lookup_2.
  subst ru' rf'. cbn.
  destruct (User.id x0 =? User.id ru) eqn:E1;
    destruct (User.id x0 =? User.id rf) eqn:E2;
    destruct (User.id ru =? User.id rf) eqn:E3;
    destruct (User.id rf =? User.id ru) eqn:E4;
    repeat (cbn [User.id UserTable.set_friends];
            rewrite ?E1, ?E2, ?E3, ?E4, ?Z.eqb_refl);
    rewrite ?Z.eqb_eq, ?Z.eqb_neq in *;
    first [done | congruence
          | symmetry; eapply same_id_same_user; eauto; congruence].
Qed.

(** X10, at a concrete input: Ann befriends Cid and removes him again. *)
Lemma addFriend_then_removeFriend_restores_witness :
  UserFriendStore.removeFriend 1 3
    (snd (UserFriendStore.addFriend {| userId := 1; friendId := 3 |}
            Examples2.three_users))
  = (resolved tt, Examples2.three_users).
Proof.
  eapply (addFriend_then_removeFriend_restores 1 3 Examples2.three_users).
  - vm_compute. repeat constructor; intros Hin;
      repeat (apply elem_of_cons in Hin as [Hin|Hin]; [discriminate|]);
      by apply elem_of_nil in Hin.
  - reflexivity.
  - reflexivity.
  - cbn. intros Hin.
    repeat (apply elem_of_cons in Hin as [Hin|Hin]; [discriminate|]).
    by apply elem_of_nil in Hin.
  - cbn. intros Hin. by apply elem_of_nil in Hin.
Defined.

(** * Properties of the friend lists *)

Lemma slice_window {A} (a n : Z) (l : list A) :
  0 ≤ a → 0 ≤ n →
  slice a (a + n) l = take (Z.to_nat n) (drop (Z.to_nat a) l).
Proof.
  intros Ha Hn. unfold slice.
  destruct (Z.ltb_spec a 0); [lia|]. destruct (Z.ltb_spec (a + n) 0); [lia|].
  destruct (decide (Z.of_nat (length l) ≤ a)) as [Hout|Hin].
  - rewrite (Z.min_r a) by lia.
    rewrite (drop_ge l (Z.to_nat (Z.of_nat (length l)))) by lia.
    rewrite (drop_ge l (Z.to_nat a)) by lia.
    by rewrite !take_nil.
  - rewrite (Z.min_l a) by lia.
    destruct (decide (a + n ≤ Z.of_nat (length l))) as [Hfit|Hcut].
    + rewrite Z.min_l by lia. do 2 f_equal. lia.
    + rewrite Z.min_r by lia.
      rewrite !take_ge; [done|rewrite length_drop; lia..].
Qed.

Lemma or_default_page (n : Z) : n ≠ 0 → or_default (Some n) 1 = n.
Proof. intros Hne. cbn. by destruct (Z.eqb_spec n 0). Qed.

(** X11. The friends branch of [getFriendsOrNonFriends] for a stored user,
    with a positive page [p] and limit [l] (the defaults 1 and 10 stand in
    for a missing, unparsable or zero value).  The answer is the window of
    [l] friends that starts after the first [(p - 1) * l] of the friends
    that match the search; so it has at most [l] entries, and the answers
    to pages [p] and [p + 1] put end to end are the window of [2 * l]
    friends starting at the same place: no friend is skipped or repeated
    between consecutive pages. *)
Theorem friends_pages_are_consecutive_windows (id : Z) (query : Query)
    (users : list User.entity) (requests : list FriendRequest.entity)
    (user : User.entity) :
  let p := or_default (page query) 1 in
  let l := or_default (limit query) 10 in
  let matching := UserFriendStore.searched query
                    (UserTable.loaded_friends users user) in
  let window (start size : Z) :=
    UserDto_of <$> take (Z.to_nat size) (drop (Z.to_nat start) matching) in
  UserTable.findOne id users = Some user → 0 < p → 0 < l →
  UserFriendStore.getFriendsOrNonFriends id true query users requests
    = resolved (window ((p - 1) * l) l) ∧
  (length (window ((p - 1) * l)%Z l) ≤ Z.to_nat l)%nat ∧
  ∃ next,
    UserFriendStore.getFriendsOrNonFriends id true
      {| page := Some (p + 1); limit := limit query; search := search query |}
      users requests = resolved next ∧
    window ((p - 1) * l) l ++ next = window ((p - 1) * l) (2 * l).
Proof.
  intros p l matching window Hu Hp Hl.
  assert (∀ q : Query,
            limit q = limit query → search q = search query →
            0 < or_default (page q) 1 →
            UserFriendStore.getFriendsOrNonFriends id true q users requests
            = resolved (window ((or_default (page q) 1 - 1) * l) l)) as Hpage.
  { intros q Hql Hqs Hqp.
    unfold UserFriendStore.getFriendsOrNonFriends,
      UserFriendStore.getFriendsOrNonFriends_try.
    rewrite Hu. cbn [negb]. rewrite Hql. fold l.
    assert (UserFriendStore.searched q (UserTable.loaded_friends users user)
            = matching) as ->.
    { unfold matching, UserFriendStore.searched, searching. by rewrite Hqs. }
    set (start := (or_default (page q) 1 - 1) * l).
    assert (0 ≤ start) as Hstart by (unfold start; nia).
    destruct (Z.leb_spec (Z.of_nat (length (UserTable.loaded_friends users user)))
                start) as [Hpast|Hin]; cbn [try_catch].
    - unfold window. rewrite drop_ge; [by destruct (Z.to_nat l)|].
      assert (length matching ≤ length (UserTable.loaded_friends users user))%nat.
      { unfold matching, UserFriendStore.searched.
        destruct (searching query); [apply length_filter|done]. }
      lia.
    - unfold window. by rewrite slice_window by lia. }
  split; [by apply Hpage|]. split.
  - unfold window. rewrite length_fmap, length_take. lia.
  - eexists. split.
    + rewrite Hpage; [reflexivity|done|done|].
      cbn [page]. rewrite or_default_page; lia.
    + cbn [page]. rewrite or_default_page by lia.
      unfold window. rewrite <- fmap_app. f_equal.
      replace (Z.to_nat ((p + 1 - 1) * l))
        with (Z.to_nat ((p - 1) * l) + Z.to_nat l)%nat by nia.
      rewrite <- drop_drop, take_take_drop. f_equal. lia.
Qed.

(** X11, at a concrete input: Ann's friends, two per page. *)
Lemma friends_pages_are_consecutive_windows_witness :
  UserFriendStore.getFriendsOrNonFriends 1 true
    {| page := None; limit := Some 2; search := None |}
    Examples2.three_users []
  = resolved [new_UserDto "Bob" "bob@example.org" 2 "2" "B St" "b.png"].
Proof.
  assert (UserTable.findOne 1 Examples2.three_users
          = Some (User.Entity 1 "Ann" "ann@example.org" "1" "A St" "a.png" [2]))
    as Hu by reflexivity.
  destruct (friends_pages_are_consecutive_windows 1
              {| page := None; limit := Some 2; search := None |}
              Examples2.three_users [] _ Hu) as (Hpage & _); [cbn; lia..|].
  exact Hpage.
Defined.

Lemma NoDup_ids_filter (P : User.entity → Prop) `{∀ u, Decision (P u)}
    (users : list User.entity) :
  NoDup (User.id <$> users) → NoDup (User.id <$> filter P users).
Proof.
  induction users as [|x l IH]; [done|]. cbn [fmap list_fmap].
  intros [Hx Hnd]%NoDup_cons. rewrite filter_cons.
  destruct (decide (P x)); [|by apply IH].
  cbn [fmap list_fmap]. apply NoDup_cons. split; [|by apply IH].
  intros (y & Hid & Hy)%list_elem_of_fmap.
  apply list_elem_of_filter in Hy as [_ Hy].
  apply Hx. rewrite Hid. by apply list_elem_of_fmap_2.
Qed.

(** X12. The other branch of [getFriendsOrNonFriends] passes the page
    number itself as the number of rows to skip.  For a stored user, a
    positive page [p] and limit [l], and a table with unique ids, the
    answer has at most [l] entries, each of them a user other than the
    asker that comes after the first [p] other users of the table, is not
    a loaded friend, and is not named by any friend request; so the first
    [p] other users of the table are never offered: with the default
    page, the first one. *)
Theorem non_friends_skip_page_many_users (id : Z) (query : Query)
    (users : list User.entity) (requests : list FriendRequest.entity)
    (user : User.entity) :
  let p := or_default (page query) 1 in
  let l := or_default (limit query) 10 in
  let others := filter (λ u, User.id u ≠ id) users in
  UserTable.findOne id users = Some user → 0 < p → 0 < l →
  NoDup (User.id <$> users) →
  ∃ answer,
    UserFriendStore.getFriendsOrNonFriends id false query users requests
      = resolved answer ∧
    (length answer ≤ Z.to_nat l)%nat ∧
    (∀ d, d ∈ answer →
       ∃ u, d = UserDto_of u ∧ u ∈ drop (Z.to_nat p) others ∧
            User.id u ≠ id ∧
            (User.id u ∉ User.id <$> UserTable.loaded_friends users user) ∧
            ∀ r, r ∈ requests →
                 User.id u ≠ (if FriendRequest.friendId r =? id
                              then FriendRequest.userId r
                              else FriendRequest.friendId r)) ∧
    (∀ u d, u ∈ take (Z.to_nat p) others → d ∈ answer →
            dto_id d ≠ User.id u).
Proof.
  intros p l others Hu Hp Hl Hnd.
  unfold UserFriendStore.getFriendsOrNonFriends,
    UserFriendStore.getFriendsOrNonFriends_try, UserFriendStore.find_others.
  rewrite Hu. cbn [negb]. fold p l.
  destruct (Z.ltb_spec p 0); [lia|]. destruct (Z.ltb_spec l 0); [lia|].
  cbn [orb await try_catch]. fold others.
  eexists. split; [reflexivity|].
  assert (∀ d, d ∈ UserDto_of <$> UserFriendStore.searched query
            (filter (λ u, (User.id u ∉ User.id <$>
                             UserTable.loaded_friends users user) ∧
                          (User.id u ∉ (λ request,
                             if FriendRequest.friendId request =? id
                             then FriendRequest.userId request
                             else FriendRequest.friendId request)
                             <$> requests))
               (take (Z.to_nat l) (drop (Z.to_nat p) others))) →
            ∃ u, d = UserDto_of u ∧ u ∈ drop (Z.to_nat p) others ∧
                 (User.id u ∉ User.id <$> UserTable.loaded_friends users user) ∧
                 (User.id u ∉ (λ request,
                    if FriendRequest.friendId request =? id
                    then FriendRequest.userId request
                    else FriendRequest.friendId request) <$> requests))
    as Hmember.
  { intros d (u & -> & Hin)%list_elem_of_fmap. exists u. split; [done|].
    assert (u ∈ filter (λ u, (User.id u ∉ User.id <$>
                                UserTable.loaded_friends users user) ∧
                             (User.id u ∉ (λ request,
                                if FriendRequest.friendId request =? id
                                then FriendRequest.userId request
                                else FriendRequest.friendId request)
                                <$> requests))
              (take (Z.to_nat l) (drop (Z.to_nat p) others))) as Hu'.
    { unfold UserFriendStore.searched in Hin.
      destruct (searching query); [|done].
      by apply list_elem_of_filter in Hin as [_ ?]. }
    apply list_elem_of_filter in Hu' as [[Hnf Hnr] Htake].
    split; [|done]. by eapply subseteq_take. }
  split; [|split].
  - rewrite length_fmap.
    etrans; [|apply (Nat.le_min_l _ (length (drop (Z.to_nat p) others)))].
    rewrite <- length_take.
    unfold UserFriendStore.searched. destruct (searching query).
    + etrans; [apply length_filter|apply length_filter].
    + apply length_filter.
  - intros d Hd. destruct (Hmember d Hd) as (u & -> & Hdrop & Hnf & Hnr).
    exists u. split; [done|]. split; [done|].
    assert (u ∈ others) as Hother by by eapply subseteq_drop.
    apply list_elem_of_filter in Hother as [Hne _].
    split; [done|]. split; [done|].
    intros r Hr Heq. apply Hnr. rewrite Heq.
    by apply (list_elem_of_fmap_2 (λ request,
                if FriendRequest.friendId request =? id
                then FriendRequest.userId request
                else FriendRequest.friendId request)).
  - intros u d Hu' Hd Heq.
    destruct (Hmember d Hd) as (u' & -> & Hdrop & _).
    assert (NoDup (User.id <$> others)) as Hnd'
      by by apply NoDup_ids_filter.
    rewrite <- (take_drop (Z.to_nat p) others), fmap_app in Hnd'.
    apply NoDup_app in Hnd' as (_ & Hdisj & _).
    apply (Hdisj (User.id u)); [by apply list_elem_of_fmap_2|].
    cbn in Heq. rewrite <- Heq. by apply list_elem_of_fmap_2.
Qed.

(** X12, at a concrete input: Cid asks for new friends; Ann, the first
    other user of the table, is never offered, Bob is. *)
Lemma non_friends_skip_page_many_users_witness :
  UserFriendStore.getFriendsOrNonFriends 3 false
    {| page := None; limit := None; search := None |}
    Examples2.three_users []
  = resolved [new_UserDto "Bob" "bob@example.org" 2 "2" "B St" "b.png"].
Proof.
  assert (UserTable.findOne 3 Examples2.three_users
          = Some (User.Entity 3 "Cid" "cid@example.org" "3" "C St" "c.png" []))
    as Hu by reflexivity.
  assert (NoDup (User.id <$> Examples2.three_users)) as Hnd.
  { vm_compute. repeat constructor; intros Hin;
      repeat (apply elem_of_cons in Hin as [Hin|Hin]; [discriminate|]);
      by apply elem_of_nil in Hin. }
  destruct (non_friends_skip_page_many_users 3
              {| page := None; limit := None; search := None |}
              Examples2.three_users [] _ Hu) as (answer & Hrun & _);
    [cbn; lia..|exact Hnd|].
  rewrite Hrun. vm_compute in Hrun. by injection Hrun as <-.
Defined.

(** * Properties of the friend handlers of UserController *)

(** X13. [getFriends] keeps one cache entry per user, whatever the query:
    once a call has stored an answer, every call for the same user while
    the entry lives returns that answer, for any page, limit or search and
    whatever the tables hold by then. *)
Theorem getFriends_cache_ignores_query (now0 id : Z) (query0 : Query)
    (cache : Cache (list UserDto)) (users : list User.entity)
    (requests : list FriendRequest.entity) (answer : list UserDto) :
  CacheManager.get now0 (template "getFriends:" id) cache = None →
  UserFriendStore.getFriendsOrNonFriends id true query0 users requests
    = resolved answer →
  let cache' :=
    snd (UserControllerMore.getFriends now0 id query0 cache users requests) in
  fst (UserControllerMore.getFriends now0 id query0 cache users requests)
    = resolved answer ∧
  ∀ now query users' requests', now0 ≤ now < now0 + 18000 →
    UserControllerMore.getFriends now id query cache' users' requests'
      = (resolved answer, cache').
Proof.
  intros Hmiss Hrun. unfold UserControllerMore.getFriends at 1 2.
  rewrite Hmiss, Hrun. cbn [fst snd]. split; [done|].
  intros now query users' requests' Hnow.
  unfold UserControllerMore.getFriends.
  by rewrite cache_get_set_within_ttl by lia.
Qed.

(** X13, at a concrete input: Ann's first page is served for page 2. *)
Lemma getFriends_cache_ignores_query_witness :
  fst (UserControllerMore.getFriends 10 1
         {| page := Some 2; limit := Some 1; search := None |}
         (snd (UserControllerMore.getFriends 0 1
                 {| page := Some 1; limit := Some 1; search := None |}
                 ∅ Examples2.three_users []))
         Examples2.three_users [])
  = resolved [new_UserDto "Bob" "bob@example.org" 2 "2" "B St" "b.png"].
Proof.
  assert (CacheManager.get 0 (template "getFriends:" 1)
            (∅ : Cache (list UserDto)) = None) as Hmiss by reflexivity.
  assert (UserFriendStore.getFriendsOrNonFriends 1 true
            {| page := Some 1; limit := Some 1; search := None |}
            Examples2.three_users []
          = resolved [new_UserDto "Bob" "bob@example.org" 2 "2" "B St" "b.png"])
    as Hrun by reflexivity.
  destruct (getFriends_cache_ignores_query 0 1 _ ∅ Examples2.three_users []
              _ Hmiss Hrun) as (_ & Hlater).
  rewrite (Hlater 10); [done|lia].
Defined.

Lemma cache_get_del_eq {V} (now : Z) (k : string) (c : Cache V) :
  CacheManager.get now k (CacheManager.del k c) = None.
Proof. unfold CacheManager.get, CacheManager.del. by rewrite lookup_delete_eq. Qed.

Lemma cache_get_del_ne {V} (now : Z) (k k' : string) (c : Cache V) :
  k ≠ k' →
  CacheManager.get now k' (CacheManager.del k c) = CacheManager.get now k' c.
Proof.
  intros Hne. unfold CacheManager.get, CacheManager.del.
  by rewrite lookup_delete_ne.
Qed.

(** X14. The [removeFriend] handler drops the cached friend list of the
    user who removes, and of nobody else: the next [getFriends] for that
    user is answered from the table, while the removed friend's cached
    list, if there is one, goes on being served as it was. *)
Theorem removeFriend_invalidates_one_side (dto : ToggleFriendDto)
    (cache : Cache (list UserDto)) (users : list User.entity) (now : Z)
    (query : Query) (requests : list FriendRequest.entity) :
  userId dto ≠ friendId dto →
  let cache' := snd (fst (UserControllerMore.removeFriend dto cache users)) in
  let users' := snd (UserControllerMore.removeFriend dto cache users) in
  fst (UserControllerMore.getFriends now (userId dto) query cache' users'
         requests)
    = UserFriendStore.getFriendsOrNonFriends (userId dto) true query users'
        requests ∧
  ∀ cached,
    CacheManager.get now (template "getFriends:" (friendId dto)) cache
      = Some cached →
    UserControllerMore.getFriends now (friendId dto) query cache' users'
      requests = (resolved cached, cache').
Proof.
  intros Hne cache' users'.
  assert (cache' = CacheManager.del (template "getFriends:" (userId dto)) cache)
    as ->.
  { subst cache'. unfold UserControllerMore.removeFriend.
    by destruct (UserFriendStore.removeFriend _ _ _). }
  split.
  - unfold UserControllerMore.getFriends. rewrite cache_get_del_eq.
    by destruct (UserFriendStore.getFriendsOrNonFriends _ _ _ _ _).
  - intros cached Hcached. unfold UserControllerMore.getFriends.
    rewrite cache_get_del_ne; [by rewrite Hcached|].
    intros Heq%template_inj. done.
Qed.

(** X14, at a concrete input: Bob's cached list still names Ann after Ann
    has removed him. *)
Lemma removeFriend_invalidates_one_side_witness :
  let cache :=
    snd (UserControllerMore.getFriends 0 2
           {| page := None; limit := None; search := None |}
           ∅ Examples2.three_users []) in
  fst (UserControllerMore.getFriends 10 2
         {| page := None; limit := None; search := None |}
         (snd (fst (UserControllerMore.removeFriend
                      {| userId := 1; friendId := 2 |} cache
                      Examples2.three_users)))
         (snd (UserControllerMore.removeFriend
                 {| userId := 1; friendId := 2 |} cache Examples2.three_users))
         [])
  = resolved [new_UserDto "Ann" "ann@example.org" 1 "1" "A St" "a.png"].
Proof.
  intros cache.
  assert (userId {| userId := 1; friendId := 2 |}
          ≠ friendId {| userId := 1; friendId := 2 |}) as Hne by (cbn; lia).
  destruct (removeFriend_invalidates_one_side
              {| userId := 1; friendId := 2 |} cache Examples2.three_users 10
              {| page := None; limit := None; search := None |} [] Hne)
    as (_ & Hstale).
  assert (CacheManager.get 10
            (template "getFriends:" (friendId {| userId := 1; friendId := 2 |}))
            cache
          = Some [new_UserDto "Ann" "ann@example.org" 1 "1" "A St" "a.png"])
    as Hcached by reflexivity.
  apply Hstale in Hcached. cbn [userId friendId] in Hcached.
  by rewrite Hcached.
Defined.

(** * Properties of [getItem] *)

Lemma find_in_filter {A} (p : A → bool) (P : A → Prop) `{∀ x, Decision (P x)}
    (l : list A) :
  (∀ x, p x = true → P x) → List.find p (filter P l) = List.find p l.
Proof.
  intros Himp. induction l as [|x l IH]; [done|].
  rewrite filter_cons. cbn. destruct (p x) eqn:Hp.
  - rewrite decide_True by by apply Himp. cbn. by rewrite Hp.
  - destruct (decide (P x)); [|done]. cbn. by rewrite Hp.
Qed.

Lemma find_strict_equals_undefined (users : list User.entity) :
  List.find (λ user, strict_equals (User.id user) None) users = None.
Proof. by induction users. Qed.

Lemma getUserWithFriend_undefined `{UserRepository} (friendId : option Z) :
  ∃ e, UserFriendStore.getUserWithFriend None friendId = rejected e.
Proof.
  unfold UserFriendStore.getUserWithFriend.
  destruct (repository_findByIds [None; friendId]) as [users|e]; cbn.
  - rewrite find_strict_equals_undefined. cbn. eauto.
  - unfold UserFriendStore.only_NotFound.
    destruct (instanceof_NotFoundException e); eauto.
Qed.

Lemma message_lacks_userId (data : item.row) :
  ItemServiceMore.getUserWithFriend_message data !! "userId" = None.
Proof.
  unfold ItemServiceMore.getUserWithFriend_message.
  rewrite lookup_insert_ne by done. by rewrite lookup_singleton_ne.
Qed.

Lemma getUserWithFriend_table (u f : Z) (users : list User.entity) :
  @UserFriendStore.getUserWithFriend (table_repository users) (Some u) (Some f)
  = match UserTable.findOne u users, UserTable.findOne f users with
    | Some userEntity, Some friendEntity => resolved (userEntity, friendEntity)
    | _, _ => rejected (NotFoundException "One or both users not found")
    end.
Proof.
  unfold UserFriendStore.getUserWithFriend.
  cbn [repository_findByIds table_repository await strict_equals].
  unfold UserTable.findByIds. rewrite !find_in_filter.
  - fold (UserTable.findOne u users). fold (UserTable.findOne f users).
    by destruct (UserTable.findOne u users), (UserTable.findOne f users).
  - intros x ->%Z.eqb_eq. apply elem_of_cons. right. apply list_elem_of_here.
  - intros x ->%Z.eqb_eq. apply list_elem_of_here.
Qed.

(** X15. [getItem] resolves exactly when one row carries the item id and
    the user service's reply to the [getUserWithFriend] message resolves;
    the answer is then the item with the two users of the reply.  Every
    rejection, for a missing item as for a rejected reply, is the same
    [Error('Error processing item retrieval')].  When the message is
    answered by the user service's own handler, the reply is a rejection
    whatever the repository holds: the object sent has the properties
    [user_id] and [friend_id], the handler reads [userId] and [friendId],
    and an [undefined] id is the id of no user; so [getItem] is then
    rejected for every item.  The same handler resolves with the two
    stored users when it is given their ids under the names it reads. *)
Theorem getItem_outcome (item_id : Z) (t : table) :
  (∀ client dto,
     ItemServiceMore.getItem client item_id t = resolved dto ↔
     ∃ row u f,
       filter (λ r, item.id r = item_id) t = [row] ∧
       ItemServiceMore.send_getUserWithFriend client
         (ItemServiceMore.getUserWithFriend_message row) = resolved (u, f) ∧
       dto = new_ItemWithUsersDto (new_ItemDto row) u f) ∧
  (∀ client e,
     ItemServiceMore.getItem client item_id t = rejected e →
     e = Error "Error processing item retrieval") ∧
  (∀ repository : UserRepository,
     ItemServiceMore.getItem (@ItemServiceMore.userClient_to repository)
       item_id t
     = rejected (Error "Error processing item retrieval")) ∧
  (∀ users u f,
     UserTable.findOne (User.id u) users = Some u →
     UserTable.findOne (User.id f) users = Some f →
     @UserControllerMore.getUserWithFriend (table_repository users)
       {[ "userId" := User.id u; "friendId" := User.id f ]}
     = resolved (u, f)).
Proof.
  assert (∀ client e,
            ItemServiceMore.getItem client item_id t = rejected e →
            e = Error "Error processing item retrieval") as Hrejected.
  { intros client e. unfold ItemServiceMore.getItem.
    destruct (ItemServiceMore.getItem_try client item_id t); cbn;
      [discriminate|by intros [= <-]]. }
  split; [|split; [exact Hrejected|split]].
  - intros client dto.
    unfold ItemServiceMore.getItem, ItemServiceMore.getItem_try.
    destruct (supabase.select_eq_id_single item_id t) as [row|err] eqn:Hsel.
    + apply select_single_spec in Hsel.
      destruct (ItemServiceMore.send_getUserWithFriend client _)
        as [[u f]|e] eqn:Hreply; cbn.
      * split.
        -- intros [= <-]. by exists row, u, f.
        -- intros (row' & u' & f' & Hsel' & Hreply' & ->).
           rewrite Hsel in Hsel'. injection Hsel' as <-.
           rewrite Hreply in Hreply'. by injection Hreply' as <- <-.
      * split; [discriminate|].
        intros (row' & u' & f' & Hsel' & Hreply' & _).
        rewrite Hsel in Hsel'. injection Hsel' as <-.
        rewrite Hreply in Hreply'. discriminate.
    + cbn. split; [discriminate|].
      intros (row' & u' & f' & Hsel' & _).
      apply select_single_spec in Hsel'. congruence.
  - intros repository.
    destruct (ItemServiceMore.getItem
                (@ItemServiceMore.userClient_to repository) item_id t)
      as [dto|e] eqn:Hrun; [exfalso|by rewrite (Hrejected _ _ Hrun)].
    unfold ItemServiceMore.getItem, ItemServiceMore.getItem_try in Hrun.
    destruct (supabase.select_eq_id_single item_id t) as [row|err];
      [|discriminate].
    cbn [ItemServiceMore.userClient_to ItemServiceMore.send_getUserWithFriend]
      in Hrun.
    unfold UserControllerMore.getUserWithFriend in Hrun.
    rewrite message_lacks_userId in Hrun.
    destruct (getUserWithFriend_undefined
                (ItemServiceMore.getUserWithFriend_message row !! "friendId"))
      as [e He].
    rewrite He in Hrun. discriminate.
  - intros users u f Hu Hf. unfold UserControllerMore.getUserWithFriend.
    rewrite lookup_insert_eq.
    rewrite lookup_insert_ne by done. rewrite lookup_singleton_eq.
    by rewrite getUserWithFriend_table, Hu, Hf.
Qed.

(** X15, at a concrete input: Ann has left item 7 with Bob and both are
    stored users; [getItem] for it is rejected all the same, although the
    handler finds the two when it is given [userId] and [friendId]. *)
Lemma getItem_outcome_witness :
  ItemServiceMore.getItem
    (@ItemServiceMore.userClient_to (table_repository Examples2.three_users))
    7 [item.Row 7 0 1 2 30 20 10 "tent" 2500 None]
  = rejected (Error "Error processing item retrieval") ∧
  @UserControllerMore.getUserWithFriend
    (table_repository Examples2.three_users) {[ "userId" := 1; "friendId" := 2 ]}
  = resolved
      (User.Entity 1 "Ann" "ann@example.org" "1" "A St" "a.png" [2],
       User.Entity 2 "Bob" "bob@example.org" "2" "B St" "b.png" [1]).
Proof.
  destruct (getItem_outcome 7 [item.Row 7 0 1 2 30 20 10 "tent" 2500 None])
    as (_ & _ & Hwired & Hhandler).
  split.
  - apply Hwired.
  - apply (Hhandler Examples2.three_users
             (User.Entity 1 "Ann" "ann@example.org" "1" "A St" "a.png" [2])
             (User.Entity 2 "Bob" "bob@example.org" "2" "B St" "b.png" [1]));
      reflexivity.
Defined.

(** * Properties of the friend requests *)

Lemma checkIfFriends_false (u f : Z) (users : list User.entity) :
  UserFriendStore.checkIfFriends u f users = resolved false →
  ∃ ru rf, UserTable.findOne u users = Some ru ∧
           UserTable.findOne f users = Some rf ∧ f ∉ User.friends ru.
Proof.
  rewrite checkIfFriends_table.
  destruct (UserTable.findOne u users) as [ru|]; [|discriminate].
  destruct (UserTable.findOne f users) as [rf|]; [|discriminate].
  case_bool_decide; [discriminate|]. eauto.
Qed.

Lemma find_app_r {A} (p : A → bool) (l k : list A) :
  List.find p l = None → List.find p (l ++ k) = List.find p k.
Proof.
  induction l as [|x l IH]; [done|]. cbn.
  destruct (p x); [discriminate|]. exact IH.
Qed.

Lemma createFriendRequest_resolves (c e u f : Z) (s : FriendRequests.Store)
    (ru rf : User.entity) :
  UserTable.findOne u (FriendRequests.users s) = Some ru →
  UserTable.findOne f (FriendRequests.users s) = Some rf →
  f ∉ User.friends ru →
  FriendRequests.findOne u f (FriendRequests.requests s) = None →
  FriendRequests.createFriendRequest c e {| userId := u; friendId := f |} s
  = (resolved tt,
     FriendRequests.mkStore (FriendRequests.users s)
       (FriendRequests.requests s ++
        [FriendRequest.Entity (FriendRequests.next_id (FriendRequests.requests s))
           u f (Some false) (User.imageUrl rf) (User.name ru) (User.name rf)
           c e])
       (FriendRequests.sent s ++
        [ {| np_userId := User.id rf; np_nameOfTheService := "user-service";
             np_text := "You sent friend request to " +:+ User.name ru;
             np_initials := "FR" |};
          {| np_userId := User.id ru; np_nameOfTheService := "user-service";
             np_text := "You Recieved friend request to " +:+ User.name rf;
             np_initials := "FR" |} ])).
Proof.
  intros Hu Hf Hnf Hnone.
  unfold FriendRequests.createFriendRequest, UserTable.transaction,
    FriendRequests.createFriendRequest_body.
  cbn [userId friendId]. rewrite checkIfFriends_table, Hu, Hf.
  rewrite bool_decide_eq_false_2 by done. by rewrite Hnone.
Qed.

Lemma createFriendRequest_already_sent (c e u f : Z)
    (s : FriendRequests.Store) :
  UserFriendStore.checkIfFriends u f (FriendRequests.users s)
    = resolved false →
  is_Some (FriendRequests.findOne u f (FriendRequests.requests s)) →
  FriendRequests.createFriendRequest c e {| userId := u; friendId := f |} s
  = (rejected (Error
       "Error while creating a friend request: Friend request already sent."),
     s).
Proof.
  intros Hcheck [r Hr].
  unfold FriendRequests.createFriendRequest, UserTable.transaction,
    FriendRequests.createFriendRequest_body.
  cbn [userId friendId]. by rewrite Hcheck, Hr.
Qed.

Lemma findOne_after_save (a b : Z) (x : bool) (r : FriendRequest.entity)
    (rs : list FriendRequest.entity) :
  FriendRequests.findOne a b rs = Some r →
  is_Some (FriendRequests.findOne a b
             (FriendRequests.save (FriendRequest.set_accepted x r) rs)).
Proof.
  unfold FriendRequests.findOne, FriendRequests.save.
  induction rs as [|x0 rs IH]; [discriminate|]. cbn.
  destruct ((FriendRequest.friendId x0 =? a) && (FriendRequest.userId x0 =? b))
    eqn:Hkey.
  - intros [= ->]. destruct (FriendRequest.id r =? FriendRequest.id r); cbn;
      rewrite Hkey; eauto.
  - intros Hfind.
    assert ((FriendRequest.friendId r =? a) && (FriendRequest.userId r =? b)
            = true) as Hr by by apply find_some in Hfind as [_ ?].
    destruct (FriendRequest.id x0 =? FriendRequest.id r); cbn.
    + rewrite Hr. eauto.
    + rewrite Hkey. by apply IH.
Qed.

(** X16. A friend request that is accepted makes friends.  When [u] and
    [f] are stored, are friends in neither direction and no request from
    [u] to [f] is stored, [createFriendRequest] for ([u], [f]) resolves
    and leaves the user table alone; [accepOrDenytFriendRequest] with the
    two ids the other way round and [isAcepted] then resolves with the
    request marked accepted; after it [checkIfFriends] reports the two as
    friends both ways, and a further request from [u] to [f] is rejected
    for that reason. *)
Theorem accepted_request_makes_friends (c e c' e' u f : Z)
    (s : FriendRequests.Store) :
  UserFriendStore.checkIfFriends u f (FriendRequests.users s)
    = resolved false →
  UserFriendStore.checkIfFriends f u (FriendRequests.users s)
    = resolved false →
  FriendRequests.findOne u f (FriendRequests.requests s) = None →
  let s1 := snd (FriendRequests.createFriendRequest c e
                   {| userId := u; friendId := f |} s) in
  let s2 := snd (FriendRequests.accepOrDenytFriendRequest
                   {| userId := f; friendId := u |} true s1) in
  fst (FriendRequests.createFriendRequest c e
         {| userId := u; friendId := f |} s) = resolved tt ∧
  FriendRequests.users s1 = FriendRequests.users s ∧
  (∃ r, fst (FriendRequests.accepOrDenytFriendRequest
               {| userId := f; friendId := u |} true s1) = resolved r ∧
        FriendRequest.accepted r = Some true ∧
        FriendRequest.friendId r = u ∧ FriendRequest.userId r = f) ∧
  UserFriendStore.checkIfFriends u f (FriendRequests.users s2)
    = rejected (ConflictException "The specified users are friends.") ∧
  UserFriendStore.checkIfFriends f u (FriendRequests.users s2)
    = rejected (ConflictException "The specified users are friends.") ∧
  fst (FriendRequests.createFriendRequest c' e'
         {| userId := u; friendId := f |} s2)
    = rejected (Error
        "Error while creating a friend request: The specified users are friends.").
Proof.
  intros Huf Hfu Hnone.
  destruct (checkIfFriends_false _ _ _ Huf) as (ru & rf & Hu & Hf & Hnf).
  destruct (checkIfFriends_false _ _ _ Hfu) as (rf' & ru' & Hf' & Hu' & Hnu).
  assert (rf' = rf) as -> by congruence. assert (ru' = ru) as -> by congruence.
  rewrite (createFriendRequest_resolves c e u f s ru rf) by done.
  cbn [fst snd FriendRequests.users].
  split; [done|]. split; [done|].
  (* the acceptance *)
  assert (fst (UserFriendStore.addFriend {| userId := f; friendId := u |}
                 (FriendRequests.users s)) = resolved tt) as Hadd.
  { unfold UserFriendStore.addFriend, UserFriendStore.addFriend_try.
    cbn [userId friendId]. rewrite Hf, Hu.
    destruct (existsb _ (User.friends rf)) eqn:Hex; [|done].
    apply is_friend_check in Hex. apply findOne_id in Hu as [Hid _].
    rewrite Hid in Hex. done. }
  destruct (addFriend_resolved
              {| userId := f; friendId := u |} (FriendRequests.users s) Hadd)
    as (_ & Hfu2 & Huf2).
  cbn [userId friendId] in Hfu2, Huf2.
  unfold FriendRequests.accepOrDenytFriendRequest,
    FriendRequests.accepOrDenytFriendRequest_body.
  cbn [userId friendId FriendRequests.requests FriendRequests.users
       FriendRequests.sent].
  unfold FriendRequests.findOne.
  rewrite find_app_r by exact Hnone.
  cbn [List.find FriendRequest.friendId FriendRequest.userId].
  rewrite !Z.eqb_refl. cbn [andb].
  destruct (UserFriendStore.addFriend {| userId := f; friendId := u |}
              (FriendRequests.users s)) as [[[]|err] users2] eqn:Hrun;
    [|discriminate].
  cbn [fst snd try_catch FriendRequests.users] in *.
  split; [eexists; split; [reflexivity|done]|].
  split; [exact Huf2|]. split; [exact Hfu2|].
  unfold FriendRequests.createFriendRequest, UserTable.transaction,
    FriendRequests.createFriendRequest_body.
  cbn [userId friendId FriendRequests.users]. rewrite Huf2. reflexivity.
Qed.

(** X16, at a concrete input: Ann asks Cid, Cid accepts. *)
Lemma accepted_request_makes_friends_witness :
  UserFriendStore.checkIfFriends 1 3
    (FriendRequests.users
       (snd (FriendRequests.accepOrDenytFriendRequest
               {| userId := 3; friendId := 1 |} true
               (snd (FriendRequests.createFriendRequest 0 7
                       {| userId := 1; friendId := 3 |}
                       (FriendRequests.mkStore Examples2.three_users [] []))))))
  = rejected (ConflictException "The specified users are friends.").
Proof.
  destruct (accepted_request_makes_friends 0 7 8 15 1 3
              (FriendRequests.mkStore Examples2.three_users [] []))
    as (_ & _ & _ & Hfriends & _); [reflexivity..|].
  exact Hfriends.
Defined.

(** X17. A stored request from [u] to [f] blocks every further one,
    whatever became of it.  After a first [createFriendRequest] a second
    one is rejected as already sent and changes nothing; and after the
    request has been denied, which leaves the user table as it was and
    stores the request with [accepted = false], it is rejected in the
    same way. *)
Theorem stored_request_blocks_new_one (c e c' e' u f : Z)
    (s : FriendRequests.Store) :
  UserFriendStore.checkIfFriends u f (FriendRequests.users s)
    = resolved false →
  FriendRequests.findOne u f (FriendRequests.requests s) = None →
  let s1 := snd (FriendRequests.createFriendRequest c e
                   {| userId := u; friendId := f |} s) in
  let s2 := snd (FriendRequests.accepOrDenytFriendRequest
                   {| userId := f; friendId := u |} false s1) in
  FriendRequests.createFriendRequest c' e'
    {| userId := u; friendId := f |} s1
  = (rejected (Error
       "Error while creating a friend request: Friend request already sent."),
     s1) ∧
  (∃ r, fst (FriendRequests.accepOrDenytFriendRequest
               {| userId := f; friendId := u |} false s1) = resolved r ∧
        FriendRequest.accepted r = Some false) ∧
  FriendRequests.users s2 = FriendRequests.users s ∧
  FriendRequests.createFriendRequest c' e'
    {| userId := u; friendId := f |} s2
  = (rejected (Error
       "Error while creating a friend request: Friend request already sent."),
     s2).
Proof.
  intros Huf Hnone.
  destruct (checkIfFriends_false _ _ _ Huf) as (ru & rf & Hu & Hf & Hnf).
  rewrite (createFriendRequest_resolves c e u f s ru rf) by done.
  cbn [snd].
  set (new := FriendRequest.Entity _ u f (Some false) _ _ _ c e).
  assert (FriendRequests.findOne u f (FriendRequests.requests s ++ [new])
          = Some new) as Hfound.
  { unfold FriendRequests.findOne. rewrite find_app_r by exact Hnone.
    cbn. by rewrite !Z.eqb_refl. }
  split; [|split; [|split]].
  - apply createFriendRequest_already_sent; [done|].
    cbn [FriendRequests.requests]. by rewrite Hfound.
  - unfold FriendRequests.accepOrDenytFriendRequest,
      FriendRequests.accepOrDenytFriendRequest_body.
    cbn [userId friendId FriendRequests.requests]. rewrite Hfound.
    cbn. eauto.
  - unfold FriendRequests.accepOrDenytFriendRequest,
      FriendRequests.accepOrDenytFriendRequest_body.
    cbn [userId friendId FriendRequests.requests]. by rewrite Hfound.
  - unfold FriendRequests.accepOrDenytFriendRequest,
      FriendRequests.accepOrDenytFriendRequest_body.
    cbn [userId friendId FriendRequests.requests]. rewrite Hfound.
    cbn [try_catch fst snd FriendRequests.users FriendRequests.sent].
    apply createFriendRequest_already_sent; [done|].
    cbn [FriendRequests.requests]. by apply findOne_after_save.
Qed.

(** X17, at a concrete input: Ann asks Cid twice. *)
Lemma stored_request_blocks_new_one_witness :
  fst (FriendRequests.createFriendRequest 1 8
         {| userId := 1; friendId := 3 |}
         (snd (FriendRequests.createFriendRequest 0 7
                 {| userId := 1; friendId := 3 |}
                 (FriendRequests.mkStore Examples2.three_users [] []))))
  = rejected (Error
      "Error while creating a friend request: Friend request already sent.").
Proof.
  destruct (stored_request_blocks_new_one 0 7 1 8 1 3
              (FriendRequests.mkStore Examples2.three_users [] []))
    as (Hagain & _); [reflexivity..|].
  cbv zeta in Hagain. by rewrite Hagain.
Defined.

(** * Properties of the notification service *)

Lemma filter_none_same {A} (P : A → Prop) `{∀ x, Decision (P x)}
    (l : list A) :
  filter P l = [] → filter (λ x, ¬ P x) l = l.
Proof.
  induction l as [|x l IH]; [done|]. rewrite !filter_cons.
  destruct (decide (P x)); [discriminate|].
  intros Hnil. rewrite decide_True by done. f_equal. by apply IH.
Qed.

Lemma find_none_after_delete (id : Z) (table : list Notification.entity) :
  List.find (λ n, Notification.id n =? id)
    (filter (λ n, Notification.id n ≠ id) table) = None.
Proof.
  apply find_none_elem_of. intros n [Hne _]%list_elem_of_filter.
  by apply Z.eqb_neq.
Qed.

(** X18. [deleteNotification] resolves exactly when a notification with
    the id is stored.  It then removes the rows with that id and no other,
    so every other notification is fetched as before, while fetching the
    deleted one is rejected with the message used for every failure, and
    deleting it again is rejected with the [NotFoundException] that names
    the id.  A call that is rejected leaves the table as it was. *)
Theorem deleteNotification_outcome (id : Z)
    (table : list Notification.entity) :
  let table' := snd (NotificationsService.deleteNotification id table) in
  (fst (NotificationsService.deleteNotification id table) = resolved tt ↔
   id ∈ Notification.id <$> table) ∧
  (∀ n, n ∈ table' ↔ n ∈ table ∧ Notification.id n ≠ id) ∧
  (∀ other, other ≠ id →
     NotificationsService.getNotification other table'
       = NotificationsService.getNotification other table) ∧
  NotificationsService.getNotification id table'
    = rejected (Error "Failed to fetch notification") ∧
  NotificationsService.deleteNotification id table'
    = (rejected (NotFoundException
         ("notification with ID " +:+ pretty id +:+ " not found")), table') ∧
  (fst (NotificationsService.deleteNotification id table) ≠ resolved tt →
   table' = table).
Proof.
  assert (∀ tbl, snd (NotificationsService.deleteNotification id tbl)
                 = filter (λ n, Notification.id n ≠ id) tbl) as Hsnd.
  { intros tbl. unfold NotificationsService.deleteNotification,
      NotificationsService.deleteNotification_try.
    by destruct (Nat.eqb _ 0). }
  assert (∀ tbl, filter (λ n, Notification.id n = id) tbl = [] →
                 NotificationsService.deleteNotification id tbl
                 = (rejected (NotFoundException
                      ("notification with ID " +:+ pretty id +:+ " not found")),
                    filter (λ n, Notification.id n ≠ id) tbl)) as Hmiss.
  { intros tbl Hnil. unfold NotificationsService.deleteNotification,
      NotificationsService.deleteNotification_try. by rewrite Hnil. }
  cbv zeta. rewrite Hsnd.
  split; [|split; [|split; [|split; [|split]]]].
  - unfold NotificationsService.deleteNotification,
      NotificationsService.deleteNotification_try.
    destruct (filter (λ n, Notification.id n = id) table) as [|n l] eqn:Hf;
      cbn.
    + split; [discriminate|]. intros (n & Hid & Hn)%list_elem_of_fmap.
      exfalso. eapply (filter_nil_not_elem_of _ _ n Hf); done.
    + split; [intros _|done].
      assert (n ∈ filter (λ n, Notification.id n = id) table) as Hn
        by (rewrite Hf; apply list_elem_of_here).
      apply list_elem_of_filter in Hn as [<- Hn].
      by apply list_elem_of_fmap_2.
  - intros n. rewrite list_elem_of_filter. tauto.
  - intros other Hne. unfold NotificationsService.getNotification,
      NotificationsService.getNotification_try.
    rewrite find_in_filter; [done|]. intros n Hn%Z.eqb_eq. congruence.
  - unfold NotificationsService.getNotification,
      NotificationsService.getNotification_try.
    by rewrite find_none_after_delete.
  - rewrite Hmiss.
    + by rewrite list_filter_filter_l by tauto.
    + destruct (filter _ (filter _ table)) as [|n l] eqn:Hf; [done|exfalso].
      assert (n ∈ filter (λ n, Notification.id n = id)
                (filter (λ n, Notification.id n ≠ id) table)) as Hn
        by (rewrite Hf; apply list_elem_of_here).
      apply list_elem_of_filter in Hn as [Heq Hn].
      by apply list_elem_of_filter in Hn as [Hne _].
  - unfold NotificationsService.deleteNotification,
      NotificationsService.deleteNotification_try.
    destruct (filter (λ n, Notification.id n = id) table) as [|n l] eqn:Hf;
      cbn; [|done].
    intros _. by apply filter_none_same.
Qed.

(** X18, at a concrete input: of two stored notifications the first is
    deleted, and deleting it again is rejected. *)
Lemma deleteNotification_outcome_witness :
  fst (NotificationsService.deleteNotification 1
         [Notification.Entity 1 0 (Some 5) "hello" false;
          Notification.Entity 2 0 (Some 5) "again" false]) = resolved tt ∧
  fst (NotificationsService.deleteNotification 1
         (snd (NotificationsService.deleteNotification 1
                 [Notification.Entity 1 0 (Some 5) "hello" false;
                  Notification.Entity 2 0 (Some 5) "again" false])))
  = rejected (NotFoundException "notification with ID 1 not found").
Proof.
  destruct (deleteNotification_outcome 1
              [Notification.Entity 1 0 (Some 5) "hello" false;
               Notification.Entity 2 0 (Some 5) "again" false])
    as (Hresolves & _ & _ & _ & Hagain & _).
  split.
  - apply Hresolves. apply list_elem_of_here.
  - rewrite Hagain. reflexivity.
Defined.

(** * Properties of the exchange controller's cache *)

Lemma pretty_N_char_no_colon (x : N) :
  Ascii.eqb (pretty_N_char x) colon = false.
Proof. unfold pretty_N_char. repeat case_match; reflexivity. Qed.

Lemma occurs_pretty_N_go (x : N) (s : string) :
  occurs colon (pretty_N_go x s) = occurs colon s.
Proof.
  revert s. induction (N.lt_wf_0 x) as [x _ IH]; intros s.
  destruct (decide (x = 0)%N) as [->|Hne]; [by rewrite pretty_N_go_0|].
  rewrite pretty_N_go_step by lia.
  rewrite IH by (apply N.div_lt; lia).
  cbn. by rewrite pretty_N_char_no_colon.
Qed.

Lemma occurs_pretty_Z (x : Z) : occurs colon (pretty x) = false.
Proof.
  unfold pretty, pretty_Z.
  destruct x as [|p|p]; [done| |];
    unfold pretty, pretty_positive, pretty, pretty_N;
    rewrite decide_False by done.
  - by rewrite occurs_pretty_N_go.
  - cbv beta iota fix delta [String.append]. cbn [occurs].
    by rewrite occurs_pretty_N_go.
Qed.

Lemma split_at_colon (a a' b b' : string) :
  occurs colon a = false → occurs colon a' = false →
  a +:+ ":" +:+ b = a' +:+ ":" +:+ b' → a = a' ∧ b = b'.
Proof.
  revert a'. induction a as [|c a IH]; intros [|c' a'];
    cbv beta iota fix delta [String.append];
    fold String.append; cbn [occurs].
  - intros _ _ [= ->]. done.
  - intros _ [Hc _]%orb_false_elim [= <- _]. by vm_compute in Hc.
  - intros [Hc _]%orb_false_elim _ [= -> _]. by vm_compute in Hc.
  - intros [_ Ha]%orb_false_elim [_ Ha']%orb_false_elim [= -> Heq].
    destruct (IH a' Ha Ha' Heq) as [-> ->]. done.
Qed.

Lemma fullExchange_key_inj (id userId id' userId' : Z) :
  ExchangeControllerMore.fullExchange_key id userId
    = ExchangeControllerMore.fullExchange_key id' userId' →
  id = id' ∧ userId = userId'.
Proof.
  unfold ExchangeControllerMore.fullExchange_key.
  intros Heq%(inj (String.app "fullExchange:")).
  apply split_at_colon in Heq as [Hid Huser]; [|apply occurs_pretty_Z..].
  split; by apply (inj pretty).
Qed.

(** X19. The cache entries of [getFullExchange] are kept apart by the pair
    of exchange id and user id: the key [fullExchange:<id>:<userId>] of one
    pair is the key of no other pair, so a call for one pair, whatever the
    exchange service answered then, changes nothing in what a later call
    for another pair returns. *)
Theorem getFullExchange_cache_is_per_pair {FullExchangeDto}
    (before after : ExchangeService FullExchangeDto)
    (now0 now id userId id' userId' : Z) (cache : Cache FullExchangeDto) :
  (id, userId) ≠ (id', userId') →
  let cache' :=
    snd (@ExchangeControllerMore.getFullExchange _ before now0 id userId cache)
  in
  ExchangeControllerMore.fullExchange_key id userId
    ≠ ExchangeControllerMore.fullExchange_key id' userId' ∧
  fst (@ExchangeControllerMore.getFullExchange _ after now id' userId' cache')
  = fst (@ExchangeControllerMore.getFullExchange _ after now id' userId' cache).
Proof.
  intros Hne.
  assert (ExchangeControllerMore.fullExchange_key id userId
          ≠ ExchangeControllerMore.fullExchange_key id' userId') as Hkey.
  { intros [-> ->]%fullExchange_key_inj. done. }
  cbv zeta. split; [exact Hkey|].
  unfold ExchangeControllerMore.getFullExchange at 2.
  destruct (CacheManager.get now0 _ cache); [done|].
  destruct (exchangeService_getFullExchange id userId); [|done].
  cbn [snd]. unfold ExchangeControllerMore.getFullExchange. cbv zeta.
  rewrite cache_get_set_ne by exact Hkey.
  by destruct (CacheManager.get now _ cache),
       (exchangeService_getFullExchange id' userId').
Qed.

(** X19, at a concrete input: exchange 1 seen by user 12 and exchange 11
    seen by user 2 do not share an entry. *)
Lemma getFullExchange_cache_is_per_pair_witness :
  fst (@ExchangeControllerMore.getFullExchange _ Examples2.echo_service
         5 11 2
         (snd (@ExchangeControllerMore.getFullExchange _ Examples2.echo_service
                 0 1 12 ∅)))
  = resolved (11, 2).
Proof.
  assert ((1, 12) ≠ (11, 2)) as Hne by (intros [= ? ?]; lia).
  destruct (getFullExchange_cache_is_per_pair Examples2.echo_service
              Examples2.echo_service 0 5 1 12 11 2 ∅ Hne) as [_ Heq].
  rewrite Heq. reflexivity.
Defined.
